(** * Snowpack: import resolution, alias matching, lockfile and build sequencing

    A shallow embedding of [esinstall/src/util.ts] and of the import
    rewriting part of [packages/snowpack/src/commands/build.ts], with the
    properties of the design document stated and proved over it.

    JavaScript strings are modelled by [string]; a character stands for one
    code unit in the range 0..255.  [undefined], [null] and [false] results
    are modelled by [None].  Node's library ([path], [url], [fs], the module
    loader) and the modules of the repository that the two files import
    are parameters of the definitions; what they throw are [Error]
    objects. *)

From Stdlib Require Import Strings.String Strings.Ascii Lists.List Bool Arith
  NArith ZArith Lia Sorting.Permutation Sorting.Sorted.
Import ListNotations.
Open Scope list_scope.
Open Scope string_scope.

(** ** JavaScript string primitives *)

Module JS.

(** [s.startsWith(p)] *)
Fixpoint startsWith (p s : string) : bool :=
  match p, s with
  | EmptyString, _ => true
  | String _ _, EmptyString => false
  | String c p', String d s' => Ascii.eqb c d && startsWith p' s'
  end.

(** [s.split('/')]: never returns the empty array. *)
Fixpoint split_slash (s : string) : list string :=
  match s with
  | EmptyString => [EmptyString]
  | String c s' =>
      if Ascii.eqb c "/" then EmptyString :: split_slash s'
      else match split_slash s' with
           | h :: t => String c h :: t
           | [] => [String c EmptyString]
           end
  end.

(** [parts.join(sep)] *)
Fixpoint join (sep : string) (parts : list string) : string :=
  match parts with
  | [] => EmptyString
  | [x] => x
  | x :: t => x ++ sep ++ join sep t
  end.

(** A value interpolated in a template literal: [undefined] prints as the
    nine letters of its name. *)
Definition template (v : option string) : string :=
  match v with
  | Some s => s
  | None => "undefined"
  end.

(** [s || null] on a string: the empty string is falsy. *)
Definition or_null (s : string) : option string :=
  match s with
  | EmptyString => None
  | _ => Some s
  end.

(** No ['/'] occurs in [s]. *)
Fixpoint no_slash (s : string) : bool :=
  match s with
  | EmptyString => true
  | String c s' => negb (Ascii.eqb c "/") && no_slash s'
  end.

(** [s.endsWith(suffix)] *)
Fixpoint endsWith (suffix s : string) : bool :=
  String.eqb s suffix
  || match s with
     | EmptyString => false
     | String _ s' => endsWith suffix s'
     end.

(** [s.endsWith("/")] *)
Fixpoint endsWith_slash (s : string) : bool :=
  match s with
  | EmptyString => false
  | String c EmptyString => Ascii.eqb c "/"
  | String _ s' => endsWith_slash s'
  end.

(** The character class [[/\\]] of the slash-trimming expressions. *)
Definition is_sep (c : ascii) : bool := Ascii.eqb c "/" || Ascii.eqb c "092".

Fixpoint all_sep (s : string) : bool :=
  match s with
  | EmptyString => true
  | String c s' => is_sep c && all_sep s'
  end.

(** The last character of [s] is ['/'] or a backslash. *)
Fixpoint ends_with_sep (s : string) : bool :=
  match s with
  | EmptyString => false
  | String c EmptyString => is_sep c
  | String _ s' => ends_with_sep s'
  end.

(** [s.lastIndexOf(p)], [None] standing for -1. *)
Fixpoint lastIndexOf (p s : string) : option nat :=
  match s with
  | EmptyString => match p with EmptyString => Some 0 | _ => None end
  | String _ s' =>
      match lastIndexOf p s' with
      | Some i => Some (S i)
      | None => if startsWith p s then Some 0 else None
      end
  end.

(** [s.substring(0, n)]: the end index is clamped to the length. *)
Fixpoint substring0 (n : nat) (s : string) : string :=
  match n, s with
  | O, _ => EmptyString
  | S _, EmptyString => EmptyString
  | S n', String c s' => String c (substring0 n' s')
  end.

(** [s.replace('/', by)]: a string pattern replaces its first occurrence
    only. *)
Fixpoint replace_first_slash (by_ : string) (s : string) : string :=
  match s with
  | EmptyString => EmptyString
  | String c s' =>
      if Ascii.eqb c "/" then by_ ++ s' else String c (replace_first_slash by_ s')
  end.

(** [s.replace(/\\/g, '/')] *)
Fixpoint backslashes_to_slashes (s : string) : string :=
  match s with
  | EmptyString => EmptyString
  | String c s' =>
      String (if Ascii.eqb c "092" then "/"%char else c) (backslashes_to_slashes s')
  end.

(** [s.replace(pat, by)] with a string pattern: the first occurrence. *)
Fixpoint drop (n : nat) (s : string) : string :=
  match n, s with
  | O, _ => s
  | S _, EmptyString => EmptyString
  | S n', String _ s' => drop n' s'
  end.

Fixpoint replace_first (pat by_ : string) (s : string) : string :=
  if startsWith pat s then by_ ++ drop (String.length pat) s
  else match s with
       | EmptyString => EmptyString
       | String c s' => String c (replace_first pat by_ s')
       end.

(** *** Objects used as string-keyed maps

    An ordinary object enumerates its own string keys in a fixed order: the
    keys that are array indices (canonical decimal numerals up to 2^32-2)
    first, in ascending numeric order, then every other key in the order of
    its creation.  An object is kept as the list of its properties in that
    order. *)

Definition Obj (V : Type) : Type := list (string * V).

Definition is_digit (c : ascii) : bool :=
  (48 <=? nat_of_ascii c)%nat && (nat_of_ascii c <=? 57)%nat.

Fixpoint digits_value (acc : N) (s : string) : option N :=
  match s with
  | EmptyString => Some acc
  | String c s' =>
      if is_digit c
      then digits_value (10 * acc + (N_of_ascii c - 48))%N s'
      else None
  end.

(** The numeric value of a key that is an array index. *)
Definition array_index (k : string) : option N :=
  match k with
  | EmptyString => None
  | String c rest =>
      if Ascii.eqb c "0" && negb (String.eqb rest EmptyString) then None
      else match digits_value 0 k with
           | Some n => if (n <? 4294967295)%N then Some n else None
           | None => None
           end
  end.

Section Objects.
Context {V : Type}.

(** [o[k]], [None] standing for [undefined]. *)
Fixpoint obj_get (o : Obj V) (k : string) : option V :=
  match o with
  | [] => None
  | (k', v) :: r => if String.eqb k' k then Some v else obj_get r k
  end.

Definition obj_has (o : Obj V) (k : string) : bool :=
  existsb (fun p => String.eqb (fst p) k) o.

Fixpoint obj_update (o : Obj V) (k : string) (v : V) : Obj V :=
  match o with
  | [] => []
  | (k', v') :: r =>
      if String.eqb k' k then (k', v) :: r else (k', v') :: obj_update r k v
  end.

(** A new array-index key takes its numeric place among the index keys. *)
Fixpoint obj_insert_index (n : N) (k : string) (v : V) (o : Obj V) : Obj V :=
  match o with
  | [] => [(k, v)]
  | (k', v') :: r =>
      match array_index k' with
      | Some m =>
          if (n <? m)%N then (k, v) :: o
          else (k', v') :: obj_insert_index n k v r
      | None => (k, v) :: o
      end
  end.

(** A property defined on the object itself, as an object literal, a
    computed key or [JSON.parse] does. *)
Definition obj_define (o : Obj V) (k : string) (v : V) : Obj V :=
  if obj_has o k then obj_update o k v
  else match array_index k with
       | Some n => obj_insert_index n k v o
       | None => (o ++ [(k, v)])%list
       end.

(** [o[k] = v] on an ordinary object.  The key [__proto__], when the
    object has no property of that name, reaches the setter inherited from
    [Object.prototype], which adds no property. *)
Definition obj_set (o : Obj V) (k : string) (v : V) : Obj V :=
  if obj_has o k then obj_update o k v
  else if String.eqb k "__proto__" then o
  else obj_define o k v.

(** [Object.keys(o)] and [Object.entries(o)] *)
Definition obj_keys (o : Obj V) : list string := map fst o.
Definition obj_entries (o : Obj V) : list (string * V) := o.

(** The object an object literal or a run of assignments builds. *)
Definition obj_of_entries (l : list (string * V)) : Obj V :=
  fold_left (fun o p => obj_define o (fst p) (snd p)) l [].
End Objects.

(** [keys.sort()]: the default comparison orders strings by code units.
    The keys of one object are pairwise distinct, so every sorting
    algorithm returns the same array; insertion sort stands for it. *)
Fixpoint sort_insert (k : string) (l : list string) : list string :=
  match l with
  | [] => [k]
  | h :: t => if String.leb k h then k :: l else h :: sort_insert k t
  end.

Fixpoint sort (l : list string) : list string :=
  match l with
  | [] => []
  | h :: t => sort_insert h (sort t)
  end.

(** The order of the default comparison. *)
Definition key_le (a b : string) : Prop := String.leb a b = true.

(** *** JSON.stringify and the UTF-8 encoder *)

Definition dquote : string := String "034"%char EmptyString.
Definition newline : string := String "010"%char EmptyString.
Definition backslash : string := String "092"%char EmptyString.

Definition hex_digit (n : nat) : ascii :=
  ascii_of_nat (if (n <? 10)%nat then 48 + n else 87 + n).

(** One code unit inside a JSON string literal. *)
Definition json_escape (c : ascii) : string :=
  let n := nat_of_ascii c in
  if (n =? 8)%nat then backslash ++ "b"
  else if (n =? 9)%nat then backslash ++ "t"
  else if (n =? 10)%nat then backslash ++ "n"
  else if (n =? 12)%nat then backslash ++ "f"
  else if (n =? 13)%nat then backslash ++ "r"
  else if (n =? 34)%nat then backslash ++ dquote
  else if (n =? 92)%nat then backslash ++ backslash
  else if (n <? 32)%nat then
    backslash ++ "u00"
      ++ String (hex_digit (n / 16)) (String (hex_digit (n mod 16)) EmptyString)
  else String c EmptyString.

Fixpoint json_escape_all (s : string) : string :=
  match s with
  | EmptyString => EmptyString
  | String c s' => json_escape c ++ json_escape_all s'
  end.

Definition json_quote (s : string) : string := dquote ++ json_escape_all s ++ dquote.

(** The members of an object printed one level down ([indent] is the
    indentation of the members, [outer] that of the closing brace); a
    property holding [undefined] is left out. *)
Definition json_members (indent : string) (o : Obj (option string)) : list string :=
  flat_map (fun p =>
              match snd p with
              | Some v => [indent ++ json_quote (fst p) ++ ": " ++ json_quote v]
              | None => []
              end) o.

Definition json_object (indent outer : string) (o : Obj (option string)) : string :=
  match json_members indent o with
  | [] => "{}"
  | ms => "{" ++ newline ++ join ("," ++ newline) ms ++ newline ++ outer ++ "}"
  end.

(** [JSON.stringify({imports: o}, undefined, 2)] *)
Definition stringify_import_map (o : Obj (option string)) : string :=
  "{" ++ newline ++ "  " ++ json_quote "imports" ++ ": "
      ++ json_object "    " "  " o ++ newline ++ "}".

(** UTF-8 encoding of code units below 256. *)
Definition utf8_unit (c : ascii) : list Byte.byte :=
  let n := nat_of_ascii c in
  if (n <? 128)%nat then [byte_of_ascii c]
  else [byte_of_ascii (ascii_of_nat (192 + n / 64));
        byte_of_ascii (ascii_of_nat (128 + n mod 64))].

Fixpoint utf8_encode (s : string) : list Byte.byte :=
  match s with
  | EmptyString => []
  | String c s' => (utf8_unit c ++ utf8_encode s')%list
  end.

End JS.

(** ** esinstall/src/util.ts *)

Module Util.

(** [parsePackageImportSpecifier(imp)]: the array destructuring
    [[scope, name, ...rest]] reads positions 0 and 1 (either may be
    [undefined]) and keeps the remainder. *)
Definition parsePackageImportSpecifier (imp : string) : string * option string :=
  let impParts := JS.split_slash imp in
  if JS.startsWith "@" imp then
    let scope := nth_error impParts 0 in
    let name := nth_error impParts 1 in
    let rest := skipn 2 impParts in
    (JS.template scope ++ "/" ++ JS.template name, JS.or_null (JS.join "/" rest))
  else
    let name := nth_error impParts 0 in
    let rest := skipn 1 impParts in
    (JS.template name, JS.or_null (JS.join "/" rest)).

(** [ImportMap]: [{imports: {[specifier: string]: string}}] *)
Record ImportMap : Type := { imports : JS.Obj string }.

(** The object [writeLockfile] builds before printing it: the keys of the
    map are sorted and assigned, one by one, to a fresh object. *)
Definition sortedImportMap (importMap : ImportMap) : JS.Obj (option string) :=
  fold_left (fun sorted key => JS.obj_set sorted key (JS.obj_get (imports importMap) key))
            (JS.sort (JS.obj_keys (imports importMap))) [].

(** [writeLockfile(loc, importMap)]: the file written, as (path, bytes). *)
Definition writeLockfile (loc : string) (importMap : ImportMap)
  : string * list Byte.byte :=
  (loc, JS.utf8_encode (JS.stringify_import_map (sortedImportMap importMap))).

(** [addTrailingSlash]: [path.replace(/\/?$/, '/')].  The expression is
    tried at each position from the left; it matches a final ['/'] or, at
    the very end, the empty string. *)
Fixpoint addTrailingSlash (path : string) : string :=
  match path with
  | EmptyString => "/"
  | String c rest =>
      if Ascii.eqb c "/" && String.eqb rest EmptyString then "/"
      else String c (addTrailingSlash rest)
  end.

(** [removeTrailingSlash]: [path.replace(/[/\\]+$/, '')].  The first
    position from which only separators remain starts the match. *)
Fixpoint removeTrailingSlash (path : string) : string :=
  match path with
  | EmptyString => EmptyString
  | String c rest =>
      if JS.all_sep path then EmptyString
      else String c (removeTrailingSlash rest)
  end.

(** [removeLeadingSlash]: [path.replace(/^[/\\]+/, '')] *)
Fixpoint removeLeadingSlash (path : string) : string :=
  match path with
  | EmptyString => EmptyString
  | String c rest => if JS.is_sep c then removeLeadingSlash rest else path
  end.

Inductive AliasType : Type := package | path.

Record AliasEntry : Type :=
  { from : string; to : string; type : AliasType }.

Section Alias.
(** [path.isAbsolute] of the host platform. *)
Variable path_isAbsolute : string -> bool.

Definition isPackageAliasEntry (val : string) : bool :=
  negb (path_isAbsolute val).

(** The guard of [findMatchingAliasEntry]: specifiers that are not bare. *)
Definition not_bare (spec : string) : bool :=
  String.eqb spec "."
  || String.eqb spec ".."
  || JS.startsWith "./" spec
  || JS.startsWith "../" spec
  || JS.startsWith "/" spec
  || JS.startsWith "http://" spec
  || JS.startsWith "https://" spec.

Definition isExactMatch (from spec : string) : bool :=
  String.eqb spec (removeTrailingSlash from).

Definition isDeepMatch (from spec : string) : bool :=
  JS.startsWith (addTrailingSlash from) spec.

(** The loop over [Object.entries(alias)]. *)
Fixpoint findAliasLoop (entries : list (string * string)) (spec : string)
  : option AliasEntry :=
  match entries with
  | [] => None
  | (from, to) :: rest =>
      let foundType := if isPackageAliasEntry to then package else path in
      if isExactMatch from spec || isDeepMatch from spec
      then Some {| from := from; to := to; type := foundType |}
      else findAliasLoop rest spec
  end.

Definition findMatchingAliasEntry (alias : JS.Obj string) (spec : string)
  : option AliasEntry :=
  if not_bare spec then None
  else findAliasLoop (JS.obj_entries alias) spec.
End Alias.

(** *** resolveDependencyManifest

    The file system and the module loader are an environment of functions
    that return a value or throw an [Error]; every call is recorded.  The
    function runs in a state-and-exception monad whose state holds the
    record of calls and the local variable [result]. *)

Record JsError : Type := { code : option string }.

Inductive Call : Type :=
| CallResolve (request : string) (paths : option (list string))
| CallRealpath (p : string)
| CallRequire (p : string)
| CallReadFile (p : string)
| CallParse (text : string).

Section Manifest.
Variable Json : Type.

Record NodeEnv : Type :=
  { path_sep : string;
    dirname_ : string;
    require_resolve : string -> option (list string) -> string + JsError;
    realpathSync_native : string -> string + JsError;
    require_ : string -> Json + JsError;
    readFileSync : string -> string + JsError;
    JSON_parse : string -> Json + JsError }.

Definition Manifest : Type := option string * option Json.

Record St : Type := { calls : list Call; result : Manifest }.

Definition M (A : Type) : Type := St -> (A + JsError) * St.

Definition ret {A} (a : A) : M A := fun s => (inl a, s).

Definition bind {A B} (m : M A) (f : A -> M B) : M B :=
  fun s => match m s with
           | (inl a, s') => f a s'
           | (inr e, s') => (inr e, s')
           end.

(** [try { m } catch (err) { h err }] *)
Definition try_catch {A} (m : M A) (h : JsError -> M A) : M A :=
  fun s => match m s with
           | (inl a, s') => (inl a, s')
           | (inr e, s') => h e s'
           end.

(** [try { m } finally { return k }]: the [return] of the [finally]
    block replaces the completion of [m], whatever it was. *)
Definition finally_return {A B} (m : M A) (k : M B) : M B :=
  fun s => k (snd (m s)).

Definition call {A} (c : Call) (r : A + JsError) : M A :=
  fun s => (r, {| calls := (calls s ++ [c])%list; result := result s |}).

Definition get_result : M Manifest := fun s => (inl (result s), s).

Definition set_result (r : Manifest) : M unit :=
  fun s => (inl tt, {| calls := calls s; result := r |}).

Local Notation "x <- m ;; k" := (bind m (fun x => k))
  (at level 100, m at next level, right associativity).

Variable env : NodeEnv.

(** [const options = {}; if (cwd) options.paths = [cwd, __dirname]] *)
Definition resolve_options (cwd : string) : option (list string) :=
  match cwd with
  | EmptyString => None
  | _ => Some [cwd; dirname_ env]
  end.

(** [resolvePath(dep, cwd)] *)
Definition resolvePath (dep cwd : string) : M string :=
  let options := resolve_options cwd in
  resolved <- call (CallResolve dep options) (require_resolve env dep options) ;;
  call (CallRealpath resolved) (realpathSync_native env resolved).

Definition ERR_PACKAGE_PATH_NOT_EXPORTED : string := "ERR_PACKAGE_PATH_NOT_EXPORTED".

(** [err.code !== 'ERR_PACKAGE_PATH_NOT_EXPORTED'] *)
Definition not_export_error (err : JsError) : bool :=
  match code err with
  | Some c => negb (String.eqb c ERR_PACKAGE_PATH_NOT_EXPORTED)
  | None => true
  end.

(** The [try] block of attempt #1. *)
Definition attempt1_body (dep cwd : string) : M Manifest :=
  depManifest <- resolvePath (dep ++ "/package.json") cwd ;;
  manifest <- call (CallRequire depManifest) (require_ env depManifest) ;;
  ret (Some depManifest, Some manifest).

(** Attempt #1.  [Some v] is [return v]; [None] is falling out of the
    [catch] block to the rest of the function. *)
Definition attempt1 (dep cwd : string) : M (option Manifest) :=
  try_catch
    (v <- attempt1_body dep cwd ;; ret (Some v))
    (fun err =>
       if not_export_error err then ret (Some (None, None)) else ret None).

(** [`${path.sep}node_modules${path.sep}${dep.replace('/', path.sep)}`] *)
Definition searchPath (dep : string) : string :=
  path_sep env ++ "node_modules" ++ path_sep env
    ++ JS.replace_first_slash (path_sep env) dep.

(** [fullPath.substring(0, indexOfSearch + searchPath.length + 1) +
    'package.json'] *)
Definition inferredManifestPath (dep fullPath : string) (indexOfSearch : nat)
  : string :=
  JS.substring0 (indexOfSearch + String.length (searchPath dep) + 1) fullPath
    ++ "package.json".

(** The [try] block of attempt #2. *)
Definition attempt2_body (dep cwd : string) : M unit :=
  fullPath <- resolvePath dep cwd ;;
  match JS.lastIndexOf (searchPath dep) fullPath with
  | Some indexOfSearch =>
      let manifestPath := inferredManifestPath dep fullPath indexOfSearch in
      r <- get_result ;;
      _ <- set_result (Some manifestPath, snd r) ;;
      manifestStr <- call (CallReadFile manifestPath) (readFileSync env manifestPath) ;;
      manifest <- call (CallParse manifestStr) (JSON_parse env manifestStr) ;;
      r <- get_result ;;
      set_result (fst r, Some manifest)
  | None => ret tt
  end.

(** Attempt #2: [let result = [null, null]; try {...} catch {} finally
    { return result }]. *)
Definition attempt2 (dep cwd : string) : M Manifest :=
  _ <- set_result (None, None) ;;
  finally_return
    (try_catch (attempt2_body dep cwd) (fun _ => ret tt))
    get_result.

Definition resolveDependencyManifest (dep cwd : string) : M Manifest :=
  returned <- attempt1 dep cwd ;;
  match returned with
  | Some v => ret v
  | None => attempt2 dep cwd
  end.

Definition initial : St := {| calls := []; result := (None, None) |}.

(** One call of the function: its completion and the calls it made. *)
Definition run_resolveDependencyManifest (dep cwd : string)
  : (Manifest + JsError) * list Call :=
  let r := resolveDependencyManifest dep cwd initial in
  (fst r, calls (snd r)).
End Manifest.

Arguments path_sep {Json} _.
Arguments dirname_ {Json} _.
Arguments require_resolve {Json} _ _ _.
Arguments realpathSync_native {Json} _ _.
Arguments require_ {Json} _ _.
Arguments readFileSync {Json} _ _.
Arguments JSON_parse {Json} _ _.
Arguments calls {Json} _.
Arguments result {Json} _.
Arguments ret {Json A} _ _.
Arguments bind {Json A B} _ _ _.
Arguments try_catch {Json A} _ _ _.
Arguments finally_return {Json A B} _ _ _.
Arguments call {Json A} _ _ _.
Arguments get_result {Json} _.
Arguments set_result {Json} _ _.
Arguments resolve_options {Json} _ _.
Arguments resolvePath {Json} _ _ _ _.
Arguments attempt1_body {Json} _ _ _ _.
Arguments attempt1 {Json} _ _ _ _.
Arguments searchPath {Json} _ _.
Arguments inferredManifestPath {Json} _ _ _ _.
Arguments attempt2_body {Json} _ _ _ _.
Arguments attempt2 {Json} _ _ _ _.
Arguments resolveDependencyManifest {Json} _ _ _ _.
Arguments run_resolveDependencyManifest {Json} _ _ _.

(** *** The remaining helpers of util.ts *)


Definition is_j (c : ascii) : bool := Ascii.eqb c "j" || Ascii.eqb c "J".
Definition is_s (c : ascii) : bool := Ascii.eqb c "s" || Ascii.eqb c "S".
Definition is_m (c : ascii) : bool := Ascii.eqb c "m" || Ascii.eqb c "M".

(** [/\.js$/i] matches at a position when what remains there is a dot, a
    [j] and an [s], of either case. *)
Definition matches_dot_js (s : string) : bool :=
  match s with
  | String d (String j (String e EmptyString)) =>
      Ascii.eqb d "." && is_j j && is_s e
  | _ => false
  end.

(** [/\.m?js$/i] *)
Definition matches_dot_mjs (s : string) : bool :=
  matches_dot_js s
  || match s with
     | String d (String m (String j (String e EmptyString))) =>
         Ascii.eqb d "." && is_m m && is_j j && is_s e
     | _ => false
     end.

(** [s.replace(/\.js$/i, by)] *)
Fixpoint replace_js_suffix (by_ : string) (s : string) : string :=
  if matches_dot_js s then by_
  else match s with
       | EmptyString => EmptyString
       | String c rest => String c (replace_js_suffix by_ rest)
       end.

(** [s.replace(/\.m?js$/i, by)] *)
Fixpoint replace_mjs_suffix (by_ : string) (s : string) : string :=
  if matches_dot_mjs s then by_
  else match s with
       | EmptyString => EmptyString
       | String c rest => String c (replace_mjs_suffix by_ rest)
       end.

(** [sanitizePackageName(filepath)]: [dirs.pop()] takes the last segment
    away from [dirs]. *)
Definition sanitizePackageName (filepath : string) : string :=
  let parts := JS.split_slash filepath in
  let file := List.last parts EmptyString in
  let dirs := List.removelast parts in
  JS.join "/" (map (replace_js_suffix "js") dirs ++ [file])%list.

Section WebDependencyName.
(** [validatePackageName(dep).validForNewPackages] *)
Variable validForNewPackages : string -> bool.

Definition getWebDependencyName (dep : string) : string :=
  if validForNewPackages dep
  then replace_js_suffix "js" dep
  else replace_mjs_suffix EmptyString dep.
End WebDependencyName.

(** [s.replace(/[^.]+/, '')]: the first run of characters other than a
    dot is taken out. *)
Fixpoint skip_non_dots (s : string) : string :=
  match s with
  | EmptyString => EmptyString
  | String c rest => if Ascii.eqb c "." then s else skip_non_dots rest
  end.

Fixpoint remove_first_name (s : string) : string :=
  match s with
  | EmptyString => EmptyString
  | String c rest =>
      if Ascii.eqb c "." then String c (remove_first_name rest)
      else skip_non_dots rest
  end.

Record Ext : Type := { baseExt : string; expandedExt : string }.

Section GetExt.
(** [path.extname] and [path.basename] of the host platform, and
    [toLocaleLowerCase] of the host locale. *)
Variable path_extname : string -> string.
Variable path_basename : string -> string.
Variable toLocaleLowerCase : string -> string.

Definition getExt (fileName : string) : Ext :=
  {| baseExt := toLocaleLowerCase (path_extname fileName);
     expandedExt := toLocaleLowerCase (remove_first_name (path_basename fileName)) |}.
End GetExt.

(** No ['.'] occurs in [s]. *)
Fixpoint no_dot (s : string) : bool :=
  match s with
  | EmptyString => true
  | String c s' => negb (Ascii.eqb c ".") && no_dot s'
  end.

End Util.

(** ** packages/snowpack/src/commands/build.ts *)

Module Build.

(** The functions of Node's [path] module the build uses, for the host
    platform, and [url.parse(u).protocol]. *)
Record PathModule : Type :=
  { extname : string -> string;
    normalize : string -> string;
    resolve : string -> string -> string;
    dirname : string -> string;
    relative : string -> string -> string;
    url_protocol : string -> option string }.

(** [path.posix.isAbsolute(p)] is the same on every platform. *)
Definition posix_isAbsolute (p : string) : bool := JS.startsWith "/" p.

(** Truthiness of a string or of [string | null]. *)
Definition truthy (s : string) : bool := negb (String.eqb s EmptyString).

Definition truthy_opt (o : option string) : bool :=
  match o with
  | Some s => truthy s
  | None => false
  end.

(** [set.add(x)] on a [Set<string>], kept in insertion order. *)
Definition set_add (x : string) (set : list string) : list string :=
  if existsb (String.eqb x) set then set else (set ++ [x])%list.

(** [!resolvedImportUrl || url.parse(resolvedImportUrl).protocol] *)
Definition passes_through (P : PathModule) (resolved : option string) : bool :=
  match resolved with
  | None => true
  | Some url0 => negb (truthy url0) || truthy_opt (url_protocol P url0)
  end.

Section Rewrite.
Variable P : PathModule.
(** [removeLeadingSlash], imported from the configuration module. *)
Variable removeLeadingSlash : string -> string.
(** The resolver [createImportResolver] returns for the file at hand:
    a URL or [false]. *)
Variable resolveImportSpecifier : string -> option string.
Variables buildDirectoryLoc outLoc : string.

Definition proxy_suffix : string := ".proxy.js".

(** [const isProxyImport = extName && extName !== '.js'] *)
Definition isProxyImport (resolvedImportUrl : string) : bool :=
  let extName := extname P resolvedImportUrl in
  truthy extName && negb (String.eqb extName ".js").

(** The callback [command] hands to [transformFileImports]: the
    specifier to emit and the set [allImportProxyFiles] afterwards. *)
Definition rewriteSpecifier (spec : string) (allImportProxyFiles : list string)
  : string * list string :=
  match resolveImportSpecifier spec with
  | None => (spec, allImportProxyFiles)
  | Some url0 =>
      if negb (truthy url0) || truthy_opt (url_protocol P url0)
      then (spec, allImportProxyFiles)
      else
        let proxied := isProxyImport url0 in
        let resolvedImportUrl := if proxied then url0 ++ proxy_suffix else url0 in
        let isAbsoluteUrlPath := posix_isAbsolute resolvedImportUrl in
        let resolvedImportPath := removeLeadingSlash (normalize P resolvedImportUrl) in
        let proxyFiles :=
          if proxied then
            if isAbsoluteUrlPath
            then set_add (resolve P buildDirectoryLoc resolvedImportPath)
                         allImportProxyFiles
            else set_add (resolve P (dirname P outLoc) resolvedImportPath)
                         allImportProxyFiles
          else allImportProxyFiles in
        if isAbsoluteUrlPath then
          (JS.backslashes_to_slashes
             (relative P (dirname P outLoc)
                       (resolve P buildDirectoryLoc resolvedImportPath)),
           proxyFiles)
        else if negb (JS.startsWith "." resolvedImportUrl)
                && negb (JS.startsWith "/" resolvedImportUrl)
        then ("./" ++ resolvedImportUrl, proxyFiles)
        else (resolvedImportUrl, proxyFiles)
  end.

(** Two parts of the callback, named: where a resolved URL lives in the
    output tree, and the specifier emitted for it. *)
Definition onDisk (resolvedImportUrl : string) : string :=
  resolve P
    (if posix_isAbsolute resolvedImportUrl then buildDirectoryLoc
     else dirname P outLoc)
    (removeLeadingSlash (normalize P resolvedImportUrl)).

Definition emitted (resolvedImportUrl : string) : string :=
  if posix_isAbsolute resolvedImportUrl then
    JS.backslashes_to_slashes
      (relative P (dirname P outLoc) (onDisk resolvedImportUrl))
  else if JS.startsWith "." resolvedImportUrl then resolvedImportUrl
  else "./" ++ resolvedImportUrl.
End Rewrite.

(** *** The build command

    [command] from the point where the files to build are known
    ([includeFileSets]) to its end.  What it does to the outside world is
    recorded as a trace of events; it completes normally, by
    [process.exit], or by an exception. *)

Record SourceFile : Type :=
  { baseExt : string; expandedExt : string; contents : string; locOnDisk : string }.

Record InstallResult : Type :=
  { success : bool; hasError : bool; importMap : Util.ImportMap;
    stats : option string }.

Inductive Event : Type :=
| EvBuildFile (loc : string)
| EvWriteFile (loc code : string)
| EvStopEsbuild
| EvScanInstallTargets
| EvInstallRun
| EvInstallReturned (result : InstallResult)
| EvPrintStats
| EvExit (status : Z)
| EvResolveSpecifier (loc spec : string) (map : Util.ImportMap)
| EvWriteRewritten (loc code : string)
| EvReadFile (loc : string)
| EvWriteProxy (loc code : string)
| EvOptimize
| EvMinify (loc : string).

Inductive Completion (A : Type) : Type :=
| Normal (a : A)
| Exit (status : Z)
| Throw (e : Util.JsError).
Arguments Normal {A} a.
Arguments Exit {A} status.
Arguments Throw {A} e.

(** The events of import rewriting and of proxy-file writing. *)
Definition is_rewrite_event (ev : Event) : bool :=
  match ev with
  | EvResolveSpecifier _ _ _ | EvWriteRewritten _ _ => true
  | _ => false
  end.

Definition is_proxy_event (ev : Event) : bool :=
  match ev with
  | EvReadFile _ | EvWriteProxy _ _ => true
  | _ => false
  end.

(** The installer reports failure: [!success || hasError]. *)
Definition install_failed (r : InstallResult) : bool :=
  negb (success r) || hasError r.

Definition Proc (A : Type) : Type := Completion A * list Event.

Definition pure {A} (a : A) : Proc A := (Normal a, []).

Definition emit (e : Event) : Proc unit := (Normal tt, [e]).

Definition then_ {A B} (m : Proc A) (f : A -> Proc B) : Proc B :=
  match m with
  | (Normal a, t) => let (c, t') := f a in (c, (t ++ t')%list)
  | (Exit n, t) => (Exit n, t)
  | (Throw e, t) => (Throw e, t)
  end.

(** [process.exit(status)] *)
Definition process_exit {A} (status : Z) : Proc A := (Exit status, [EvExit status]).

Definition of_result {A} (r : A + Util.JsError) : Proc A :=
  match r with
  | inl a => pure a
  | inr e => (Throw e, [])
  end.

(** A computation that completes normally with events that all satisfy
    [Q]. *)
Definition normal_with {A} (Q : Event -> Prop) (m : Proc A) : Prop :=
  (exists a, fst m = Normal a) /\ Forall Q (snd m).

(** Events that occur before the installer has returned. *)
Definition before_install (ev : Event) : Prop :=
  is_rewrite_event ev = false /\ is_proxy_event ev = false
  /\ (forall r, ev <> EvInstallReturned r)
  /\ (forall n, ev <> EvExit n).

(** Events that occur after the installer returned [r]. *)
Definition after_install (r : InstallResult) (ev : Event) : Prop :=
  (forall r', ev <> EvInstallReturned r')
  /\ (forall loc spec map, ev = EvResolveSpecifier loc spec map ->
                           map = importMap r).

(** What printing the statistics of an install adds to the trace. *)
Definition stats_events (r : InstallResult) : list Event :=
  match stats r with
  | Some _ => [EvPrintStats]
  | None => []
  end.

(** [for (const x of l) { state = body(state, x) }] *)
Fixpoint for_of {A S} (l : list A) (body : S -> A -> Proc S) (s : S) : Proc S :=
  match l with
  | [] => pure s
  | x :: r => then_ (body s x) (for_of r body)
  end.

Section Command.
Variable P : PathModule.
Variable removeLeadingSlash : string -> string.
Variable InstallTargets : Type.

(** The collaborators of [command]:
    - [includeFileSets], the triples (dirDisk, dirDest, files) found under
      the mounted directories;
    - [buildFile loc], the object [buildFile] returns for a source file,
      from output extension to code (an empty code is falsy);
    - [outLocOf dirDisk dirDest loc fileExt], the output path [outLoc];
    - [wrapJs] and [wrapHtmlResponse], what is done to the code of a [.js]
      and of a [.html] output before it is written;
    - [getInstallTargets] and [installRunner], the scan and the run of the
      installer;
    - [createImportResolver fileLoc importMap], the resolver of a file;
    - [specifiersOf] and [replaceSpecifiers]: [transformFileImports] calls
      its callback once for each import specifier of the file, in order,
      and builds the new contents from the answers;
    - [readFile], [wrapImportProxy], and for the last step [minify] and the
      files [allJsFiles] it finds. *)
Variable buildDirectoryLoc : string.
Variable includeFileSets : list (string * string * list string).
Variable buildFile : string -> JS.Obj string.
Variable outLocOf : string -> string -> string -> string -> string.
Variable wrapJs : string -> JS.Obj string -> string -> string.
Variable wrapHtmlResponse : string -> string.
Variable getInstallTargets : list SourceFile -> InstallTargets.
Variable installRunner : InstallTargets -> InstallResult + Util.JsError.
Variable createImportResolver : string -> Util.ImportMap -> string -> option string.
Variable specifiersOf : SourceFile -> list string.
Variable replaceSpecifiers : SourceFile -> list string -> string.
Variable readFile : string -> string + Util.JsError.
Variable wrapImportProxy : string -> string -> string.
Variable minify : bool.
Variable allJsFiles : list string.

Local Notation "x <- m ;; k" := (then_ m (fun x => k))
  (at level 100, m at next level, right associativity).

Definition Files : Type := JS.Obj SourceFile.

(** The body of the loop over [Object.entries(builtFileOutput)]. *)
Definition buildOutput (dirDisk dirDest loc : string) (builtFileOutput : JS.Obj string)
           (files : Files) (entry : string * string) : Proc Files :=
  let (fileExt, code) := entry in
  if negb (truthy code) then pure files
  else
    let outLoc := outLocOf dirDisk dirDest loc fileExt in
    let (code', files') :=
      if String.eqb fileExt ".js" then
        let c := wrapJs loc builtFileOutput code in
        (c, JS.obj_set files outLoc
              {| baseExt := fileExt; expandedExt := fileExt; contents := c;
                 locOnDisk := loc |})
      else if String.eqb fileExt ".html" then
        let c := wrapHtmlResponse code in
        (c, JS.obj_set files outLoc
              {| baseExt := fileExt; expandedExt := fileExt; contents := c;
                 locOnDisk := loc |})
      else (code, files) in
    _ <- emit (EvWriteFile outLoc code') ;;
    pure files'.

(** The body of the loop over [includeFileSets]. *)
Definition buildSource (files : Files) (set : string * string * list string)
  : Proc Files :=
  let '(dirDisk, dirDest, allFiles) := set in
  for_of allFiles
    (fun files loc =>
       _ <- emit (EvBuildFile loc) ;;
       let builtFileOutput := buildFile loc in
       for_of (JS.obj_entries builtFileOutput)
              (buildOutput dirDisk dirDest loc builtFileOutput) files)
    files.

(** [installOptimizedDependencies] *)
Definition installOptimizedDependencies (files : Files) : Proc InstallResult :=
  _ <- emit EvScanInstallTargets ;;
  let installTargets := getInstallTargets (map snd (JS.obj_entries files)) in
  _ <- emit EvInstallRun ;;
  installResult <- of_result (installRunner installTargets) ;;
  _ <- emit (EvInstallReturned installResult) ;;
  _ <- match stats installResult with
       | Some _ => emit EvPrintStats
       | None => pure tt
       end ;;
  pure installResult.

(** One file of the rewriting loop; the state is [allImportProxyFiles]. *)
Definition rewriteFile (installResult : InstallResult)
           (allImportProxyFiles : list string) (entry : string * SourceFile)
  : Proc (list string) :=
  let (outLoc, file) := entry in
  let resolveImportSpecifier :=
    createImportResolver (locOnDisk file) (importMap installResult) in
  r <- for_of (specifiersOf file)
         (fun (st : list string * list string) spec =>
            let (emitted, proxies) := st in
            _ <- emit (EvResolveSpecifier outLoc spec (importMap installResult)) ;;
            let (spec', proxies') :=
              rewriteSpecifier P removeLeadingSlash resolveImportSpecifier
                               buildDirectoryLoc outLoc spec proxies in
            pure ((emitted ++ [spec'])%list, proxies'))
         ([], allImportProxyFiles) ;;
  _ <- emit (EvWriteRewritten outLoc (replaceSpecifiers file (fst r))) ;;
  pure (snd r).

(** The body of the loop over [allImportProxyFiles]. *)
Definition writeProxy (_ : unit) (importProxyFileLoc : string) : Proc unit :=
  let originalFileLoc := JS.replace_first ".proxy.js" EmptyString importProxyFileLoc in
  _ <- emit (EvReadFile originalFileLoc) ;;
  proxiedCode <- of_result (readFile originalFileLoc) ;;
  let proxiedUrl :=
    JS.backslashes_to_slashes
      (JS.drop (String.length buildDirectoryLoc) originalFileLoc) in
  emit (EvWriteProxy importProxyFileLoc (wrapImportProxy proxiedUrl proxiedCode)).

(** [command], from [const allBuiltFromFiles = new Set()] on. *)
Definition command : Proc unit :=
  allFilesToResolveImports <- for_of includeFileSets buildSource [] ;;
  _ <- emit EvStopEsbuild ;;
  installResult <- installOptimizedDependencies allFilesToResolveImports ;;
  _ <- (if install_failed installResult then process_exit 1 else pure tt) ;;
  allImportProxyFiles <-
    for_of (JS.obj_entries allFilesToResolveImports) (rewriteFile installResult) [] ;;
  _ <- for_of allImportProxyFiles writeProxy tt ;;
  _ <- emit EvOptimize ;;
  if minify then for_of allJsFiles (fun _ f => emit (EvMinify f)) tt
  else pure tt.
End Command.

(** The proxy files written and the output files rewritten in a trace, in
    the order of the writes. *)
Definition proxy_writes (t : list Event) : list string :=
  flat_map (fun ev => match ev with
                      | EvWriteProxy loc _ => [loc]
                      | _ => []
                      end) t.

Definition rewritten (t : list Event) : list string :=
  flat_map (fun ev => match ev with
                      | EvWriteRewritten loc _ => [loc]
                      | _ => []
                      end) t.

(** What holds of an entry of [allFilesToResolveImports] after a trace:
    the file has the same base and expanded extension, [.js] or [.html];
    its source was built and its contents were written at its place. *)
Definition output_registered (t : list Event) (entry : string * SourceFile) : Prop :=
  baseExt (snd entry) = expandedExt (snd entry)
  /\ (baseExt (snd entry) = ".js" \/ baseExt (snd entry) = ".html")
  /\ In (EvBuildFile (locOnDisk (snd entry))) t
  /\ In (EvWriteFile (fst entry) (contents (snd entry))) t.

(** The events of the build phase, and those of the last two steps. *)
Definition is_build_event (ev : Event) : bool :=
  match ev with
  | EvBuildFile _ | EvWriteFile _ _ => true
  | _ => false
  end.

Definition is_final_event (ev : Event) : bool :=
  match ev with
  | EvOptimize | EvMinify _ => true
  | _ => false
  end.

End Build.

(** ** The build command and the failures of its collaborators

    In [Build.command] the plug-in pipeline, the file system,
    [url.parse], [transformFileImports] and the minifier return.  Here
    each of their calls returns or throws, and an exception leaves
    [command] at the call: no call of [command] stands in a [try].  The
    events are those of [Build]; an event records that a call was made,
    and the events of what follows are there only if the call returned.
    The state of the loops is lost with an exception, as nothing reads it
    afterwards. *)

Module BuildIO.

(** A call made for its effect: it returns, [None], or throws. *)
Definition check (r : option Util.JsError) : Build.Proc unit :=
  match r with
  | None => Build.pure tt
  | Some e => (Build.Throw e, [])
  end.

Section Rewrite.
Variable P : Build.PathModule.
Variable removeLeadingSlash : string -> string.
(** [url.parse(u)] throws on some strings, [Some e]; where it returns,
    the protocol of its result is [Build.url_protocol P u]. *)
Variable url_parse_error : string -> option Util.JsError.
Variable resolveImportSpecifier : string -> option string.
Variables buildDirectoryLoc outLoc : string.

(** [url.parse(u).protocol] *)
Definition url_parse_protocol (u : string) : option string + Util.JsError :=
  match url_parse_error u with
  | Some e => inr e
  | None => inl (Build.url_protocol P u)
  end.

(** The callback [command] hands to [transformFileImports]: the
    specifier to emit and the set [allImportProxyFiles] afterwards, or the
    exception of [url.parse], which is called when the resolver gave a
    non-empty string.  Past the first test the callback goes on as
    [Build.rewriteSpecifier] does. *)
Definition callback (spec : string) (allImportProxyFiles : list string)
  : (string * list string) + Util.JsError :=
  match resolveImportSpecifier spec with
  | None => inl (spec, allImportProxyFiles)
  | Some url0 =>
      if negb (Build.truthy url0) then inl (spec, allImportProxyFiles)
      else
        match url_parse_protocol url0 with
        | inr e => inr e
        | inl protocol =>
            if Build.truthy_opt protocol then inl (spec, allImportProxyFiles)
            else inl (Build.rewriteSpecifier P removeLeadingSlash
                        resolveImportSpecifier buildDirectoryLoc outLoc
                        spec allImportProxyFiles)
        end
  end.
End Rewrite.

Section Command.
Variable P : Build.PathModule.
Variable removeLeadingSlash : string -> string.
Variable InstallTargets : Type.

(** The collaborators of [command], as in [Build.command], with their
    failures:
    - [newRegExp source]: [new RegExp(source)] throws on a source that is
      no pattern; the pattern itself is used in [outLocOf] only;
    - [buildFile loc] returns the outputs of a source file or throws;
    - [outDirOf dirDisk dirDest loc] is the directory [outDir] of the
      outputs of a file, which [mkdirp] makes, and [writeFile] writes an
      output;
    - [getInstallTargets] and [installRunner] return or throw;
    - [url_parse_error], as above;
    - [transformFileImports] calls its callback on [specifiersOf file],
      in order, as long as the callback returns, and then resolves with
      the new contents, [replaceSpecifiers], or is rejected,
      [transformError] (a file it cannot scan has no specifier); an
      exception of the callback leaves it;
    - [mkdir] and [writeRewritten] are [fs.mkdir] and [fs.writeFile] of
      the rewriting loop;
    - [readFile], [wrapImportProxy] and [writeProxyFile] are the three
      calls of the proxy loop;
    - [runPipelineOptimizeStep] and [startService] return or throw, and
      [minifyAll files] is what comes of [Promise.all] over the files to
      minify, every one of which has been started by then. *)
Variable buildDirectoryLoc : string.
Variable includeFileSets : list (string * string * list string).
Variable newRegExp : string -> option Util.JsError.
Variable buildFile : string -> JS.Obj string + Util.JsError.
Variable outLocOf : string -> string -> string -> string -> string.
Variable outDirOf : string -> string -> string -> string.
Variable wrapJs : string -> JS.Obj string -> string -> string.
Variable wrapHtmlResponse : string -> string.
Variable mkdirp : string -> option Util.JsError.
Variable writeFile : string -> string -> option Util.JsError.
Variable getInstallTargets : list Build.SourceFile -> InstallTargets + Util.JsError.
Variable installRunner : InstallTargets -> Build.InstallResult + Util.JsError.
Variable createImportResolver : string -> Util.ImportMap -> string -> option string.
Variable url_parse_error : string -> option Util.JsError.
Variable specifiersOf : Build.SourceFile -> list string.
Variable transformError : Build.SourceFile -> option Util.JsError.
Variable replaceSpecifiers : Build.SourceFile -> list string -> string.
Variable mkdir : string -> option Util.JsError.
Variable writeRewritten : string -> string -> option Util.JsError.
Variable readFile : string -> string + Util.JsError.
Variable wrapImportProxy : string -> string -> string + Util.JsError.
Variable writeProxyFile : string -> string -> option Util.JsError.
Variable runPipelineOptimizeStep : option Util.JsError.
Variable minify : bool.
Variable startService : option Util.JsError.
Variable allJsFiles : list string.
Variable minifyAll : list string -> option Util.JsError.

Local Notation "x <- m ;; k" := (Build.then_ m (fun x => k))
  (at level 100, m at next level, right associativity).

(** The body of the loop over [Object.entries(builtFileOutput)]. *)
Definition buildOutput (dirDisk dirDest loc : string) (builtFileOutput : JS.Obj string)
           (files : Build.Files) (entry : string * string) : Build.Proc Build.Files :=
  let (fileExt, code) := entry in
  if negb (Build.truthy code) then Build.pure files
  else
    let outLoc := outLocOf dirDisk dirDest loc fileExt in
    let (code', files') :=
      if String.eqb fileExt ".js" then
        let c := wrapJs loc builtFileOutput code in
        (c, JS.obj_set files outLoc
              {| Build.baseExt := fileExt; Build.expandedExt := fileExt;
                 Build.contents := c; Build.locOnDisk := loc |})
      else if String.eqb fileExt ".html" then
        let c := wrapHtmlResponse code in
        (c, JS.obj_set files outLoc
              {| Build.baseExt := fileExt; Build.expandedExt := fileExt;
                 Build.contents := c; Build.locOnDisk := loc |})
      else (code, files) in
    _ <- check (mkdirp (outDirOf dirDisk dirDest loc)) ;;
    _ <- Build.emit (Build.EvWriteFile outLoc code') ;;
    _ <- check (writeFile outLoc code') ;;
    Build.pure files'.

(** The body of the loop over [includeFileSets]. *)
Definition buildSource (files : Build.Files) (set : string * string * list string)
  : Build.Proc Build.Files :=
  let '(dirDisk, dirDest, allFiles) := set in
  Build.for_of allFiles
    (fun files loc =>
       _ <- check (newRegExp (Build.extname P loc ++ "$")) ;;
       _ <- Build.emit (Build.EvBuildFile loc) ;;
       builtFileOutput <- Build.of_result (buildFile loc) ;;
       Build.for_of (JS.obj_entries builtFileOutput)
                    (buildOutput dirDisk dirDest loc builtFileOutput) files)
    files.

(** [installOptimizedDependencies] *)
Definition installOptimizedDependencies (files : Build.Files)
  : Build.Proc Build.InstallResult :=
  _ <- Build.emit Build.EvScanInstallTargets ;;
  installTargets <- Build.of_result
                      (getInstallTargets (map snd (JS.obj_entries files))) ;;
  _ <- Build.emit Build.EvInstallRun ;;
  installResult <- Build.of_result (installRunner installTargets) ;;
  _ <- Build.emit (Build.EvInstallReturned installResult) ;;
  _ <- match Build.stats installResult with
       | Some _ => Build.emit Build.EvPrintStats
       | None => Build.pure tt
       end ;;
  Build.pure installResult.

(** One file of the rewriting loop; the state is [allImportProxyFiles]. *)
Definition rewriteFile (installResult : Build.InstallResult)
           (allImportProxyFiles : list string) (entry : string * Build.SourceFile)
  : Build.Proc (list string) :=
  let (outLoc, file) := entry in
  let resolveImportSpecifier :=
    createImportResolver (Build.locOnDisk file) (Build.importMap installResult) in
  r <- Build.for_of (specifiersOf file)
         (fun (st : list string * list string) spec =>
            let (emitted, proxies) := st in
            _ <- Build.emit (Build.EvResolveSpecifier outLoc spec
                               (Build.importMap installResult)) ;;
            answer <- Build.of_result
                        (callback P removeLeadingSlash url_parse_error
                           resolveImportSpecifier buildDirectoryLoc outLoc
                           spec proxies) ;;
            Build.pure ((emitted ++ [fst answer])%list, snd answer))
         ([], allImportProxyFiles) ;;
  _ <- check (transformError file) ;;
  let resolvedCode := replaceSpecifiers file (fst r) in
  _ <- check (mkdir (Build.dirname P outLoc)) ;;
  _ <- Build.emit (Build.EvWriteRewritten outLoc resolvedCode) ;;
  _ <- check (writeRewritten outLoc resolvedCode) ;;
  Build.pure (snd r).

(** The body of the loop over [allImportProxyFiles]. *)
Definition writeProxy (_ : unit) (importProxyFileLoc : string) : Build.Proc unit :=
  let originalFileLoc := JS.replace_first ".proxy.js" EmptyString importProxyFileLoc in
  _ <- Build.emit (Build.EvReadFile originalFileLoc) ;;
  proxiedCode <- Build.of_result (readFile originalFileLoc) ;;
  let proxiedUrl :=
    JS.backslashes_to_slashes
      (JS.drop (String.length buildDirectoryLoc) originalFileLoc) in
  proxyCode <- Build.of_result (wrapImportProxy proxiedUrl proxiedCode) ;;
  _ <- Build.emit (Build.EvWriteProxy importProxyFileLoc proxyCode) ;;
  check (writeProxyFile importProxyFileLoc proxyCode).

(** The build phase, and what follows a successful install. *)
Definition built : Build.Proc Build.Files :=
  Build.for_of includeFileSets buildSource [].

Definition finish (installResult : Build.InstallResult) (files : Build.Files)
  : Build.Proc unit :=
  allImportProxyFiles <-
    Build.for_of (JS.obj_entries files) (rewriteFile installResult) [] ;;
  _ <- Build.for_of allImportProxyFiles writeProxy tt ;;
  _ <- Build.emit Build.EvOptimize ;;
  _ <- check runPipelineOptimizeStep ;;
  if minify then
    _ <- check startService ;;
    _ <- Build.for_of allJsFiles (fun _ f => Build.emit (Build.EvMinify f)) tt ;;
    check (minifyAll allJsFiles)
  else Build.pure tt.

(** [command], from [const allBuiltFromFiles = new Set()] on. *)
Definition command : Build.Proc unit :=
  allFilesToResolveImports <- built ;;
  _ <- Build.emit Build.EvStopEsbuild ;;
  installResult <- installOptimizedDependencies allFilesToResolveImports ;;
  _ <- (if Build.install_failed installResult then Build.process_exit 1
        else Build.pure tt) ;;
  finish installResult allFilesToResolveImports.
End Command.

End BuildIO.

(** ** Node's POSIX [path] functions

    The behaviour of [path.extname], [path.normalize], [path.resolve],
    [path.relative] and [path.dirname] on a POSIX host whose working
    directory is [cwd], written after Node's implementation, to run the
    build on concrete paths. *)

Module Posix.

Definition is_slash (c : ascii) : bool := Ascii.eqb c "/".

(** [normalizeString]: the segments that remain, innermost first. *)
Fixpoint normalize_segments (allowAboveRoot : bool) (stack segs : list string)
  : list string :=
  match segs with
  | [] => stack
  | seg :: rest =>
      if String.eqb seg EmptyString || String.eqb seg "." then
        normalize_segments allowAboveRoot stack rest
      else if String.eqb seg ".." then
        match stack with
        | top :: below =>
            if String.eqb top ".."
            then normalize_segments allowAboveRoot (".." :: stack) rest
            else normalize_segments allowAboveRoot below rest
        | [] =>
            normalize_segments allowAboveRoot
              (if allowAboveRoot then [".."] else []) rest
        end
      else normalize_segments allowAboveRoot (seg :: stack) rest
  end.

Definition normalizeString (p : string) (allowAboveRoot : bool) : string :=
  JS.join "/" (rev (normalize_segments allowAboveRoot [] (JS.split_slash p))).

Definition isAbsolute (p : string) : bool := JS.startsWith "/" p.

Definition normalize (p : string) : string :=
  match p with
  | EmptyString => "."
  | _ =>
      let isAbs := isAbsolute p in
      let trailingSeparator := JS.endsWith_slash p in
      let q := normalizeString p (negb isAbs) in
      match q with
      | EmptyString => if isAbs then "/" else if trailingSeparator then "./" else "."
      | _ =>
          let q' := if trailingSeparator then q ++ "/" else q in
          if isAbs then "/" ++ q' else q'
      end
  end.

(** [path.resolve(a, b)]: the arguments are read from the right until an
    absolute one is met; the working directory comes last. *)
Definition resolve_args (cwd : string) (args : list string) : string :=
  let step (acc : string * bool) (p : string) : string * bool :=
    let (resolvedPath, resolvedAbsolute) := acc in
    if resolvedAbsolute then acc
    else match p with
         | EmptyString => acc
         | _ => (p ++ "/" ++ resolvedPath, isAbsolute p)
         end in
  let (resolvedPath, resolvedAbsolute) :=
    fold_left step (rev args ++ [cwd])%list (EmptyString, false) in
  let q := normalizeString resolvedPath (negb resolvedAbsolute) in
  if resolvedAbsolute then "/" ++ q
  else match q with EmptyString => "." | _ => q end.

Definition resolve (cwd a b : string) : string := resolve_args cwd [a; b].

Fixpoint strip_common (xs ys : list string) : list string * list string :=
  match xs, ys with
  | x :: xs', y :: ys' =>
      if String.eqb x y then strip_common xs' ys' else (xs, ys)
  | _, _ => (xs, ys)
  end.

Definition path_segments (p : string) : list string :=
  filter (fun seg => negb (String.eqb seg EmptyString)) (JS.split_slash p).

(** [path.relative(from, to)]: both ends are resolved, the common leading
    directories dropped, and one [..] climbs out of each directory left in
    [from]. *)
Definition relative (cwd from to : string) : string :=
  if String.eqb from to then EmptyString
  else
    let from' := resolve_args cwd [from] in
    let to' := resolve_args cwd [to] in
    if String.eqb from' to' then EmptyString
    else
      let (fs, ts) := strip_common (path_segments from') (path_segments to') in
      JS.join "/" (map (fun _ => "..") fs ++ ts)%list.

Fixpoint drop_while {A} (f : A -> bool) (l : list A) : list A :=
  match l with
  | [] => []
  | x :: r => if f x then drop_while f r else l
  end.

(** [path.dirname(p)]: the scan from the right stops before position 0. *)
Definition dirname (p : string) : string :=
  match p with
  | EmptyString => "."
  | String c0 rest =>
      let hasRoot := is_slash c0 in
      let scanned := rev (list_ascii_of_string rest) in
      let component := drop_while is_slash scanned in
      match drop_while (fun c => negb (is_slash c)) component with
      | [] => if hasRoot then "/" else "."
      | _ :: before =>
          match before with
          | [] => if hasRoot then "//" else String c0 EmptyString
          | _ => String c0 (string_of_list_ascii (rev before))
          end
      end
  end.

(** The loop variables of [path.extname]. *)
Record ExtState : Type :=
  { startDot : Z; startPart : Z; end_ : Z; matchedSlash : bool; preDotState : Z }.

Fixpoint extname_loop (cs : list (Z * ascii)) (st : ExtState) : ExtState :=
  match cs with
  | [] => st
  | (i, c) :: r =>
      if is_slash c then
        if negb (matchedSlash st)
        then {| startDot := startDot st; startPart := i + 1; end_ := end_ st;
                matchedSlash := matchedSlash st; preDotState := preDotState st |}
        else extname_loop r st
      else
        let st1 :=
          if (end_ st =? -1)%Z
          then {| startDot := startDot st; startPart := startPart st; end_ := i + 1;
                  matchedSlash := false; preDotState := preDotState st |}
          else st in
        let st2 :=
          if Ascii.eqb c "." then
            if (startDot st1 =? -1)%Z
            then {| startDot := i; startPart := startPart st1; end_ := end_ st1;
                    matchedSlash := matchedSlash st1; preDotState := preDotState st1 |}
            else if negb (preDotState st1 =? 1)%Z
            then {| startDot := startDot st1; startPart := startPart st1;
                    end_ := end_ st1; matchedSlash := matchedSlash st1;
                    preDotState := 1 |}
            else st1
          else if negb (startDot st1 =? -1)%Z
          then {| startDot := startDot st1; startPart := startPart st1;
                  end_ := end_ st1; matchedSlash := matchedSlash st1;
                  preDotState := -1 |}
          else st1 in
        extname_loop r st2
  end.

Fixpoint indexed (i : Z) (cs : list ascii) : list (Z * ascii) :=
  match cs with
  | [] => []
  | c :: r => (i, c) :: indexed (i + 1) r
  end.

Definition extname (p : string) : string :=
  let st := extname_loop (rev (indexed 0 (list_ascii_of_string p)))
              {| startDot := -1; startPart := 0; end_ := -1;
                 matchedSlash := true; preDotState := 0 |} in
  if (startDot st =? -1)%Z || (end_ st =? -1)%Z || (preDotState st =? 0)%Z
     || ((preDotState st =? 1)%Z && (startDot st =? end_ st - 1)%Z
         && (startDot st =? startPart st + 1)%Z)
  then EmptyString
  else String.substring (Z.to_nat (startDot st))
                        (Z.to_nat (end_ st - startDot st)) p.

(** [url.parse(u).protocol] for a string without surrounding blanks: the
    leading run of letters, digits, ['.'], ['+'] and ['-'] when a colon
    follows it. *)
Definition is_scheme_char (c : ascii) : bool :=
  let n := nat_of_ascii c in
  ((97 <=? n) && (n <=? 122) || (65 <=? n) && (n <=? 90)
   || (48 <=? n) && (n <=? 57) || (n =? 46) || (n =? 43) || (n =? 45))%nat.

Definition lower (c : ascii) : ascii :=
  let n := nat_of_ascii c in
  if ((65 <=? n) && (n <=? 90))%nat then ascii_of_nat (n + 32) else c.

Fixpoint scheme (seen : bool) (s : string) : option string :=
  match s with
  | EmptyString => None
  | String c s' =>
      if is_scheme_char c then
        match scheme true s' with
        | Some t => Some (String (lower c) t)
        | None => None
        end
      else if Ascii.eqb c ":" && seen then Some ":"
      else None
  end.

Definition url_protocol (u : string) : option string := scheme false u.

Definition path_module (cwd : string) : Build.PathModule :=
  {| Build.extname := extname;
     Build.normalize := normalize;
     Build.resolve := resolve cwd;
     Build.dirname := dirname;
     Build.relative := relative cwd;
     Build.url_protocol := url_protocol |}.

End Posix.

(** ** The alias rule

    In the words of the design document: both the declared key and the
    candidate specifier lose a single trailing slash; the specifier matches
    when it equals the key or begins with the key followed by ['/']; the
    first entry that matches is returned ([trim_slash], [matches],
    [findMatchingAliasEntry]).  The test the code applies to a key is
    stated in words by [accepts]. *)

Module AliasRule.

Fixpoint trim_slash (s : string) : string :=
  match s with
  | EmptyString => EmptyString
  | String c rest =>
      if Ascii.eqb c "/" && String.eqb rest EmptyString then EmptyString
      else String c (trim_slash rest)
  end.

Definition matches (from spec : string) : bool :=
  let key := trim_slash from in
  let candidate := trim_slash spec in
  String.eqb candidate key || JS.startsWith (key ++ "/") candidate.

Definition findMatchingAliasEntry (alias : JS.Obj string) (spec : string)
  : option (string * string) :=
  if Util.not_bare spec then None
  else find (fun entry => matches (fst entry) spec) (JS.obj_entries alias).

(** The test of the code on one key: the specifier, which does not end
    in a separator, is the key without its trailing slashes and
    backslashes; or the specifier begins with the key followed by ['/'],
    with the key itself when it ends in ['/']. *)
Definition accepts (from spec : string) : Prop :=
  (JS.ends_with_sep spec = false
   /\ exists seps, JS.all_sep seps = true /\ from = spec ++ seps)
  \/ (exists rest,
        spec = (if JS.endsWith_slash from then from else from ++ "/") ++ rest).

End AliasRule.

(** ** plugins/plugin-sass/plugin.js

    The Sass plugin: which partial an import stands for, which files
    import which, what a change of a file marks as changed, and how a file
    is compiled. *)

Module Sass.

(** What [load] and its helpers throw: [new Error(message)], the
    [TypeError] of a method call on [undefined], or what the file system
    or the [sass] process threw. *)
Inductive Error : Type :=
| ErrorMessage (message : string)
| TypeError
| Thrown (e : Util.JsError).

(** [s.split('.')] *)
Fixpoint split_dot (s : string) : list string :=
  match s with
  | EmptyString => [EmptyString]
  | String c s' =>
      if Ascii.eqb c "." then EmptyString :: split_dot s'
      else match split_dot s' with
           | h :: t => String c h :: t
           | [] => [String c EmptyString]
           end
  end.

(** [filename.split('.').slice(0, -1).join('.')] *)
Definition stripFileExtension (filename : string) : string :=
  JS.join "." (removelast (split_dot filename)).

(** [s.includes(pat)] *)
Fixpoint includes (pat s : string) : bool :=
  JS.startsWith pat s
  || match s with
     | EmptyString => false
     | String _ s' => includes pat s'
     end.

(** The characters [.] does not match, and those [trim] removes, among
    the code units of a string. *)
Definition is_line_terminator (c : ascii) : bool :=
  Ascii.eqb c "010" || Ascii.eqb c "013".

Definition is_space (c : ascii) : bool :=
  Ascii.eqb c "009" || Ascii.eqb c "010" || Ascii.eqb c "011" || Ascii.eqb c "012"
  || Ascii.eqb c "013" || Ascii.eqb c " " || Ascii.eqb c "160".

(** [!s.trim()] *)
Fixpoint blank (s : string) : bool :=
  match s with
  | EmptyString => true
  | String c s' => is_space c && blank s'
  end.

(** [PARTIAL_REGEX], [/([\/\\])_(.+)(?![\/\\])/], matches at a separator
    that is followed by an underscore and one more character of the line:
    [.+] then runs to the end of the line, where the look-ahead holds. *)
Definition partial_here (c : ascii) (rest : string) : bool :=
  JS.is_sep c
  && match rest with
     | String u (String d _) => Ascii.eqb u "_" && negb (is_line_terminator d)
     | _ => false
     end.

(** [PARTIAL_REGEX.test(s)] *)
Fixpoint partial_test (s : string) : bool :=
  match s with
  | EmptyString => false
  | String c rest => partial_here c rest || partial_test rest
  end.

(** [s.replace(PARTIAL_REGEX, '$1$2')]: the underscore of the leftmost
    match goes. *)
Fixpoint replace_partial (s : string) : string :=
  match s with
  | EmptyString => EmptyString
  | String c rest =>
      if partial_here c rest then String c (JS.drop 1 rest)
      else String c (replace_partial rest)
  end.

(** *** findChildPartials *)

(** The file name [findChildPartials] looks for. *)
Definition partialFileName (pathName fileExt : string) : string :=
  let fileName := last (JS.split_slash pathName) EmptyString in
  let fileName := if JS.startsWith "_" fileName then fileName else "_" ++ fileName in
  if negb (JS.endsWith ".scss" fileName) || negb (JS.endsWith ".sass" fileName)
  then fileName ++ fileExt
  else fileName.

Section Files.
(** [path.parse(p).dir], [path.resolve], [path.dirname], and of the file
    system [fs.readFileSync(p, 'utf8')] and
    [fs.lstatSync(p).isDirectory()]. *)
Variable path_parse_dir : string -> string.
Variable path_resolve : string -> string -> string.
Variable path_dirname : string -> string.
Variable readFileSync : string -> string + Util.JsError.
Variable isDirectory : string -> bool + Util.JsError.
(** The second group of every match of [IMPORT_REGEX] in a text, in the
    order of the matches. *)
Variable importTargets : string -> list string.

Definition findChildPartials (pathName fileExt : string) : string :=
  let dirPath := path_parse_dir pathName in
  let filePath := path_resolve dirPath (partialFileName pathName fileExt) in
  match readFileSync filePath with
  | inl contents => contents
  | inr _ => EmptyString
  end.

(** *** scanSassImports

    The two filters of the scan, and the scan itself.  The array
    [partials] is one object, handed down and filled by every call; the
    state of the scan is that array.  The recursion follows the files, so
    the scan is given fuel: [None] stands for a scan that is not over when
    the fuel is. *)
Definition scanned (s : string) : bool :=
  negb (blank s) && negb (includes "node_modules" s) && negb (includes "sass:" s).

(** The path whose partial is read for an import. *)
Definition childPathOf (pathName : string) : string :=
  match isDirectory pathName with
  | inl true => pathName ++ "/" ++ "index"
  | _ => pathName
  end.

Fixpoint scanSassImports (fuel : nat) (fileContents filePath fileExt : string)
         (partials : list string) : option (list string * list string) :=
  match fuel with
  | O => None
  | S fuel' =>
      fold_left
        (fun acc fileName =>
           match acc with
           | None => None
           | Some (found, partials) =>
               let pathName := path_resolve (path_dirname filePath) fileName in
               if existsb (String.eqb pathName) partials
               then Some ((found ++ [pathName])%list, partials)
               else
                 let partials := (partials ++ [pathName])%list in
                 let childPath := childPathOf pathName in
                 let partialsContent := findChildPartials childPath fileExt in
                 if Build.truthy partialsContent then
                   match scanSassImports fuel' partialsContent childPath fileExt
                                         partials with
                   | Some (childPartials, partials') =>
                       Some ((found ++ pathName :: childPartials)%list, partials')
                   | None => None
                   end
                 else Some ((found ++ [pathName])%list, partials)
           end)
        (filter scanned (importTargets fileContents))
        (Some ([], partials))
  end.

(** The imports of a text, read in the file [filePath], all resolve to
    paths of [known]; and the same holds of the partial of every path of
    [known]. *)
Definition resolvesInto (known : list string) (fileContents filePath : string) : bool :=
  forallb (fun fileName =>
             existsb (String.eqb (path_resolve (path_dirname filePath) fileName)) known)
          (filter scanned (importTargets fileContents)).

Definition importsClosed (known : list string) (fileExt : string) : bool :=
  forallb (fun pathName =>
             resolvesInto known (findChildPartials (childPathOf pathName) fileExt)
                          (childPathOf pathName))
          known.
End Files.

(** *** importedByMap

    A [Map] from an import to the [Set] of the files that import it, both
    in insertion order. *)
Definition ImportedBy : Type := list (string * list string).

Fixpoint map_get (m : ImportedBy) (k : string) : option (list string) :=
  match m with
  | [] => None
  | (k', v) :: r => if String.eqb k' k then Some v else map_get r k
  end.

Definition map_has (m : ImportedBy) (k : string) : bool :=
  match map_get m k with
  | Some _ => true
  | None => false
  end.

(** [importedBy.add(filePath)] on the set held under [k]. *)
Fixpoint map_add_to (m : ImportedBy) (k filePath : string) : ImportedBy :=
  match m with
  | [] => []
  | (k', v) :: r =>
      if String.eqb k' k then (k', Build.set_add filePath v) :: r
      else (k', v) :: map_add_to r k filePath
  end.

(** [importedByMap.delete(k)] *)
Fixpoint map_delete (m : ImportedBy) (k : string) : ImportedBy :=
  match m with
  | [] => []
  | (k', v) :: r =>
      if String.eqb k' k then r else (k', v) :: map_delete r k
  end.

Definition addImportsToMap (filePath sassImport : string) (m : ImportedBy)
  : ImportedBy :=
  match map_get m sassImport with
  | Some _ => map_add_to m sassImport filePath
  | None => (m ++ [(sassImport, [filePath])])%list
  end.

(** The state of the plugin as a change is handled: the map, and the
    files [markChanged] was called with, in the order of the calls. *)
Definition _markImportersAsChanged (filePath : string)
           (st : ImportedBy * list string) : ImportedBy * list string :=
  let (m, marked) := st in
  match map_get m filePath with
  | Some importedBy => (map_delete m filePath, (marked ++ importedBy)%list)
  | None => (m, marked)
  end.

(** The paths [onChange] looks up, in turn. *)
Definition changeCandidates (filePath : string) : list string :=
  let filePathNoExt := stripFileExtension filePath in
  ([filePath; filePathNoExt; replace_partial filePath; replace_partial filePathNoExt]
     ++ (if JS.endsWith "_index" filePathNoExt
         then [JS.substring0 (String.length filePathNoExt - 7) filePathNoExt]
         else []))%list.

Definition onChange (filePath : string) (m : ImportedBy) : ImportedBy * list string :=
  let filePathNoExt := stripFileExtension filePath in
  let st := _markImportersAsChanged filePath (m, []) in
  let st := _markImportersAsChanged filePathNoExt st in
  let st := _markImportersAsChanged (replace_partial filePath) st in
  let st := _markImportersAsChanged (replace_partial filePathNoExt) st in
  if JS.endsWith "_index" filePathNoExt then
    let folderPathNoIndex :=
      JS.substring0 (String.length filePathNoExt - 7) filePathNoExt in
    _markImportersAsChanged folderPathNoIndex st
  else st.

(** *** load *)

(** The value of a compiler option: a boolean, a string, a number, given
    by its text in a template literal, an array, or any other value. *)
#[warnings="-register-all"]
Inductive Value : Type :=
| VBoolean (b : bool)
| VString (s : string)
| VNumber (text : string)
| VArray (elements : list Value)
| VOther.

Definition is_upper (c : ascii) : bool :=
  (65 <=? nat_of_ascii c)%nat && (nat_of_ascii c <=? 90)%nat.

Definition to_lower (c : ascii) : ascii := ascii_of_nat (nat_of_ascii c + 32).

(** [flag.replace(/[A-Z]/g, (c) => `-${c.toLowerCase()}`)] *)
Fixpoint kebab (flag : string) : string :=
  match flag with
  | EmptyString => EmptyString
  | String c rest =>
      if is_upper c then String "-" (String (to_lower c) (kebab rest))
      else String c (kebab rest)
  end.

Definition unsupported (flag : string) : Error :=
  ErrorMessage ("compilerOptions[" ++ flag
                  ++ "] value not supported. Must be string, number, or boolean.").

(** [parseCompilerOption(flag, val)], the call of the array case: the
    parameter pattern [[flag, value]] is matched against the first
    argument, the string [flag], and takes its first two characters; the
    second argument is not looked at. *)
Definition parseCompilerOption_of_string (flag : string) (args : list string)
  : list string + Error :=
  match flag with
  | EmptyString => inr TypeError
  | String c EmptyString => inr (unsupported (String c EmptyString))
  | String c (String d _) =>
      let arg := "--" ++ kebab (String c EmptyString) ++ "=" ++ String d EmptyString in
      inl (args ++ [arg])%list
  end.

(** [for (const val of value) { parseCompilerOption(flag, val); }] *)
Fixpoint parseEach (flag : string) (value : list Value) (args : list string)
  : list string + Error :=
  match value with
  | [] => inl args
  | _ :: rest =>
      match parseCompilerOption_of_string flag args with
      | inl args' => parseEach flag rest args'
      | inr e => inr e
      end
  end.

(** [parseCompilerOption([flag, value])], as [forEach] calls it on an
    entry of [compilerOptions]; [args] is the array of the arguments. *)
Definition parseCompilerOption (entry : string * Value) (args : list string)
  : list string + Error :=
  let (flag, value) := entry in
  let flagName := kebab flag in
  match value with
  | VBoolean b =>
      let arg := "--" ++ (if b then "" else "no-") ++ flagName in
      inl (args ++ [arg])%list
  | VString s | VNumber s =>
      let arg := "--" ++ flagName ++ "=" ++ s in
      inl (args ++ [arg])%list
  | VArray elements => parseEach flag elements args
  | VOther => inr (unsupported flag)
  end.

(** [Object.entries(compilerOptions).forEach(parseCompilerOption)] *)
Fixpoint parseCompilerOptions (entries : list (string * Value)) (args : list string)
  : list string + Error :=
  match entries with
  | [] => inl args
  | entry :: rest =>
      match parseCompilerOption entry args with
      | inl args' => parseCompilerOptions rest args'
      | inr e => inr e
      end
  end.

(** What the [sass] process printed. *)
Record Output : Type := { stdout : string; stderr : string }.

(** A run of [load]: what it returns ([None] for [undefined]) or throws,
    the map afterwards, and the runs of [sass], each with its arguments
    and its input. *)
Record Loaded : Type :=
  { result : option string + Error;
    importedByMap : ImportedBy;
    runs : list (list string * string) }.

Section Load.
Variable path_parse_dir : string -> string.
Variable path_resolve : string -> string -> string.
Variable path_dirname : string -> string.
Variable path_extname : string -> string.
Variable path_basename : string -> string.
Variable readFileSync : string -> string + Util.JsError.
Variable isDirectory : string -> bool + Util.JsError.
Variable importTargets : string -> list string.
(** [execa('sass', args, {input, ...})] *)
Variable sass : list string -> string -> Output + Util.JsError.
Variable compilerOptions : JS.Obj Value.

(** [sassImports.forEach((imp) => addImportsToMap(filePath, imp))] *)
Definition addAllImports (filePath : string) (sassImports : list string)
           (m : ImportedBy) : ImportedBy :=
  fold_left (fun m imp => addImportsToMap filePath imp m) sassImports m.

Definition compile (filePath fileExt contents : string) (m : ImportedBy) : Loaded :=
  let args :=
    (["--stdin"; "--load-path"; path_dirname filePath]
       ++ (if String.eqb fileExt ".sass" then ["--indented"] else []))%list in
  match parseCompilerOptions (JS.obj_entries compilerOptions) args with
  | inr e => {| result := inr e; importedByMap := m; runs := [] |}
  | inl args =>
      match sass args contents with
      | inr e =>
          {| result := inr (Thrown e); importedByMap := m;
             runs := [(args, contents)] |}
      | inl out =>
          {| result :=
               if Build.truthy (stderr out) then inr (ErrorMessage (stderr out))
               else if Build.truthy (stdout out) then inl (Some (stdout out))
               else inl None;
             importedByMap := m;
             runs := [(args, contents)] |}
      end
  end.

Definition load (fuel : nat) (filePath : string) (isDev : bool) (m : ImportedBy)
  : option Loaded :=
  let fileExt := path_extname filePath in
  match readFileSync filePath with
  | inr e => Some {| result := inr (Thrown e); importedByMap := m; runs := [] |}
  | inl contents =>
      if JS.startsWith "_" (path_basename filePath)
      then Some {| result := inl None; importedByMap := m; runs := [] |}
      else if isDev then
        match scanSassImports path_parse_dir path_resolve path_dirname readFileSync
                isDirectory importTargets fuel contents filePath fileExt [] with
        | None => None
        | Some (sassImports, _) =>
            Some (compile filePath fileExt contents
                    (addAllImports filePath sassImports m))
        end
      else Some (compile filePath fileExt contents m)
  end.
End Load.

End Sass.

(** ** Concrete inputs *)

Module Examples.

Definition export_error : Util.JsError :=
  {| Util.code := Some Util.ERR_PACKAGE_PATH_NOT_EXPORTED |}.
Definition not_found : Util.JsError := {| Util.code := Some "MODULE_NOT_FOUND" |}.
Definition no_entry : Util.JsError := {| Util.code := Some "ENOENT" |}.
Definition syntax_error : Util.JsError := {| Util.code := None |}.

(** A project at [/proj] with one installed package, [pkg], whose export
    map hides its manifest and whose entry point is [dist/index.js].  The
    manifest file holds [text] when there is one; a parsed manifest is
    stood for by its text. *)
Definition hidden_manifest_env (manifest : option string) : Util.NodeEnv string :=
  {| Util.path_sep := "/";
     Util.dirname_ := "/opt/esinstall/lib";
     Util.require_resolve := fun request _ =>
       if String.eqb request "pkg/package.json" then inr export_error
       else if String.eqb request "pkg"
            then inl "/proj/node_modules/pkg/dist/index.js"
            else inr not_found;
     Util.realpathSync_native := fun p => inl p;
     Util.require_ := fun _ => inr not_found;
     Util.readFileSync := fun p =>
       if String.eqb p "/proj/node_modules/pkg/package.json"
       then match manifest with Some text => inl text | None => inr no_entry end
       else inr no_entry;
     Util.JSON_parse := fun text =>
       if JS.startsWith "{" text then inl text else inr syntax_error |}.

(** An import map with two packages whose names are numerals. *)
Definition numeric_import_map : Util.ImportMap :=
  {| Util.imports :=
       JS.obj_of_entries [("10", "/web_modules/10.js"); ("9", "/web_modules/9.js")] |}.

Definition quoted (s : string) : string := JS.dquote ++ s ++ JS.dquote.

Definition numeric_lockfile_text : string :=
  "{" ++ JS.newline
  ++ "  " ++ quoted "imports" ++ ": {" ++ JS.newline
  ++ "    " ++ quoted "9" ++ ": " ++ quoted "/web_modules/9.js" ++ "," ++ JS.newline
  ++ "    " ++ quoted "10" ++ ": " ++ quoted "/web_modules/10.js" ++ JS.newline
  ++ "  }" ++ JS.newline
  ++ "}".

(** The alias table of the design document, and one whose key ends in two
    slashes. *)
Definition comp_alias : JS.Obj string := [("comp", "./lib/comp")].
Definition comp_alias_slashes : JS.Obj string := [("comp//", "./lib/comp")].

(** A build of the project at [/proj] into [/proj/build]: the page
    [index.js] at the root of the output imports the package [react],
    installed at the URL [/web_modules/react.js], and a style sheet. *)
Definition project_path : Build.PathModule := Posix.path_module "/proj".

Definition project_resolver (spec : string) : option string :=
  if String.eqb spec "react" then Some "/web_modules/react.js"
  else if String.eqb spec "./style.css" then Some "./style.css"
  else if String.eqb spec "https://cdn.example/x.js" then Some "https://cdn.example/x.js"
  else None.

Definition project_rewrite (outLoc spec : string) (proxies : list string)
  : string * list string :=
  Build.rewriteSpecifier project_path Util.removeLeadingSlash project_resolver
    "/proj/build" outLoc spec proxies.

(** The build of that project, given what the installer answers. *)
Definition project_file : Build.SourceFile :=
  {| Build.baseExt := ".js"; Build.expandedExt := ".js";
     Build.contents := "import 'react'"; Build.locOnDisk := "/proj/src/index.js" |}.

Definition install_ok : Build.InstallResult :=
  {| Build.success := true; Build.hasError := false;
     Build.importMap := {| Util.imports := [("react", "./react.js")] |};
     Build.stats := None |}.

Definition install_broken : Build.InstallResult :=
  {| Build.success := false; Build.hasError := true;
     Build.importMap := {| Util.imports := [] |};
     Build.stats := None |}.

Definition project_build (installed : Build.InstallResult) : Build.Proc unit :=
  Build.command project_path Util.removeLeadingSlash unit "/proj/build"
    [("/proj/src", "/proj/build", ["/proj/src/index.js"])]
    (fun _ => [(".js", "import 'react'")])
    (fun _ _ _ _ => "/proj/build/index.js")
    (fun _ _ code => code)
    (fun code => code)
    (fun _ => tt)
    (fun _ => inl installed)
    (fun _ _ => project_resolver)
    (fun _ => ["react"])
    (fun _ emitted => "import '" ++ JS.join "," emitted ++ "'")
    (fun _ => inr no_entry)
    (fun _ code => code)
    false
    [].

(** The same build with collaborators that can fail: [newRegExp], the
    installer and the optimize step are given; every other call returns. *)
Definition project_built_io (newRegExp : string -> option Util.JsError)
  : Build.Proc Build.Files :=
  BuildIO.built project_path
    [("/proj/src", "/proj/build", ["/proj/src/index.js"])]
    newRegExp
    (fun _ => inl [(".js", "import 'react'")])
    (fun _ _ _ _ => "/proj/build/index.js")
    (fun _ _ _ => "/proj/build")
    (fun _ _ code => code)
    (fun code => code)
    (fun _ => None)
    (fun _ _ => None).

Definition project_run_io (newRegExp : string -> option Util.JsError)
           (installed : Build.InstallResult + Util.JsError)
           (optimize : option Util.JsError) : Build.Proc unit :=
  BuildIO.command project_path Util.removeLeadingSlash unit "/proj/build"
    [("/proj/src", "/proj/build", ["/proj/src/index.js"])]
    newRegExp
    (fun _ => inl [(".js", "import 'react'")])
    (fun _ _ _ _ => "/proj/build/index.js")
    (fun _ _ _ => "/proj/build")
    (fun _ _ code => code)
    (fun code => code)
    (fun _ => None)
    (fun _ _ => None)
    (fun _ => inl tt)
    (fun _ => installed)
    (fun _ _ => project_resolver)
    (fun _ => None)
    (fun _ => ["react"])
    (fun _ => None)
    (fun _ emitted => "import '" ++ JS.join "," emitted ++ "'")
    (fun _ => None)
    (fun _ _ => None)
    (fun _ => inr no_entry)
    (fun _ code => inl code)
    (fun _ _ => None)
    optimize
    false
    None
    []
    (fun _ => None).

(** The build with an installer that succeeds and a given [url.parse]. *)
Definition project_run_url_parse (url_parse_error : string -> option Util.JsError)
  : Build.Proc unit :=
  BuildIO.command project_path Util.removeLeadingSlash unit "/proj/build"
    [("/proj/src", "/proj/build", ["/proj/src/index.js"])]
    (fun _ => None)
    (fun _ => inl [(".js", "import 'react'")])
    (fun _ _ _ _ => "/proj/build/index.js")
    (fun _ _ _ => "/proj/build")
    (fun _ _ code => code)
    (fun code => code)
    (fun _ => None)
    (fun _ _ => None)
    (fun _ => inl tt)
    (fun _ => inl install_ok)
    (fun _ _ => project_resolver)
    url_parse_error
    (fun _ => ["react"])
    (fun _ => None)
    (fun _ emitted => "import '" ++ JS.join "," emitted ++ "'")
    (fun _ => None)
    (fun _ _ => None)
    (fun _ => inr no_entry)
    (fun _ code => inl code)
    (fun _ _ => None)
    None
    false
    None
    []
    (fun _ => None).

(** A Sass project: [main.scss] uses the partial [base], which uses the
    partial [theme], which uses [base] in turn. *)
Definition sass_readFileSync (p : string) : string + Util.JsError :=
  if String.eqb p "/proj/src/main.scss" then inl "@use 'base';"
  else if String.eqb p "/proj/src/_base.scss" then inl "@use 'theme';"
  else if String.eqb p "/proj/src/_theme.scss" then inl "@use 'base';"
  else inr no_entry.

Definition sass_importTargets (text : string) : list string :=
  if String.eqb text "@use 'base';" then ["base"]
  else if String.eqb text "@use 'theme';" then ["theme"]
  else [].

Definition sass_isDirectory (p : string) : bool + Util.JsError := inl false.

Definition sass_basename (p : string) : string := last (JS.split_slash p) EmptyString.

Definition sass_scan (fuel : nat) (fileContents filePath : string)
  : option (list string * list string) :=
  Sass.scanSassImports Posix.dirname (Posix.resolve "/proj") Posix.dirname
    sass_readFileSync sass_isDirectory sass_importTargets
    fuel fileContents filePath ".scss" [].

Definition sass_load (filePath : string) (isDev : bool) (m : Sass.ImportedBy)
  : option Sass.Loaded :=
  Sass.load Posix.dirname (Posix.resolve "/proj") Posix.dirname Posix.extname
    sass_basename sass_readFileSync sass_isDirectory sass_importTargets
    (fun _ text => inl {| Sass.stdout := text; Sass.stderr := EmptyString |})
    [] 3 filePath isDev m.

(** An import map read from a lockfile that has a key [__proto__]. *)
Definition proto_import_map : Util.ImportMap :=
  {| Util.imports := JS.obj_of_entries [("react", "./react.js"); ("__proto__", "./p.js")] |}.

End Examples.

(** ** Properties of the string primitives *)

Lemma split_slash_nonempty (s : string) : JS.split_slash s <> [].
Proof.
  destruct s as [|c s]; simpl; [discriminate|].
  destruct (Ascii.eqb c "/"); [discriminate|].
  destruct (JS.split_slash s); discriminate.
Qed.

Lemma split_slash_no_slash (s : string) :
  JS.no_slash s = true -> JS.split_slash s = [s].
Proof.
  induction s as [|c s IH]; simpl; [reflexivity|].
  intros H. apply andb_true_iff in H as [Hc Hs].
  destruct (Ascii.eqb c "/"); [discriminate|].
  rewrite (IH Hs). reflexivity.
Qed.

Lemma split_slash_app (a b : string) :
  JS.no_slash a = true ->
  JS.split_slash (a ++ "/" ++ b) = a :: JS.split_slash b.
Proof.
  induction a as [|c a IH]; simpl; intros H; [reflexivity|].
  apply andb_true_iff in H as [Hc Ha].
  destruct (Ascii.eqb c "/"); [discriminate|].
  simpl in IH. rewrite (IH Ha). reflexivity.
Qed.

(** Splitting undoes joining when no segment holds a separator. *)
Lemma split_slash_join (x : string) (l : list string) :
  forallb JS.no_slash (x :: l) = true ->
  JS.split_slash (JS.join "/" (x :: l)) = x :: l.
Proof.
  revert x. induction l as [|y l IH]; intros x H.
  - simpl in H. rewrite andb_true_r in H. simpl. now apply split_slash_no_slash.
  - change (JS.join "/" (x :: y :: l)) with (x ++ "/" ++ JS.join "/" (y :: l)).
    simpl in H. apply andb_true_iff in H as [Hx H].
    rewrite split_slash_app by exact Hx.
    rewrite IH; [reflexivity|exact H].
Qed.

Lemma startsWith_app (p a b : string) :
  JS.startsWith p a = true -> JS.startsWith p (a ++ b) = true.
Proof.
  revert a.
  induction p as [|c p IH]; intros a H; [reflexivity|].
  destruct a as [|d a]; simpl in *; [discriminate|].
  apply andb_true_iff in H as [H1 H2]. now rewrite H1, IH.
Qed.

Lemma startsWith_at_join (x : string) (l : list string) :
  JS.startsWith "@" (JS.join "/" (x :: l)) = JS.startsWith "@" x.
Proof.
  destruct l as [|y l]; [reflexivity|].
  change (JS.join "/" (x :: y :: l)) with (x ++ "/" ++ JS.join "/" (y :: l)).
  destruct x as [|c x]; reflexivity.
Qed.

(** Every string is the join of its segments, and no segment holds a
    separator: the segment-wise statements below speak of all strings. *)
Lemma join_split_slash (s : string) : JS.join "/" (JS.split_slash s) = s.
Proof.
  induction s as [|c s IH]; [reflexivity|].
  cbn [JS.split_slash]. destruct (Ascii.eqb_spec c "/") as [->|Hc].
  - pose proof (split_slash_nonempty s) as Hne.
    destruct (JS.split_slash s) as [|h t]; [contradiction|].
    change (JS.join "/" (EmptyString :: h :: t)) with ("/" ++ JS.join "/" (h :: t)).
    now rewrite IH.
  - destruct (JS.split_slash s) as [|h t] eqn:E;
      [now apply split_slash_nonempty in E|].
    destruct t as [|h' t].
    + simpl in *. now rewrite IH.
    + change (JS.join "/" (String c h :: h' :: t))
        with (String c (h ++ "/" ++ JS.join "/" (h' :: t))).
      f_equal. exact IH.
Qed.

Lemma split_slash_segments (s : string) :
  forallb JS.no_slash (JS.split_slash s) = true.
Proof.
  induction s as [|c s IH]; [reflexivity|].
  cbn [JS.split_slash]. destruct (Ascii.eqb_spec c "/") as [->|Hc].
  - exact IH.
  - apply Ascii.eqb_neq in Hc.
    destruct (JS.split_slash s) as [|h t]; simpl in *; now rewrite Hc.
Qed.

(** ** parsePackageImportSpecifier *)

(** C8: a bare specifier splits into (package name, sub-path or null); a
    specifier starting with ['@'] gives its first two segments to the name,
    any other specifier gives one, and an empty remainder is null.  In
    particular ["@scope/pkg/deep/path"] gives [("@scope/pkg", "deep/path")]
    and ["lodash"] gives [("lodash", null)]. *)
Theorem parsePackageImportSpecifier_split :
  (forall scope name rest,
      JS.startsWith "@" scope = true ->
      forallb JS.no_slash (scope :: name :: rest) = true ->
      Util.parsePackageImportSpecifier (JS.join "/" (scope :: name :: rest))
      = (scope ++ "/" ++ name, JS.or_null (JS.join "/" rest)))
  /\ (forall name rest,
      JS.startsWith "@" name = false ->
      forallb JS.no_slash (name :: rest) = true ->
      Util.parsePackageImportSpecifier (JS.join "/" (name :: rest))
      = (name, JS.or_null (JS.join "/" rest)))
  /\ Util.parsePackageImportSpecifier "@scope/pkg/deep/path"
     = ("@scope/pkg", Some "deep/path")
  /\ Util.parsePackageImportSpecifier "lodash" = ("lodash", None).
Proof.
  repeat split.
  - intros scope name rest Hat Hns.
    unfold Util.parsePackageImportSpecifier.
    rewrite startsWith_at_join, Hat, split_slash_join by exact Hns.
    reflexivity.
  - intros name rest Hat Hns.
    unfold Util.parsePackageImportSpecifier.
    rewrite startsWith_at_join, Hat, split_slash_join by exact Hns.
    reflexivity.
Qed.

Lemma parsePackageImportSpecifier_split_witness :
  Util.parsePackageImportSpecifier (JS.join "/" ["@babel"; "core"; "lib"; "index.js"])
  = ("@babel/core", Some "lib/index.js")
  /\ Util.parsePackageImportSpecifier (JS.join "/" ["react-dom"; "server"])
     = ("react-dom", Some "server").
Proof.
  split.
  - apply (proj1 parsePackageImportSpecifier_split "@babel" "core" ["lib"; "index.js"]);
      reflexivity.
  - apply (proj1 (proj2 parsePackageImportSpecifier_split) "react-dom" ["server"]);
      reflexivity.
Defined.

(** C10: a scoped specifier of one segment (no ['/']) gets the text
    [undefined] as its missing name segment and a null sub-path. *)
Theorem parsePackageImportSpecifier_scope_only :
  (forall imp,
      JS.startsWith "@" imp = true ->
      JS.no_slash imp = true ->
      Util.parsePackageImportSpecifier imp = (imp ++ "/undefined", None))
  /\ Util.parsePackageImportSpecifier "@scope" = ("@scope/undefined", None).
Proof.
  split; [|reflexivity].
  intros imp Hat Hns. unfold Util.parsePackageImportSpecifier.
  rewrite Hat, split_slash_no_slash by exact Hns. reflexivity.
Qed.

Lemma parsePackageImportSpecifier_scope_only_witness :
  Util.parsePackageImportSpecifier "@types" = ("@types/undefined", None).
Proof.
  apply (proj1 parsePackageImportSpecifier_scope_only "@types"); reflexivity.
Defined.


(** ** resolveDependencyManifest *)

Lemma length_app (a b : string) :
  String.length (a ++ b) = String.length a + String.length b.
Proof. induction a as [|c a IH]; simpl; [reflexivity|now rewrite IH]. Qed.

Lemma dep_not_its_manifest (dep : string) : dep <> dep ++ "/package.json".
Proof.
  intros H. apply (f_equal String.length) in H.
  rewrite length_app in H. simpl in H. lia.
Qed.

Lemma not_export_error_false (err : Util.JsError) :
  Util.not_export_error err = false <->
  Util.code err = Some Util.ERR_PACKAGE_PATH_NOT_EXPORTED.
Proof.
  unfold Util.not_export_error. destruct (Util.code err) as [c|].
  - rewrite negb_false_iff, String.eqb_eq. split; congruence.
  - split; discriminate.
Qed.

Ltac unfold_manifest :=
  unfold Util.run_resolveDependencyManifest, Util.resolveDependencyManifest,
    Util.attempt1, Util.attempt2, Util.attempt1_body, Util.attempt2_body,
    Util.resolvePath, Util.finally_return, Util.try_catch, Util.bind, Util.call,
    Util.ret, Util.get_result, Util.set_result, Util.initial; simpl.

Ltac env_cases env :=
  repeat (simpl;
          match goal with
          | |- context [Util.require_resolve env ?a ?b] =>
              destruct (Util.require_resolve env a b) eqn:?
          | |- context [Util.realpathSync_native env ?a] =>
              destruct (Util.realpathSync_native env a) eqn:?
          | |- context [Util.require_ env ?a] =>
              destruct (Util.require_ env a) eqn:?
          | |- context [Util.not_export_error ?e] =>
              destruct (Util.not_export_error e) eqn:?
          | |- context [JS.lastIndexOf ?a ?b] =>
              destruct (JS.lastIndexOf a b) eqn:?
          | |- context [Util.readFileSync env ?a] =>
              destruct (Util.readFileSync env a) eqn:?
          | |- context [Util.JSON_parse env ?a] =>
              destruct (Util.JSON_parse env a) eqn:?
          end).

(** C1: the manifest resolver never raises.  Its first call resolves
    [<packageName>/package.json]; when attempt 1 succeeds its result is
    returned; when attempt 1 fails with any error other than the
    path-not-exported one the result is (null, null) and nothing more is
    called; the package itself is resolved (the fallback) only after
    attempt 1 failed with the path-not-exported code. *)
Theorem resolveDependencyManifest_never_raises
  (Json : Type) (env : Util.NodeEnv Json) (dep cwd : string) :
  let run := Util.run_resolveDependencyManifest env dep cwd in
  let first := Util.attempt1_body env dep cwd (Util.initial Json) in
  (exists v, fst run = inl v)
  /\ (exists o rest, snd run = Util.CallResolve (dep ++ "/package.json") o :: rest)
  /\ (forall v, fst first = inl v -> run = (inl v, Util.calls (snd first)))
  /\ (forall err, fst first = inr err ->
        Util.code err <> Some Util.ERR_PACKAGE_PATH_NOT_EXPORTED ->
        run = (inl (None, None), Util.calls (snd first)))
  /\ (forall o, In (Util.CallResolve dep o) (snd run) ->
        exists err, fst first = inr err
                    /\ Util.code err = Some Util.ERR_PACKAGE_PATH_NOT_EXPORTED).
Proof.
  pose proof (dep_not_its_manifest dep) as Hne.
  unfold_manifest.
  env_cases env.
  all: repeat match goal with
         | H : Util.not_export_error _ = false |- _ =>
             apply not_export_error_false in H
         | H : Util.not_export_error ?e = true |- _ =>
             assert (Util.code e <> Some Util.ERR_PACKAGE_PATH_NOT_EXPORTED)
               by (intros Hc; apply not_export_error_false in Hc; congruence);
             clear H
         end.
  all: simpl; repeat split; eauto.
  all: try (intros ? [= <-]; try reflexivity; intros; congruence).
  all: intros o Hin; repeat destruct Hin as [Hin|Hin]; try discriminate;
    try contradiction; eauto; injection Hin as Hin _; congruence.
Qed.

Lemma resolveDependencyManifest_never_raises_witness :
  Util.run_resolveDependencyManifest (Examples.hidden_manifest_env None) "left-pad" "/proj"
  = (inl (None, None),
     [Util.CallResolve "left-pad/package.json" (Some ["/proj"; "/opt/esinstall/lib"])]).
Proof.
  apply (proj1 (proj2 (proj2 (proj2
           (resolveDependencyManifest_never_raises string
              (Examples.hidden_manifest_env None) "left-pad" "/proj"))))
           Examples.not_found).
  - reflexivity.
  - discriminate.
Defined.

(** [lastIndexOf] finds an occurrence, and no occurrence starts further
    to the right. *)
Lemma lastIndexOf_spec (p s : string) :
  match JS.lastIndexOf p s with
  | Some i =>
      i <= String.length s
      /\ JS.startsWith p (JS.drop i s) = true
      /\ forall j, i < j <= String.length s -> JS.startsWith p (JS.drop j s) = false
  | None => forall j, j <= String.length s -> JS.startsWith p (JS.drop j s) = false
  end.
Proof.
  induction s as [|c s IH].
  - simpl. destruct p as [|d p].
    + repeat split; [lia|]. intros j Hj; lia.
    + intros j Hj. assert (j = 0) by (simpl in Hj; lia). subst. reflexivity.
  - cbn [JS.lastIndexOf]. destruct (JS.lastIndexOf p s) as [i|].
    + destruct IH as (Hi & Hocc & Hlast). repeat split.
      * simpl; lia.
      * exact Hocc.
      * intros j Hj. destruct j as [|j]; [lia|].
        simpl. apply Hlast. simpl in Hj. lia.
    + destruct (JS.startsWith p (String c s)) eqn:Hp.
      * repeat split; [lia|exact Hp|].
        intros j Hj. destruct j as [|j]; [lia|].
        simpl. apply IH. simpl in Hj. lia.
      * intros j Hj. destruct j as [|j]; [exact Hp|].
        simpl. apply IH. simpl in Hj. lia.
Qed.

(** C2, as the code has it: in the fallback the inferred manifest path is
    the text of the resolved entry point up to and including the character
    after the last occurrence of the package-root marker, followed by
    [package.json]; when reading or parsing that file fails, the result is
    that path together with a null manifest object. *)
Theorem manifest_fallback_read_error_keeps_path
  (Json : Type) (env : Util.NodeEnv Json) (dep cwd : string)
  (err : Util.JsError) (resolved fullPath : string) (i : nat) :
  fst (Util.attempt1_body env dep cwd (Util.initial Json)) = inr err ->
  Util.code err = Some Util.ERR_PACKAGE_PATH_NOT_EXPORTED ->
  Util.require_resolve env dep (Util.resolve_options env cwd) = inl resolved ->
  Util.realpathSync_native env resolved = inl fullPath ->
  JS.lastIndexOf (Util.searchPath env dep) fullPath = Some i ->
  let manifestPath := Util.inferredManifestPath env dep fullPath i in
  ((exists e, Util.readFileSync env manifestPath = inr e)
   \/ (exists text e, Util.readFileSync env manifestPath = inl text
                      /\ Util.JSON_parse env text = inr e)) ->
  fst (Util.run_resolveDependencyManifest env dep cwd) = inl (Some manifestPath, None)
  /\ JS.startsWith (Util.searchPath env dep) (JS.drop i fullPath) = true
  /\ (forall j, i < j <= String.length fullPath ->
        JS.startsWith (Util.searchPath env dep) (JS.drop j fullPath) = false).
Proof.
  intros Hfirst Hcode Hres Hreal Hidx manifestPath Hfail.
  pose proof (lastIndexOf_spec (Util.searchPath env dep) fullPath) as Hlast.
  rewrite Hidx in Hlast. destruct Hlast as (_ & Hocc & Hlast).
  split; [|split; assumption].
  apply not_export_error_false in Hcode.
  revert Hfirst. subst manifestPath.
  unfold_manifest.
  destruct (Util.require_resolve env (dep ++ "/package.json") _) as [r1|e1]; simpl.
  - destruct (Util.realpathSync_native env r1) as [p1|e1]; simpl.
    + destruct (Util.require_ env p1) as [m|e1]; simpl; [discriminate|].
      intros [= ->]. rewrite Hcode, Hres. simpl. rewrite Hreal. simpl.
      rewrite Hidx. simpl.
      destruct Hfail as [[e He]|(text & e & Ht & He)].
      * rewrite He. reflexivity.
      * rewrite Ht. simpl. rewrite He. reflexivity.
    + intros [= ->]. rewrite Hcode, Hres. simpl. rewrite Hreal. simpl.
      rewrite Hidx. simpl.
      destruct Hfail as [[e He]|(text & e & Ht & He)].
      * rewrite He. reflexivity.
      * rewrite Ht. simpl. rewrite He. reflexivity.
  - intros [= ->]. rewrite Hcode, Hres. simpl. rewrite Hreal. simpl.
    rewrite Hidx. simpl.
    destruct Hfail as [[e He]|(text & e & Ht & He)].
    + rewrite He. reflexivity.
    + rewrite Ht. simpl. rewrite He. reflexivity.
Qed.

Lemma manifest_fallback_read_error_keeps_path_witness :
  fst (Util.run_resolveDependencyManifest
         (Examples.hidden_manifest_env (Some "not json")) "pkg" "/proj")
  = inl (Some "/proj/node_modules/pkg/package.json", None).
Proof.
  apply (manifest_fallback_read_error_keeps_path string
           (Examples.hidden_manifest_env (Some "not json")) "pkg" "/proj"
           Examples.export_error "/proj/node_modules/pkg/dist/index.js"
           "/proj/node_modules/pkg/dist/index.js" 5).
  - reflexivity.
  - reflexivity.
  - reflexivity.
  - reflexivity.
  - reflexivity.
  - right. exists "not json", Examples.syntax_error. split; reflexivity.
Defined.

(** C2 as stated fails: the manifest of [pkg] cannot be read, and the path
    returned is the inferred one, not null. *)
Lemma manifest_fallback_read_error_not_null_pair :
  Util.readFileSync (Examples.hidden_manifest_env None)
    "/proj/node_modules/pkg/package.json" = inr Examples.no_entry
  /\ fst (Util.run_resolveDependencyManifest
            (Examples.hidden_manifest_env None) "pkg" "/proj")
     = inl (Some "/proj/node_modules/pkg/package.json", None)
  /\ fst (Util.run_resolveDependencyManifest
            (Examples.hidden_manifest_env None) "pkg" "/proj")
     <> inl (None, None).
Proof.
  repeat split. vm_compute. discriminate.
Qed.

(** The fallback at work: with a readable manifest both parts are there. *)
Example manifest_fallback_finds_manifest :
  fst (Util.run_resolveDependencyManifest
         (Examples.hidden_manifest_env (Some "{}")) "pkg" "/proj")
  = inl (Some "/proj/node_modules/pkg/package.json", Some "{}").
Proof. reflexivity. Qed.

(** ** Sorting keys *)

Lemma ascii_compare_N (a b : ascii) :
  Ascii.compare a b = N.compare (N_of_ascii a) (N_of_ascii b).
Proof. reflexivity. Qed.

Lemma string_compare_refl (a : string) : String.compare a a = Eq.
Proof.
  induction a as [|c a IH]; simpl; [reflexivity|].
  rewrite ascii_compare_N, N.compare_refl. exact IH.
Qed.

Lemma string_compare_lt_trans (a b c : string) :
  String.compare a b = Lt -> String.compare b c = Lt -> String.compare a c = Lt.
Proof.
  revert b c. induction a as [|x a IH]; intros [|y b] [|z c]; simpl;
    try discriminate; try reflexivity.
  rewrite !ascii_compare_N.
  destruct (N.compare_spec (N_of_ascii x) (N_of_ascii y)) as [Hxy|Hxy|Hxy];
    destruct (N.compare_spec (N_of_ascii y) (N_of_ascii z)) as [Hyz|Hyz|Hyz];
    try discriminate; intros H1 H2.
  - rewrite Hxy, Hyz, N.compare_refl. now apply (IH b c).
  - rewrite Hxy. now apply N.compare_lt_iff in Hyz as ->.
  - rewrite <- Hyz. now apply N.compare_lt_iff in Hxy as ->.
  - assert (H : (N_of_ascii x < N_of_ascii z)%N) by lia.
    now apply N.compare_lt_iff in H as ->.
Qed.

Lemma key_le_trans (a b c : string) :
  JS.key_le a b -> JS.key_le b c -> JS.key_le a c.
Proof.
  unfold JS.key_le, String.leb. intros Hab Hbc.
  destruct (String.compare a b) eqn:E1; try discriminate;
    destruct (String.compare b c) eqn:E2; try discriminate.
  - apply String.compare_eq_iff in E1, E2. subst. now rewrite string_compare_refl.
  - apply String.compare_eq_iff in E1. subst. now rewrite E2.
  - apply String.compare_eq_iff in E2. subst. now rewrite E1.
  - now rewrite (string_compare_lt_trans a b c).
Qed.

Lemma sort_insert_perm (k : string) (l : list string) :
  Permutation (k :: l) (JS.sort_insert k l).
Proof.
  induction l as [|h t IH]; simpl; [reflexivity|].
  destruct (String.leb k h); [reflexivity|].
  rewrite perm_swap. now apply perm_skip.
Qed.

Lemma sort_perm (l : list string) : Permutation l (JS.sort l).
Proof.
  induction l as [|h t IH]; simpl; [constructor|].
  rewrite <- sort_insert_perm. now apply perm_skip.
Qed.

Lemma sort_insert_sorted (k : string) (l : list string) :
  StronglySorted JS.key_le l -> StronglySorted JS.key_le (JS.sort_insert k l).
Proof.
  induction 1 as [|h t Hs IH Hall]; simpl.
  - repeat constructor.
  - destruct (String.leb k h) eqn:E.
    + constructor; [now constructor|].
      constructor; [exact E|].
      eapply Forall_impl; [|exact Hall].
      intros x Hx. now apply (key_le_trans k h x).
    + constructor; [exact IH|].
      eapply Permutation_Forall; [apply sort_insert_perm|].
      constructor; [|exact Hall].
      destruct (String.leb_total k h) as [H|H]; [congruence|exact H].
Qed.

Lemma sort_sorted (l : list string) : StronglySorted JS.key_le (JS.sort l).
Proof.
  induction l as [|h t IH]; simpl; [constructor|].
  now apply sort_insert_sorted.
Qed.

(** A sorted list is the only sorted arrangement of its elements. *)
Lemma sorted_perm_unique (l1 l2 : list string) :
  StronglySorted JS.key_le l1 -> StronglySorted JS.key_le l2 ->
  Permutation l1 l2 -> l1 = l2.
Proof.
  intros H1. revert l2. induction H1 as [|a l1 Hs1 IH Ha]; intros l2 H2 Hp.
  - now apply Permutation_nil in Hp.
  - destruct H2 as [|b l2 Hs2 Hb].
    + symmetry in Hp. now apply Permutation_nil in Hp.
    + assert (a = b) as <-.
      { assert (Hin1 : In a (b :: l2)) by (eapply Permutation_in; [exact Hp|now left]).
        assert (Hin2 : In b (a :: l1))
          by (eapply Permutation_in; [symmetry; exact Hp|now left]).
        destruct Hin1 as [->|Hin1]; [reflexivity|].
        destruct Hin2 as [->|Hin2]; [reflexivity|].
        rewrite Forall_forall in Ha, Hb.
        apply String.leb_antisym; [now apply Ha|now apply Hb]. }
      f_equal. apply IH; [exact Hs2|].
      now apply Permutation_cons_inv in Hp.
Qed.

Lemma sort_permutation_invariant (l1 l2 : list string) :
  Permutation l1 l2 -> JS.sort l1 = JS.sort l2.
Proof.
  intros Hp. apply sorted_perm_unique; try apply sort_sorted.
  now rewrite <- !sort_perm.
Qed.

(** ** Objects as maps *)

Section ObjFacts.
Context {V : Type}.
Implicit Types (o : JS.Obj V) (k : string) (v : V).

Lemma obj_has_In o k : JS.obj_has o k = true <-> In k (JS.obj_keys o).
Proof.
  unfold JS.obj_has, JS.obj_keys. rewrite existsb_exists, in_map_iff.
  split.
  - intros (p & Hp & He). apply String.eqb_eq in He. eauto.
  - intros (p & He & Hp). exists p. split; [exact Hp|]. now apply String.eqb_eq.
Qed.

Lemma obj_has_false o k : JS.obj_has o k = false <-> ~ In k (JS.obj_keys o).
Proof. rewrite <- obj_has_In. now destruct (JS.obj_has o k). Qed.

Lemma obj_get_In o k : JS.obj_get o k <> None <-> In k (JS.obj_keys o).
Proof.
  induction o as [|[k' v'] r IH]; simpl; [tauto|].
  destruct (String.eqb_spec k' k) as [->|Hne].
  - split; [now left|discriminate].
  - rewrite IH. split; [now right|]. now intros [H|H].
Qed.

Lemma obj_get_None o k : JS.obj_get o k = None <-> ~ In k (JS.obj_keys o).
Proof.
  rewrite <- obj_get_In. destruct (JS.obj_get o k); split; try congruence.
  intros H. now contradiction H.
Qed.

Lemma obj_keys_update o k v : JS.obj_keys (JS.obj_update o k v) = JS.obj_keys o.
Proof.
  induction o as [|[k' v'] r IH]; simpl; [reflexivity|].
  destruct (String.eqb k' k); simpl; [reflexivity|]. now f_equal.
Qed.

Lemma obj_get_update o k v k' :
  In k (JS.obj_keys o) ->
  JS.obj_get (JS.obj_update o k v) k'
  = if String.eqb k k' then Some v else JS.obj_get o k'.
Proof.
  induction o as [|[k0 v0] r IH]; simpl; [tauto|]. intros Hin.
  destruct (String.eqb_spec k0 k) as [->|Hne]; simpl.
  - destruct (String.eqb k k'); reflexivity.
  - destruct Hin as [Hin|Hin]; [contradiction|].
    rewrite (IH Hin).
    destruct (String.eqb_spec k0 k') as [->|Hne'].
    + destruct (String.eqb_spec k k'); [congruence|reflexivity].
    + reflexivity.
Qed.

Lemma obj_keys_insert_index n o k v :
  Permutation (k :: JS.obj_keys o) (JS.obj_keys (JS.obj_insert_index n k v o)).
Proof.
  induction o as [|[k' v'] r IH]; simpl; [reflexivity|].
  destruct (JS.array_index k') as [m|]; [|reflexivity].
  destruct (n <? m)%N; [reflexivity|]. simpl.
  rewrite perm_swap. now apply perm_skip.
Qed.

Lemma obj_get_insert_index n o k v k' :
  ~ In k (JS.obj_keys o) ->
  JS.obj_get (JS.obj_insert_index n k v o) k'
  = if String.eqb k k' then Some v else JS.obj_get o k'.
Proof.
  induction o as [|[k0 v0] r IH]; simpl; [reflexivity|]. intros Hnin.
  destruct (JS.array_index k0) as [m|]; [|reflexivity].
  destruct (n <? m)%N; [reflexivity|]. simpl.
  rewrite IH by tauto.
  destruct (String.eqb_spec k0 k') as [->|Hne]; [|reflexivity].
  destruct (String.eqb_spec k k') as [->|]; [tauto|reflexivity].
Qed.

Lemma obj_get_app_new o k v k' :
  ~ In k (JS.obj_keys o) ->
  JS.obj_get (o ++ [(k, v)])%list k'
  = if String.eqb k k' then Some v else JS.obj_get o k'.
Proof.
  induction o as [|[k0 v0] r IH]; simpl; [reflexivity|]. intros Hnin.
  rewrite IH by tauto.
  destruct (String.eqb_spec k0 k') as [->|Hne]; [|reflexivity].
  destruct (String.eqb_spec k k') as [->|]; [tauto|reflexivity].
Qed.

(** Reading after defining. *)
Lemma obj_get_define o k v k' :
  JS.obj_get (JS.obj_define o k v) k'
  = if String.eqb k k' then Some v else JS.obj_get o k'.
Proof.
  unfold JS.obj_define. destruct (JS.obj_has o k) eqn:E.
  - apply obj_get_update. now apply obj_has_In.
  - apply obj_has_false in E.
    destruct (JS.array_index k);
      [now apply obj_get_insert_index|now apply obj_get_app_new].
Qed.

Lemma obj_keys_define_old o k v :
  JS.obj_has o k = true -> JS.obj_keys (JS.obj_define o k v) = JS.obj_keys o.
Proof. unfold JS.obj_define. intros ->. apply obj_keys_update. Qed.

Lemma obj_keys_define_new o k v :
  JS.obj_has o k = false ->
  Permutation (k :: JS.obj_keys o) (JS.obj_keys (JS.obj_define o k v)).
Proof.
  unfold JS.obj_define. intros ->.
  destruct (JS.array_index k); [apply obj_keys_insert_index|].
  unfold JS.obj_keys. rewrite map_app. simpl. apply Permutation_cons_append.
Qed.

Lemma obj_keys_define_NoDup o k v :
  NoDup (JS.obj_keys o) -> NoDup (JS.obj_keys (JS.obj_define o k v)).
Proof.
  intros Hnd. destruct (JS.obj_has o k) eqn:E.
  - now rewrite obj_keys_define_old.
  - eapply Permutation_NoDup; [now apply obj_keys_define_new|].
    constructor; [now apply obj_has_false|exact Hnd].
Qed.

(** Assigning to a new key that is neither an array index nor
    [__proto__] puts it at the end. *)
Lemma obj_keys_set_named o k v :
  JS.obj_has o k = false -> JS.array_index k = None -> k <> "__proto__" ->
  JS.obj_keys (JS.obj_set o k v) = (JS.obj_keys o ++ [k])%list.
Proof.
  unfold JS.obj_set, JS.obj_define. intros -> -> Hk.
  apply String.eqb_neq in Hk. rewrite Hk.
  unfold JS.obj_keys. now rewrite map_app.
Qed.

Lemma obj_of_entries_NoDup (l : list (string * V)) :
  NoDup (JS.obj_keys (JS.obj_of_entries l)).
Proof.
  unfold JS.obj_of_entries.
  assert (H : forall acc, NoDup (JS.obj_keys acc) ->
                NoDup (JS.obj_keys
                         (fold_left (fun o p => JS.obj_define o (fst p) (snd p)) l acc))).
  { induction l as [|p l IH]; intros acc Hacc; simpl; [exact Hacc|].
    apply IH. now apply obj_keys_define_NoDup. }
  apply H. constructor.
Qed.

(** With pairwise distinct keys, the object built from a list of entries
    maps each key to the value declared for it. *)
Lemma obj_get_of_entries (l : list (string * V)) k :
  NoDup (map fst l) ->
  JS.obj_get (JS.obj_of_entries l) k = JS.obj_get l k.
Proof.
  unfold JS.obj_of_entries.
  assert (H : forall acc, NoDup (map fst l) ->
                JS.obj_get (fold_left (fun o p => JS.obj_define o (fst p) (snd p)) l acc) k
                = match JS.obj_get l k with
                  | Some v => Some v
                  | None => JS.obj_get acc k
                  end).
  { induction l as [|[k0 v0] l IH]; intros acc Hnd; simpl; [reflexivity|].
    inversion Hnd as [|? ? Hnin Hnd']; subst.
    rewrite (IH _ Hnd'), obj_get_define. simpl.
    destruct (String.eqb_spec k0 k) as [->|Hne].
    - apply (proj2 (obj_get_None l k)) in Hnin. now rewrite Hnin.
    - reflexivity. }
  intros Hnd. rewrite (H [] Hnd). simpl. now destruct (JS.obj_get l k).
Qed.

Lemma obj_get_Some_In (l : list (string * V)) k v :
  NoDup (map fst l) -> (JS.obj_get l k = Some v <-> In (k, v) l).
Proof.
  induction l as [|[k0 v0] l IH]; simpl; intros Hnd.
  - split; [discriminate|tauto].
  - inversion Hnd as [|? ? Hnin Hnd']; subst.
    destruct (String.eqb_spec k0 k) as [->|Hne].
    + split.
      * intros [= ->]. now left.
      * intros [[= ->]|Hin]; [reflexivity|].
        contradiction Hnin. apply in_map_iff. now exists (k, v).
    + rewrite (IH Hnd'). split; [now right|].
      intros [[= -> ->]|Hin]; [contradiction|exact Hin].
Qed.

Lemma obj_get_permutation (l1 l2 : list (string * V)) k :
  NoDup (map fst l1) -> Permutation l1 l2 -> JS.obj_get l1 k = JS.obj_get l2 k.
Proof.
  intros Hnd Hp.
  assert (Hnd2 : NoDup (map fst l2))
    by (eapply Permutation_NoDup; [apply Permutation_map; exact Hp|exact Hnd]).
  destruct (JS.obj_get l1 k) as [v|] eqn:E1.
  - apply (obj_get_Some_In l1 k v Hnd) in E1.
    symmetry. apply (obj_get_Some_In l2 k v Hnd2).
    eapply Permutation_in; eassumption.
  - destruct (JS.obj_get l2 k) as [v|] eqn:E2; [|reflexivity].
    apply (obj_get_Some_In l2 k v Hnd2) in E2.
    assert (Hin : In (k, v) l1)
      by (eapply Permutation_in; [symmetry; exact Hp|exact E2]).
    apply (obj_get_Some_In l1 k v Hnd) in Hin. congruence.
Qed.

(** Two objects that hold the same properties list the same keys, up to
    their order. *)
Lemma obj_keys_permutation o1 o2 :
  NoDup (JS.obj_keys o1) -> NoDup (JS.obj_keys o2) ->
  (forall k, JS.obj_get o1 k = JS.obj_get o2 k) ->
  Permutation (JS.obj_keys o1) (JS.obj_keys o2).
Proof.
  intros H1 H2 Hget. apply NoDup_Permutation; try assumption.
  intros k. rewrite <- !obj_get_In, Hget. reflexivity.
Qed.
End ObjFacts.

(** ** writeLockfile *)

Lemma sortedImportMap_ext (o1 o2 : JS.Obj string) :
  JS.sort (JS.obj_keys o1) = JS.sort (JS.obj_keys o2) ->
  (forall k, JS.obj_get o1 k = JS.obj_get o2 k) ->
  Util.sortedImportMap {| Util.imports := o1 |}
  = Util.sortedImportMap {| Util.imports := o2 |}.
Proof.
  intros Hkeys Hget. unfold Util.sortedImportMap. simpl. rewrite Hkeys.
  clear Hkeys.
  generalize (@nil (string * option string)) as acc.
  induction (JS.sort (JS.obj_keys o2)) as [|k l IH]; intros acc; simpl;
    [reflexivity|].
  rewrite Hget. apply IH.
Qed.

(** The file written depends on the properties of the import map only,
    not on the order in which they were created. *)
Lemma writeLockfile_same_properties (loc : string) (o1 o2 : JS.Obj string) :
  NoDup (JS.obj_keys o1) -> NoDup (JS.obj_keys o2) ->
  (forall k, JS.obj_get o1 k = JS.obj_get o2 k) ->
  Util.writeLockfile loc {| Util.imports := o1 |}
  = Util.writeLockfile loc {| Util.imports := o2 |}.
Proof.
  intros H1 H2 Hget. unfold Util.writeLockfile.
  rewrite (sortedImportMap_ext o1 o2); [reflexivity| |exact Hget].
  apply sort_permutation_invariant. now apply obj_keys_permutation.
Qed.

(** X8: lockfile determinism.  Two import maps built from the same
    entries, with pairwise distinct keys, declared in different orders, are
    written as the same file. *)
Lemma writeLockfile_declaration_order (loc : string) (l1 l2 : list (string * string)) :
  NoDup (map fst l1) -> Permutation l1 l2 ->
  Util.writeLockfile loc {| Util.imports := JS.obj_of_entries l1 |}
  = Util.writeLockfile loc {| Util.imports := JS.obj_of_entries l2 |}.
Proof.
  intros Hnd Hp.
  assert (Hnd2 : NoDup (map fst l2))
    by (eapply Permutation_NoDup; [apply Permutation_map; exact Hp|exact Hnd]).
  apply writeLockfile_same_properties; try apply obj_of_entries_NoDup.
  intros k. rewrite !obj_get_of_entries by assumption.
  now apply obj_get_permutation.
Qed.

(** X9: when no key of the import map is an array index or [__proto__],
    the keys are written in the order of the sort, which is ascending. *)
Lemma sortedImportMap_named_keys (o : JS.Obj string) :
  NoDup (JS.obj_keys o) ->
  Forall (fun k => JS.array_index k = None /\ k <> "__proto__") (JS.obj_keys o) ->
  JS.obj_keys (Util.sortedImportMap {| Util.imports := o |}) = JS.sort (JS.obj_keys o)
  /\ StronglySorted JS.key_le (JS.obj_keys (Util.sortedImportMap {| Util.imports := o |})).
Proof.
  intros Hnd Hnamed.
  assert (Hnd' : NoDup (JS.sort (JS.obj_keys o)))
    by (eapply Permutation_NoDup; [apply sort_perm|exact Hnd]).
  assert (Hnamed' : Forall (fun k => JS.array_index k = None /\ k <> "__proto__")
                      (JS.sort (JS.obj_keys o)))
    by (eapply Permutation_Forall; [apply sort_perm|exact Hnamed]).
  assert (H : forall l acc,
             NoDup (JS.obj_keys acc ++ l)%list ->
             Forall (fun k => JS.array_index k = None /\ k <> "__proto__") l ->
             JS.obj_keys
               (fold_left (fun sorted key =>
                             JS.obj_set sorted key (JS.obj_get o key)) l acc)
             = (JS.obj_keys acc ++ l)%list).
  { induction l as [|k l IH]; intros acc Hacc Hl; simpl.
    - now rewrite app_nil_r.
    - inversion Hl as [|? ? [Hk Hproto] Hl']; subst.
      assert (Hkeys : JS.obj_keys (JS.obj_set acc k (JS.obj_get o k))
                      = (JS.obj_keys acc ++ [k])%list).
      { apply obj_keys_set_named; [|exact Hk|exact Hproto].
        apply obj_has_false. intros Hin.
        apply NoDup_remove_2 in Hacc. apply Hacc. apply in_or_app. now left. }
      rewrite IH;
        [rewrite Hkeys, <- app_assoc; reflexivity
        |rewrite Hkeys, <- app_assoc; exact Hacc
        |exact Hl']. }
  specialize (H (JS.sort (JS.obj_keys o)) [] Hnd' Hnamed').
  unfold Util.sortedImportMap. simpl in *.
  split; [exact H|]. rewrite H. apply sort_sorted.
Qed.

(** The assignment in the loop does not reach a key [__proto__]: such an
    entry is left out of the file. *)
Example sortedImportMap_proto_key :
  JS.obj_keys (Util.imports Examples.proto_import_map) = ["react"; "__proto__"]
  /\ Util.sortedImportMap Examples.proto_import_map = [("react", Some "./react.js")].
Proof. split; reflexivity. Qed.

(** C3, at an import map whose keys are the numerals 10 and 9: the keys
    are sorted as strings ("10" before "9") and assigned in that order, but
    the object lists array-index keys by numeric value, so the file shows
    "9" before "10": the keys written are not in lexicographic order. *)
Theorem writeLockfile_numeral_keys_not_sorted :
  JS.sort (JS.obj_keys (Util.imports Examples.numeric_import_map)) = ["10"; "9"]
  /\ JS.obj_keys (Util.sortedImportMap Examples.numeric_import_map) = ["9"; "10"]
  /\ ~ StronglySorted JS.key_le
         (JS.obj_keys (Util.sortedImportMap Examples.numeric_import_map))
  /\ Util.writeLockfile "snowpack.lock.json" Examples.numeric_import_map
     = ("snowpack.lock.json", JS.utf8_encode Examples.numeric_lockfile_text).
Proof.
  repeat split.
  intros H. change (StronglySorted JS.key_le ["9"; "10"]) in H.
  inversion H as [|? ? _ Hall]; subst.
  inversion Hall as [|? ? Hle _]; subst.
  discriminate Hle.
Qed.

(** ** findMatchingAliasEntry *)

Lemma startsWith_iff (p s : string) :
  JS.startsWith p s = true <-> exists rest, s = p ++ rest.
Proof.
  revert s. induction p as [|c p IH]; intros s; simpl.
  - split; [intros _; now exists s|reflexivity].
  - destruct s as [|d s].
    + split; [discriminate|]. intros [rest H]. discriminate.
    + rewrite andb_true_iff, IH. split.
      * intros [Hc [rest ->]]. apply Ascii.eqb_eq in Hc as ->. now exists rest.
      * intros [rest [= -> ->]]. split; [apply Ascii.eqb_refl|now exists rest].
Qed.

Lemma addTrailingSlash_spec (s : string) :
  Util.addTrailingSlash s = if JS.endsWith_slash s then s else s ++ "/".
Proof.
  induction s as [|c rest IH]; [reflexivity|].
  cbn [Util.addTrailingSlash JS.endsWith_slash].
  destruct rest as [|d rest].
  - simpl. destruct (Ascii.eqb_spec c "/") as [->|]; reflexivity.
  - rewrite andb_false_r, IH.
    destruct (JS.endsWith_slash (String d rest)); reflexivity.
Qed.

Lemma all_sep_app (a b : string) :
  JS.all_sep (a ++ b) = JS.all_sep a && JS.all_sep b.
Proof.
  induction a as [|c a IH]; simpl; [reflexivity|].
  now rewrite IH, andb_assoc.
Qed.

Lemma all_sep_ends (s : string) :
  JS.all_sep s = true -> s <> EmptyString -> JS.ends_with_sep s = true.
Proof.
  induction s as [|c s IH]; [congruence|].
  cbn [JS.all_sep JS.ends_with_sep]. intros H _.
  apply andb_true_iff in H as [Hc Hs].
  destruct s as [|d s]; [exact Hc|]. apply IH; [exact Hs|discriminate].
Qed.

Lemma removeTrailingSlash_empty (s : string) :
  Util.removeTrailingSlash s = EmptyString <-> JS.all_sep s = true.
Proof.
  destruct s as [|c s]; [now split|].
  cbn [Util.removeTrailingSlash].
  destruct (JS.all_sep (String c s)); split; congruence.
Qed.

(** What [removeTrailingSlash] removes is a run of separators... *)
Lemma removeTrailingSlash_decompose (s : string) :
  exists seps, JS.all_sep seps = true /\ s = Util.removeTrailingSlash s ++ seps.
Proof.
  induction s as [|c s (seps & Hseps & Hs)].
  - now exists EmptyString.
  - cbn [Util.removeTrailingSlash].
    destruct (JS.all_sep (String c s)) eqn:E.
    + now exists (String c s).
    + exists seps. split; [exact Hseps|]. simpl. now f_equal.
Qed.

(** ... and what it leaves does not end in one. *)
Lemma removeTrailingSlash_trimmed (s : string) :
  JS.ends_with_sep (Util.removeTrailingSlash s) = false.
Proof.
  induction s as [|c s IH]; [reflexivity|].
  cbn [Util.removeTrailingSlash].
  destruct (JS.all_sep (String c s)) eqn:E; [reflexivity|].
  cbn [JS.ends_with_sep].
  destruct (Util.removeTrailingSlash s) eqn:R; [|exact IH].
  apply removeTrailingSlash_empty in R. simpl in E. rewrite R, andb_true_r in E.
  exact E.
Qed.

Lemma removeTrailingSlash_app (s seps : string) :
  JS.ends_with_sep s = false -> JS.all_sep seps = true ->
  Util.removeTrailingSlash (s ++ seps) = s.
Proof.
  induction s as [|c s IH]; intros Hs Hseps.
  - now apply removeTrailingSlash_empty.
  - change (String c s ++ seps) with (String c (s ++ seps)).
    cbn [Util.removeTrailingSlash].
    assert (E : JS.all_sep (String c (s ++ seps)) = false).
    { change (String c (s ++ seps)) with (String c s ++ seps).
      rewrite all_sep_app.
      destruct (JS.all_sep (String c s)) eqn:A; [|reflexivity].
      apply all_sep_ends in A; [congruence|discriminate]. }
    rewrite E. f_equal. apply IH; [|exact Hseps].
    destruct s; [reflexivity|exact Hs].
Qed.

(** The test the loop applies to one key, in words. *)
Lemma alias_test_accepts (from spec : string) :
  Util.isExactMatch from spec || Util.isDeepMatch from spec = true
  <-> AliasRule.accepts from spec.
Proof.
  unfold Util.isExactMatch, Util.isDeepMatch, AliasRule.accepts.
  rewrite orb_true_iff, String.eqb_eq, startsWith_iff, addTrailingSlash_spec.
  split; (intros [H|H]; [left|right; exact H]).
  - subst spec. split; [apply removeTrailingSlash_trimmed|].
    apply removeTrailingSlash_decompose.
  - destruct H as (Htrim & seps & Hseps & ->).
    symmetry. now apply removeTrailingSlash_app.
Qed.

Lemma findAliasLoop_first (isAbs : string -> bool)
      (entries : list (string * string)) (spec : string) :
  match Util.findAliasLoop isAbs entries spec with
  | Some e =>
      exists before after,
        entries = (before ++ (Util.from e, Util.to e) :: after)%list
        /\ AliasRule.accepts (Util.from e) spec
        /\ Forall (fun entry => ~ AliasRule.accepts (fst entry) spec) before
        /\ Util.type e = (if isAbs (Util.to e) then Util.path else Util.package)
  | None => Forall (fun entry => ~ AliasRule.accepts (fst entry) spec) entries
  end.
Proof.
  induction entries as [|[from to] rest IH]; simpl; [constructor|].
  destruct (Util.isExactMatch from spec || Util.isDeepMatch from spec) eqn:E.
  - exists [], rest. simpl. repeat split.
    + now apply alias_test_accepts.
    + constructor.
    + unfold Util.isPackageAliasEntry. now destruct (isAbs to).
  - assert (Hno : ~ AliasRule.accepts from spec)
      by (rewrite <- alias_test_accepts; congruence).
    destruct (Util.findAliasLoop isAbs rest spec) as [e|].
    + destruct IH as (before & after & -> & Hacc & Hbefore & Hty).
      exists ((from, to) :: before), after. repeat split; try assumption.
      now constructor.
    + now constructor.
Qed.

(** *** Where the rule of the design document and the code agree

    A key is tidy when, a single trailing slash apart, it does not end in a
    separator. *)

Lemma trim_slash_decompose (s : string) :
  s = AliasRule.trim_slash s \/ s = AliasRule.trim_slash s ++ "/".
Proof.
  induction s as [|c s IH]; [now left|].
  cbn [AliasRule.trim_slash].
  destruct (Ascii.eqb_spec c "/") as [->|Hc]; cbn [andb].
  - destruct (String.eqb_spec s EmptyString) as [->|Hs]; [now right|].
    destruct IH as [IH|IH]; [left|right]; simpl; now f_equal.
  - destruct IH as [IH|IH]; [left|right]; simpl; now f_equal.
Qed.

Lemma trim_slash_app (a b : string) :
  b <> EmptyString -> AliasRule.trim_slash (a ++ b) = a ++ AliasRule.trim_slash b.
Proof.
  intros Hb. induction a as [|c a IH]; [reflexivity|].
  change (String c a ++ b) with (String c (a ++ b)).
  cbn [AliasRule.trim_slash].
  destruct (String.eqb_spec (a ++ b) EmptyString) as [E|_].
  - destruct a; [contradiction|discriminate].
  - rewrite andb_false_r, IH. reflexivity.
Qed.

Lemma endsWith_slash_sep (s : string) :
  JS.endsWith_slash s = true -> JS.ends_with_sep s = true.
Proof.
  induction s as [|c s IH]; [discriminate|].
  cbn [JS.endsWith_slash JS.ends_with_sep].
  destruct s; [|exact IH]. unfold JS.is_sep. now intros ->.
Qed.

Lemma endsWith_slash_app (s : string) : JS.endsWith_slash (s ++ "/") = true.
Proof.
  induction s as [|c s IH]; [reflexivity|].
  change (String c s ++ "/") with (String c (s ++ "/")).
  cbn [JS.endsWith_slash]. destruct (s ++ "/") eqn:E; [|exact IH].
  destruct s; discriminate.
Qed.

Lemma trim_slash_trimmed (s : string) :
  JS.endsWith_slash s = false -> AliasRule.trim_slash s = s.
Proof.
  induction s as [|c s IH]; [reflexivity|].
  cbn [JS.endsWith_slash AliasRule.trim_slash]. destruct s as [|d s].
  - intros ->. reflexivity.
  - intros H. rewrite andb_false_r, (IH H). reflexivity.
Qed.

Lemma trim_slash_added (s : string) : AliasRule.trim_slash (s ++ "/") = s.
Proof.
  induction s as [|c s IH]; [reflexivity|].
  change (String c s ++ "/") with (String c (s ++ "/")).
  cbn [AliasRule.trim_slash]. rewrite IH.
  destruct (String.eqb_spec (s ++ "/") EmptyString) as [E|_];
    [destruct s; discriminate|]. now rewrite andb_false_r.
Qed.

Lemma not_ends_with_sep_slash (s : string) :
  JS.ends_with_sep s = false -> JS.endsWith_slash s = false.
Proof.
  intros H. destruct (JS.endsWith_slash s) eqn:E; [|reflexivity].
  apply endsWith_slash_sep in E. congruence.
Qed.

Lemma string_app_assoc (a b c : string) : (a ++ b) ++ c = a ++ (b ++ c).
Proof. induction a as [|x a IH]; simpl; [reflexivity|now rewrite IH]. Qed.

Lemma string_app_nil_r (a : string) : a ++ EmptyString = a.
Proof. induction a as [|x a IH]; simpl; [reflexivity|now rewrite IH]. Qed.

(** On a tidy key the code and the rule of the design document decide
    alike, for every specifier. *)
Lemma alias_rule_agrees_on_tidy_keys (from spec : string) :
  JS.ends_with_sep (AliasRule.trim_slash from) = false ->
  Util.isExactMatch from spec || Util.isDeepMatch from spec
  = AliasRule.matches from spec.
Proof.
  intros Htidy. set (key := AliasRule.trim_slash from) in *.
  pose proof (not_ends_with_sep_slash key Htidy) as Hkey.
  assert (Hrm : Util.removeTrailingSlash from = key).
  { destruct (trim_slash_decompose from) as [E|E]; fold key in E; rewrite E.
    - rewrite <- (string_app_nil_r key) at 1.
      now apply removeTrailingSlash_app.
    - now apply removeTrailingSlash_app. }
  assert (Hadd : Util.addTrailingSlash from = key ++ "/").
  { rewrite addTrailingSlash_spec.
    destruct (trim_slash_decompose from) as [E|E]; fold key in E; rewrite E.
    - now rewrite Hkey.
    - now rewrite endsWith_slash_app. }
  unfold Util.isExactMatch, Util.isDeepMatch, AliasRule.matches. fold key.
  rewrite Hrm, Hadd.
  apply eq_true_iff_eq. rewrite !orb_true_iff, !String.eqb_eq, !startsWith_iff.
  split.
  - intros [H|[rest H]].
    + left. rewrite H. now apply trim_slash_trimmed.
    + destruct rest as [|c rest].
      * left. rewrite H, string_app_nil_r. apply trim_slash_added.
      * right. exists (AliasRule.trim_slash (String c rest)).
        rewrite H. apply trim_slash_app. discriminate.
  - destruct (trim_slash_decompose spec) as [E|E].
    + rewrite <- E. tauto.
    + intros [H|[rest H]]; right.
      * exists EmptyString. rewrite E, H, string_app_nil_r. reflexivity.
      * exists (rest ++ "/"). rewrite E, H, string_app_assoc. reflexivity.
Qed.

(** C4, as the code has it: a specifier that is relative, absolute or an
    http(s) URL never matches.  For any other specifier the entry returned
    is the first one of the table, in its enumeration order, whose key
    accepts the specifier as written: the specifier equals the key without
    its trailing slashes and backslashes, or begins with the key followed
    by ['/'] (by the key itself when it ends in ['/']); no entry is
    returned when no key accepts.  For the alias [comp], the specifiers
    [comp] and [comp/sub] match and [component] does not. *)
Theorem findMatchingAliasEntry_first_accepting
  (isAbs : string -> bool) (alias : JS.Obj string) (spec : string) :
  (Util.not_bare spec = true -> Util.findMatchingAliasEntry isAbs alias spec = None)
  /\ (Util.not_bare spec = false ->
      match Util.findMatchingAliasEntry isAbs alias spec with
      | Some e =>
          exists before after,
            JS.obj_entries alias = (before ++ (Util.from e, Util.to e) :: after)%list
            /\ AliasRule.accepts (Util.from e) spec
            /\ Forall (fun entry => ~ AliasRule.accepts (fst entry) spec) before
            /\ Util.type e = (if isAbs (Util.to e) then Util.path else Util.package)
      | None =>
          Forall (fun entry => ~ AliasRule.accepts (fst entry) spec)
                 (JS.obj_entries alias)
      end)
  /\ option_map Util.from (Util.findMatchingAliasEntry isAbs Examples.comp_alias "comp")
     = Some "comp"
  /\ option_map Util.from
       (Util.findMatchingAliasEntry isAbs Examples.comp_alias "comp/sub")
     = Some "comp"
  /\ Util.findMatchingAliasEntry isAbs Examples.comp_alias "component" = None.
Proof.
  unfold Util.findMatchingAliasEntry. repeat split.
  - now intros ->.
  - intros ->. apply findAliasLoop_first.
Qed.

Lemma findMatchingAliasEntry_first_accepting_witness :
  Util.findMatchingAliasEntry Posix.isAbsolute Examples.comp_alias "./comp" = None
  /\ exists e,
       Util.findMatchingAliasEntry Posix.isAbsolute
         [("react", "preact/compat"); ("comp", "/src/comp"); ("comp/", "other")]
         "comp/sub" = Some e
       /\ Util.from e = "comp" /\ Util.to e = "/src/comp" /\ Util.type e = Util.path.
Proof.
  split.
  - apply (proj1 (findMatchingAliasEntry_first_accepting
                    Posix.isAbsolute Examples.comp_alias "./comp")).
    reflexivity.
  - pose proof (proj1 (proj2 (findMatchingAliasEntry_first_accepting Posix.isAbsolute
                    [("react", "preact/compat"); ("comp", "/src/comp"); ("comp/", "other")]
                    "comp/sub")) eq_refl) as H.
    destruct (Util.findMatchingAliasEntry Posix.isAbsolute _ "comp/sub") as [e|] eqn:E;
      [|discriminate E].
    exists e. split; [reflexivity|].
    injection E as <-. repeat split.
Defined.

(** C4 as stated fails: with the key [comp//] the rule of trimming a
    single slash from key and specifier rejects the specifier [comp], and
    the code returns the entry. *)
Lemma findMatchingAliasEntry_not_single_trim :
  Util.not_bare "comp" = false
  /\ AliasRule.findMatchingAliasEntry Examples.comp_alias_slashes "comp" = None
  /\ option_map Util.from
       (Util.findMatchingAliasEntry Posix.isAbsolute Examples.comp_alias_slashes "comp")
     = Some "comp//".
Proof. repeat split. Qed.

(** ** Import rewriting *)

Lemma endsWith_app (pre suffix : string) : JS.endsWith suffix (pre ++ suffix) = true.
Proof.
  induction pre as [|c pre IH].
  - destruct suffix; simpl; now rewrite ?Ascii.eqb_refl, ?String.eqb_refl.
  - change (String c pre ++ suffix) with (String c (pre ++ suffix)).
    cbn [JS.endsWith]. rewrite IH. apply orb_true_r.
Qed.

Lemma endsWith_cons (suffix s : string) (c : ascii) :
  JS.endsWith suffix s = true -> JS.endsWith suffix (String c s) = true.
Proof. intros H. cbn [JS.endsWith]. rewrite H. apply orb_true_r. Qed.

Lemma set_add_In (x : string) (set : list string) : In x (Build.set_add x set).
Proof.
  unfold Build.set_add. destruct (existsb (String.eqb x) set) eqn:E.
  - apply existsb_exists in E as (y & Hy & He). apply String.eqb_eq in He. now subst.
  - apply in_or_app. right. now left.
Qed.

Lemma set_add_keeps (x y : string) (set : list string) :
  In y set -> In y (Build.set_add x set).
Proof.
  unfold Build.set_add. intros H.
  destruct (existsb (String.eqb x) set); [exact H|]. apply in_or_app. now left.
Qed.

Lemma truthy_true (s : string) : Build.truthy s = true <-> s <> EmptyString.
Proof.
  unfold Build.truthy. rewrite negb_true_iff. apply String.eqb_neq.
Qed.

Section RewriteFacts.
Variable P : Build.PathModule.
Variable removeLeadingSlash : string -> string.
Variable resolveImportSpecifier : string -> option string.
Variables buildDirectoryLoc outLoc : string.

Let rewrite_ := Build.rewriteSpecifier P removeLeadingSlash resolveImportSpecifier
                  buildDirectoryLoc outLoc.
Let onDisk := Build.onDisk P removeLeadingSlash buildDirectoryLoc outLoc.
Let emitted := Build.emitted P removeLeadingSlash buildDirectoryLoc outLoc.

(** The callback on a specifier that resolves to a URL of the project. *)
Lemma rewriteSpecifier_resolved (spec url0 : string) (proxies : list string) :
  resolveImportSpecifier spec = Some url0 ->
  url0 <> EmptyString ->
  Build.truthy_opt (Build.url_protocol P url0) = false ->
  rewrite_ spec proxies
  = if Build.isProxyImport P url0
    then (emitted (url0 ++ Build.proxy_suffix),
          Build.set_add (onDisk (url0 ++ Build.proxy_suffix)) proxies)
    else (emitted url0, proxies).
Proof.
  intros Hres Hne Hproto. apply truthy_true in Hne.
  subst rewrite_ onDisk emitted.
  unfold Build.rewriteSpecifier, Build.emitted, Build.onDisk.
  rewrite Hres, Hne, Hproto. cbn [negb orb]. cbv zeta.
  destruct (Build.isProxyImport P url0);
    match goal with
    | |- context [Build.posix_isAbsolute ?u] =>
        unfold Build.posix_isAbsolute;
        destruct (JS.startsWith "/" u) eqn:Habs; [reflexivity|]
    end.
  - destruct (JS.startsWith "." _); reflexivity.
  - destruct (JS.startsWith "." _); reflexivity.
Qed.

(** A resolution that is not absolute is emitted with a leading dot. *)
Lemma emitted_relative_dotted (u : string) :
  Build.posix_isAbsolute u = false -> JS.startsWith "." (emitted u) = true.
Proof.
  intros Habs. subst emitted. unfold Build.emitted. rewrite Habs.
  destruct (JS.startsWith "." u) eqn:E; [exact E|reflexivity].
Qed.

Lemma emitted_relative_suffix (u suffix : string) :
  Build.posix_isAbsolute (u ++ suffix) = false ->
  JS.endsWith suffix (emitted (u ++ suffix)) = true.
Proof.
  intros Habs. subst emitted. unfold Build.emitted. rewrite Habs.
  destruct (JS.startsWith "." (u ++ suffix)); [apply endsWith_app|].
  change ("./" ++ (u ++ suffix)) with (String "." (String "/" (u ++ suffix))).
  do 2 apply endsWith_cons. apply endsWith_app.
Qed.
End RewriteFacts.

(** C5: a specifier whose resolved target is not a URL and has an
    extension other than [.js] is rewritten from the target's path with
    [.proxy.js] appended, and the place of that proxy in the output tree
    joins the set of proxy files. *)
Theorem rewriteSpecifier_proxy
  (P : Build.PathModule) (removeLeadingSlash : string -> string)
  (resolveImportSpecifier : string -> option string)
  (buildDirectoryLoc outLoc spec url0 : string) (proxies : list string) :
  resolveImportSpecifier spec = Some url0 ->
  url0 <> EmptyString ->
  Build.truthy_opt (Build.url_protocol P url0) = false ->
  Build.extname P url0 <> EmptyString ->
  Build.extname P url0 <> ".js" ->
  let proxyUrl := url0 ++ ".proxy.js" in
  let proxyLoc := Build.onDisk P removeLeadingSlash buildDirectoryLoc outLoc proxyUrl in
  let result := Build.rewriteSpecifier P removeLeadingSlash resolveImportSpecifier
                  buildDirectoryLoc outLoc spec proxies in
  fst result = Build.emitted P removeLeadingSlash buildDirectoryLoc outLoc proxyUrl
  /\ snd result = Build.set_add proxyLoc proxies
  /\ In proxyLoc (snd result)
  /\ (forall loc, In loc proxies -> In loc (snd result))
  /\ (Build.posix_isAbsolute url0 = false ->
      JS.endsWith ".proxy.js" (fst result) = true).
Proof.
  intros Hres Hne Hproto Hext Hjs proxyUrl proxyLoc result.
  assert (Hproxy : Build.isProxyImport P url0 = true).
  { unfold Build.isProxyImport. apply andb_true_iff. split.
    - now apply truthy_true.
    - now apply negb_true_iff, String.eqb_neq. }
  assert (E : result = (Build.emitted P removeLeadingSlash buildDirectoryLoc outLoc proxyUrl,
                        Build.set_add proxyLoc proxies)).
  { subst result. rewrite (rewriteSpecifier_resolved _ _ _ _ _ spec url0) by assumption.
    now rewrite Hproxy. }
  rewrite E. simpl. repeat split.
  - apply set_add_In.
  - intros loc. apply set_add_keeps.
  - intros Habs. apply emitted_relative_suffix.
    unfold Build.posix_isAbsolute in *. destruct url0 as [|c u]; [congruence|exact Habs].
Qed.

(** X17: a specifier that resolves to a target of the project without an
    extension, or with the extension [.js], gets no proxy: the set of
    proxy files is left as it was, and the specifier emitted is the one
    of the target itself. *)
Lemma rewriteSpecifier_no_proxy
  (P : Build.PathModule) (removeLeadingSlash : string -> string)
  (resolveImportSpecifier : string -> option string)
  (buildDirectoryLoc outLoc spec url0 : string) (proxies : list string) :
  resolveImportSpecifier spec = Some url0 ->
  url0 <> EmptyString ->
  Build.truthy_opt (Build.url_protocol P url0) = false ->
  Build.extname P url0 = EmptyString \/ Build.extname P url0 = ".js" ->
  Build.rewriteSpecifier P removeLeadingSlash resolveImportSpecifier
    buildDirectoryLoc outLoc spec proxies
  = (Build.emitted P removeLeadingSlash buildDirectoryLoc outLoc url0, proxies).
Proof.
  intros Hres Hne Hproto Hext.
  rewrite (rewriteSpecifier_resolved _ _ _ _ _ spec url0) by assumption.
  unfold Build.isProxyImport. destruct Hext as [-> | ->]; reflexivity.
Qed.

Lemma rewriteSpecifier_proxy_witness :
  Examples.project_rewrite "/proj/build/index.js" "./style.css" []
  = ("./style.css.proxy.js", ["/proj/build/style.css.proxy.js"]).
Proof.
  assert (Hext : Build.extname Examples.project_path "./style.css" <> EmptyString)
    by (vm_compute; discriminate).
  assert (Hjs : Build.extname Examples.project_path "./style.css" <> ".js")
    by (vm_compute; discriminate).
  assert (Hne : "./style.css" <> EmptyString) by discriminate.
  destruct (rewriteSpecifier_proxy Examples.project_path Util.removeLeadingSlash
              Examples.project_resolver "/proj/build" "/proj/build/index.js"
              "./style.css" "./style.css" [] eq_refl Hne eq_refl Hext Hjs)
    as (H1 & H2 & _).
  unfold Examples.project_rewrite.
  apply injective_projections; [rewrite H1|rewrite H2]; vm_compute; reflexivity.
Defined.

(** The specifiers the callback leaves alone: the resolver gave nothing,
    or gave a URL with a protocol. *)
Lemma rewriteSpecifier_unresolved
  (P : Build.PathModule) (removeLeadingSlash : string -> string)
  (resolveImportSpecifier : string -> option string)
  (buildDirectoryLoc outLoc spec : string) (proxies : list string) :
  Build.passes_through P (resolveImportSpecifier spec) = true ->
  Build.rewriteSpecifier P removeLeadingSlash resolveImportSpecifier
    buildDirectoryLoc outLoc spec proxies = (spec, proxies).
Proof.
  unfold Build.passes_through, Build.rewriteSpecifier.
  destruct (resolveImportSpecifier spec) as [u|]; [|reflexivity].
  now intros ->.
Qed.

Section RewriteFileFacts.
Variable P : Build.PathModule.
Variable removeLeadingSlash : string -> string.
Variable buildDirectoryLoc : string.
Variable createImportResolver : string -> Util.ImportMap -> string -> option string.
Variable specifiersOf : Build.SourceFile -> list string.
Variable replaceSpecifiers : Build.SourceFile -> list string -> string.

Let rewriteFile :=
  Build.rewriteFile P removeLeadingSlash buildDirectoryLoc createImportResolver
    specifiersOf replaceSpecifiers.

(** Rewriting a file always ends with the file written. *)
Lemma rewriteFile_writes (installResult : Build.InstallResult)
      (proxies : list string) (outLoc : string) (file : Build.SourceFile) :
  exists proxies' events code,
    rewriteFile installResult proxies (outLoc, file)
    = (Build.Normal proxies',
       (events ++ [Build.EvWriteRewritten outLoc code])%list)
    /\ Forall (fun ev => exists spec,
                   ev = Build.EvResolveSpecifier outLoc spec
                          (Build.importMap installResult)) events.
Proof.
  subst rewriteFile. unfold Build.rewriteFile.
  set (body := fun (st : list string * list string) (spec : string) => _).
  assert (H : forall specs st, exists st' events,
               Build.for_of specs body st = (Build.Normal st', events)
               /\ Forall (fun ev => exists spec,
                              ev = Build.EvResolveSpecifier outLoc spec
                                     (Build.importMap installResult)) events).
  { induction specs as [|spec specs IH]; intros [emitted prox].
    - exists (emitted, prox), []. split; [reflexivity|constructor].
    - cbn [Build.for_of].
      assert (Hbody : exists st1,
                 body (emitted, prox) spec
                 = (Build.Normal st1,
                    [Build.EvResolveSpecifier outLoc spec
                       (Build.importMap installResult)])).
      { subst body. cbv beta iota.
        destruct (Build.rewriteSpecifier _ _ _ _ _ spec prox) as [spec' prox'].
        eexists. reflexivity. }
      destruct Hbody as (st1 & ->).
      destruct (IH st1) as (st' & events & Hfor & Hev).
      unfold Build.then_. rewrite Hfor.
      exists st', (Build.EvResolveSpecifier outLoc spec
                     (Build.importMap installResult) :: events).
      split; [reflexivity|]. constructor; [now exists spec|exact Hev]. }
  destruct (H (specifiersOf file) ([], proxies)) as ([emitted prox] & events & -> & Hev).
  exists prox, events, (replaceSpecifiers file emitted).
  split; [|exact Hev]. cbn. now rewrite ?app_nil_r.
Qed.

End RewriteFileFacts.




(** The part of C6 on separators: what the absolute branch returns holds
    no backslash. *)
Lemma backslashes_to_slashes_clean (s : string) :
  forall pre post,
    JS.backslashes_to_slashes s <> pre ++ String "092" post.
Proof.
  induction s as [|c s IH]; intros [|d pre] post; simpl; try discriminate.
  - destruct (Ascii.eqb_spec c "092") as [->|Hc]; intros H;
      injection H as H _; [discriminate H|congruence].
  - intros H. injection H as _ H. now apply IH in H.
Qed.

(** An absolute resolution is emitted as the path from the directory of
    the importing file to the target, whatever that path starts with. *)
Lemma rewriteSpecifier_absolute
  (P : Build.PathModule) (removeLeadingSlash : string -> string)
  (resolveImportSpecifier : string -> option string)
  (buildDirectoryLoc outLoc spec url0 : string) (proxies : list string) :
  resolveImportSpecifier spec = Some url0 ->
  Build.posix_isAbsolute url0 = true ->
  Build.truthy_opt (Build.url_protocol P url0) = false ->
  Build.isProxyImport P url0 = false ->
  Build.rewriteSpecifier P removeLeadingSlash resolveImportSpecifier
    buildDirectoryLoc outLoc spec proxies
  = (JS.backslashes_to_slashes
       (Build.relative P (Build.dirname P outLoc)
          (Build.resolve P buildDirectoryLoc
             (removeLeadingSlash (Build.normalize P url0)))),
     proxies).
Proof.
  intros Hres Habs Hproto Hproxy.
  assert (Hne : url0 <> EmptyString) by (intros ->; discriminate Habs).
  rewrite (rewriteSpecifier_resolved _ _ _ _ _ spec url0) by assumption.
  rewrite Hproxy. unfold Build.emitted, Build.onDisk. now rewrite Habs.
Qed.

(** C6, at the page [/proj/build/index.js] that imports [react], installed
    at [/web_modules/react.js]: the resolution is absolute, so the callback
    returns the path from the page's directory to the module, and that
    path, [web_modules/react.js], starts with neither ['.'] nor ['/'].
    One directory down, the same import gets [../web_modules/react.js]. *)
Theorem rewriteSpecifier_absolute_bare_at_root :
  Examples.project_resolver "react" = Some "/web_modules/react.js"
  /\ Examples.project_rewrite "/proj/build/index.js" "react" []
     = ("web_modules/react.js", [])
  /\ JS.startsWith "." "web_modules/react.js" = false
  /\ JS.startsWith "/" "web_modules/react.js" = false
  /\ Examples.project_rewrite "/proj/build/_dist_/index.js" "react" []
     = ("../web_modules/react.js", []).
Proof. repeat split; vm_compute; reflexivity. Qed.

(** ** The build sequence *)

Lemma then_normal {A B} (a : A) (t : list Build.Event) (f : A -> Build.Proc B) :
  Build.then_ (Build.Normal a, t) f = (fst (f a), (t ++ snd (f a))%list).
Proof. unfold Build.then_. now destruct (f a). Qed.

Lemma then_pure {A B} (a : A) (f : A -> Build.Proc B) :
  Build.then_ (Build.pure a) f = f a.
Proof. unfold Build.then_, Build.pure. now destruct (f a). Qed.

Lemma then_events {A B} (Q : Build.Event -> Prop)
      (m : Build.Proc A) (f : A -> Build.Proc B) :
  Forall Q (snd m) -> (forall a, Forall Q (snd (f a))) ->
  Forall Q (snd (Build.then_ m f)).
Proof.
  destruct m as [[a|n|e] t]; simpl; intros Hm Hf; try exact Hm.
  specialize (Hf a). destruct (f a) as [c t']. simpl in *.
  apply Forall_app. now split.
Qed.

Lemma then_normal_with {A B} (Q : Build.Event -> Prop)
      (m : Build.Proc A) (f : A -> Build.Proc B) :
  Build.normal_with Q m -> (forall a, Build.normal_with Q (f a)) ->
  Build.normal_with Q (Build.then_ m f).
Proof.
  intros [[a Ha] Hm] Hf. destruct m as [c t]. simpl in Ha, Hm. subst c.
  rewrite then_normal. destruct (Hf a) as [[b Hb] Hfa]. split; simpl.
  - now exists b.
  - apply Forall_app. now split.
Qed.

Lemma for_of_events {A S} (Q : Build.Event -> Prop)
      (body : S -> A -> Build.Proc S) (l : list A) (s : S) :
  (forall s x, Forall Q (snd (body s x))) ->
  Forall Q (snd (Build.for_of l body s)).
Proof.
  intros Hbody. revert s. induction l as [|x l IH]; intros s; simpl.
  - constructor.
  - apply then_events; [apply Hbody|exact IH].
Qed.

Lemma for_of_normal_with {A S} (Q : Build.Event -> Prop)
      (body : S -> A -> Build.Proc S) (l : list A) (s : S) :
  (forall s x, Build.normal_with Q (body s x)) ->
  Build.normal_with Q (Build.for_of l body s).
Proof.
  intros Hbody. revert s. induction l as [|x l IH]; intros s; simpl.
  - split; [now exists s|constructor].
  - apply then_normal_with; [apply Hbody|exact IH].
Qed.

Lemma emit_normal_with (Q : Build.Event -> Prop) (ev : Build.Event) :
  Q ev -> Build.normal_with Q (Build.emit ev).
Proof. intros H. split; [now exists tt|now repeat constructor]. Qed.

Lemma pure_normal_with {A} (Q : Build.Event -> Prop) (a : A) :
  Build.normal_with Q (Build.pure a).
Proof. split; [now exists a|constructor]. Qed.

(** In a list cut in two ways, an element that satisfies [Q] and follows
    a front free of [Q] lies behind the front. *)
Lemma split_behind_front {A} (Q : A -> Prop) (front back pre post : list A) (x ev : A) :
  (front ++ x :: back = pre ++ ev :: post)%list ->
  Forall (fun e => ~ Q e) front -> ~ Q x -> Q ev ->
  In x pre /\ In ev back.
Proof.
  revert pre. induction front as [|f front IH]; intros pre Heq Hfront Hx Hev.
  - destruct pre as [|p pre]; simpl in Heq.
    + injection Heq as -> _. contradiction.
    + injection Heq as <- ->. split; [now left|].
      apply in_or_app. right. now left.
  - inversion Hfront as [|? ? Hf Hfront']; subst.
    destruct pre as [|p pre]; simpl in Heq.
    + injection Heq as -> _. contradiction.
    + injection Heq as <- Heq.
      destruct (IH pre Heq Hfront' Hx Hev) as [H1 H2]. split; [now right|exact H2].
Qed.

Lemma no_split_in_front {A} (Q : A -> Prop) (front pre post : list A) (ev : A) :
  (front = pre ++ ev :: post)%list -> Forall (fun e => ~ Q e) front -> ~ Q ev.
Proof.
  intros -> H. rewrite Forall_forall in H. apply H.
  apply in_or_app. right. now left.
Qed.

Section CommandFacts.
Variable P : Build.PathModule.
Variable removeLeadingSlash : string -> string.
Variable InstallTargets : Type.
Variable buildDirectoryLoc : string.
Variable includeFileSets : list (string * string * list string).
Variable buildFile : string -> JS.Obj string.
Variable outLocOf : string -> string -> string -> string -> string.
Variable wrapJs : string -> JS.Obj string -> string -> string.
Variable wrapHtmlResponse : string -> string.
Variable getInstallTargets : list Build.SourceFile -> InstallTargets.
Variable installRunner : InstallTargets -> Build.InstallResult + Util.JsError.
Variable createImportResolver : string -> Util.ImportMap -> string -> option string.
Variable specifiersOf : Build.SourceFile -> list string.
Variable replaceSpecifiers : Build.SourceFile -> list string -> string.
Variable readFile : string -> string + Util.JsError.
Variable wrapImportProxy : string -> string -> string.
Variable minify : bool.
Variable allJsFiles : list string.

Let run : Build.Proc unit :=
  Build.command P removeLeadingSlash InstallTargets buildDirectoryLoc includeFileSets
    buildFile outLocOf wrapJs wrapHtmlResponse getInstallTargets installRunner
    createImportResolver specifiersOf replaceSpecifiers readFile wrapImportProxy
    minify allJsFiles.

Lemma build_phase :
  Build.normal_with Build.before_install
    (Build.for_of includeFileSets
       (Build.buildSource buildFile outLocOf wrapJs wrapHtmlResponse) []).
Proof.
  apply for_of_normal_with. intros files [[dirDisk dirDest] allFiles].
  unfold Build.buildSource. apply for_of_normal_with. intros files' loc.
  apply then_normal_with.
  - apply emit_normal_with. repeat split; intros; discriminate.
  - intros _. apply for_of_normal_with. intros files'' [fileExt code].
    unfold Build.buildOutput.
    destruct (negb (Build.truthy code)); [apply pure_normal_with|].
    destruct (String.eqb fileExt ".js"); [|destruct (String.eqb fileExt ".html")];
      (apply then_normal_with;
       [apply emit_normal_with; repeat split; intros; discriminate
       |intros _; apply pure_normal_with]).
Qed.

Lemma rewrite_phase_events (r : Build.InstallResult) (files : Build.Files) :
  Forall (Build.after_install r)
    (snd (Build.then_
            (Build.for_of (JS.obj_entries files)
               (Build.rewriteFile P removeLeadingSlash buildDirectoryLoc
                  createImportResolver specifiersOf replaceSpecifiers r) [])
            (fun allImportProxyFiles =>
               Build.then_
                 (Build.for_of allImportProxyFiles
                    (Build.writeProxy buildDirectoryLoc readFile wrapImportProxy) tt)
                 (fun _ =>
                    Build.then_ (Build.emit Build.EvOptimize)
                      (fun _ =>
                         if minify
                         then Build.for_of allJsFiles
                                (fun _ f => Build.emit (Build.EvMinify f)) tt
                         else Build.pure tt))))).
Proof.
  assert (Hsimple : forall ev,
             (forall r', ev <> Build.EvInstallReturned r') ->
             (forall loc spec map, ev <> Build.EvResolveSpecifier loc spec map) ->
             Build.after_install r ev).
  { intros ev H1 H2. split; [exact H1|]. intros loc spec map E. now apply H2 in E. }
  apply then_events.
  - apply for_of_events. intros proxies [outLoc file].
    destruct (rewriteFile_writes P removeLeadingSlash buildDirectoryLoc
                createImportResolver specifiersOf replaceSpecifiers
                r proxies outLoc file) as (proxies' & events & code & -> & Hev).
    simpl. apply Forall_app. split.
    + eapply Forall_impl; [|exact Hev]. intros ev [spec ->].
      split; [discriminate|]. now intros ? ? ? [= _ _ <-].
    + constructor; [|constructor]. apply Hsimple; discriminate.
  - intros proxies. apply then_events; [|intros _; apply then_events].
    + apply for_of_events. intros [] loc. unfold Build.writeProxy.
      apply then_events; [|intros _; apply then_events].
      * constructor; [apply Hsimple; discriminate|constructor].
      * destruct (readFile _); constructor.
      * intros code. constructor; [apply Hsimple; discriminate|constructor].
    + constructor; [apply Hsimple; discriminate|constructor].
    + intros _. destruct minify; [|constructor].
      apply for_of_events. intros _ f.
      constructor; [apply Hsimple; discriminate|constructor].
Qed.

Lemma install_shape (files : Build.Files) :
  Build.installOptimizedDependencies InstallTargets getInstallTargets installRunner files
  = match installRunner (getInstallTargets (map snd (JS.obj_entries files))) with
    | inl r =>
        (Build.Normal r,
         (Build.EvScanInstallTargets :: Build.EvInstallRun
            :: Build.EvInstallReturned r :: Build.stats_events r))
    | inr e => (Build.Throw e, [Build.EvScanInstallTargets; Build.EvInstallRun])
    end.
Proof.
  unfold Build.installOptimizedDependencies, Build.stats_events.
  destruct (installRunner _) as [r|e]; [|reflexivity].
  cbn. destruct (Build.stats r); reflexivity.
Qed.

Lemma stats_events_before (r : Build.InstallResult) :
  Forall Build.before_install (Build.stats_events r).
Proof.
  unfold Build.stats_events.
  destruct (Build.stats r); repeat constructor; intros; discriminate.
Qed.

(** The three ways the build can go. *)
Lemma command_shape :
  exists front,
    Forall Build.before_install front
    /\ ((exists e, run = (Build.Throw e, front))
        \/ (exists r,
               Build.install_failed r = true
               /\ run = (Build.Exit 1,
                         (front ++ Build.EvInstallReturned r
                                :: Build.stats_events r ++ [Build.EvExit 1])%list))
        \/ (exists r back c,
               Build.install_failed r = false
               /\ run = (c, (front ++ Build.EvInstallReturned r :: back)%list)
               /\ Forall (Build.after_install r) back)).
Proof.
  destruct build_phase as [[files Hfiles] Hbuild].
  subst run. unfold Build.command.
  destruct (Build.for_of includeFileSets
              (Build.buildSource buildFile outLocOf wrapJs wrapHtmlResponse) [])
    as [c tb]. simpl in Hfiles, Hbuild.
  subst c. rewrite then_normal.
  change (Build.emit Build.EvStopEsbuild)
    with (@pair (Build.Completion unit) _ (Build.Normal tt) [Build.EvStopEsbuild]).
  rewrite then_normal, install_shape.
  exists (tb ++ [Build.EvStopEsbuild; Build.EvScanInstallTargets;
                 Build.EvInstallRun])%list.
  split.
  { apply Forall_app. split; [exact Hbuild|].
    repeat constructor; intros; discriminate. }
  pose proof stats_events_before as Hstats.
  destruct (installRunner _) as [r|e].
  - right. rewrite then_normal.
    destruct (Build.install_failed r) eqn:Hfail.
    + left. exists r. split; [exact Hfail|].
      cbn [Build.process_exit Build.then_ fst snd].
      rewrite <- ?app_assoc. cbn [app]. reflexivity.
    + right. rewrite then_pure.
      pose proof (rewrite_phase_events r files) as Hrest.
      match type of Hrest with
      | Forall _ (snd ?m) => destruct m as [c rest]
      end.
      exists r, (Build.stats_events r ++ rest)%list, c.
      split; [exact Hfail|]. split.
      * cbn [fst snd]. rewrite <- ?app_assoc. cbn [app]. reflexivity.
      * apply Forall_app. split; [|exact Hrest].
        eapply Forall_impl; [|apply Hstats].
        intros ev (H1 & _ & H3 & _). split; [exact H3|].
        intros loc spec map ->. discriminate H1.
  - left. exists e. cbn [Build.then_ fst snd].
    rewrite <- ?app_assoc. cbn [app]. reflexivity.
Qed.
End CommandFacts.

(** C9: in the trace of the build, every event of import rewriting or of
    proxy-file writing comes after the event of the installer returning,
    the result it returned reports no failure, and the resolver at work
    was made from the import map of that result.  When the installer
    reports failure the build ends by [process.exit(1)], right there, and
    its trace holds no event of rewriting or proxy writing. *)
Theorem command_install_barrier
  (P : Build.PathModule) (removeLeadingSlash : string -> string)
  (InstallTargets : Type) (buildDirectoryLoc : string)
  (includeFileSets : list (string * string * list string))
  (buildFile : string -> JS.Obj string)
  (outLocOf : string -> string -> string -> string -> string)
  (wrapJs : string -> JS.Obj string -> string -> string)
  (wrapHtmlResponse : string -> string)
  (getInstallTargets : list Build.SourceFile -> InstallTargets)
  (installRunner : InstallTargets -> Build.InstallResult + Util.JsError)
  (createImportResolver : string -> Util.ImportMap -> string -> option string)
  (specifiersOf : Build.SourceFile -> list string)
  (replaceSpecifiers : Build.SourceFile -> list string -> string)
  (readFile : string -> string + Util.JsError)
  (wrapImportProxy : string -> string -> string)
  (minify : bool) (allJsFiles : list string) :
  let run :=
    Build.command P removeLeadingSlash InstallTargets buildDirectoryLoc includeFileSets
      buildFile outLocOf wrapJs wrapHtmlResponse getInstallTargets installRunner
      createImportResolver specifiersOf replaceSpecifiers readFile wrapImportProxy
      minify allJsFiles in
  (forall pre ev post,
      snd run = (pre ++ ev :: post)%list ->
      Build.is_rewrite_event ev || Build.is_proxy_event ev = true ->
      exists r,
        In (Build.EvInstallReturned r) pre
        /\ Build.install_failed r = false
        /\ forall loc spec map,
             ev = Build.EvResolveSpecifier loc spec map -> map = Build.importMap r)
  /\ (forall r,
         In (Build.EvInstallReturned r) (snd run) ->
         Build.install_failed r = true ->
         fst run = Build.Exit 1
         /\ (exists pre, snd run = (pre ++ [Build.EvInstallReturned r]
                                        ++ Build.stats_events r
                                        ++ [Build.EvExit 1])%list)
         /\ Forall (fun ev => Build.is_rewrite_event ev = false
                              /\ Build.is_proxy_event ev = false) (snd run)).
Proof.
  intros run.
  set (Q := fun ev => Build.is_rewrite_event ev || Build.is_proxy_event ev = true).
  assert (Hbefore : forall l, Forall Build.before_install l ->
                              Forall (fun ev => ~ Q ev) l).
  { intros l. apply Forall_impl. intros ev (H1 & H2 & _). unfold Q.
    rewrite H1, H2. discriminate. }
  destruct (command_shape P removeLeadingSlash InstallTargets buildDirectoryLoc
              includeFileSets buildFile outLocOf wrapJs wrapHtmlResponse
              getInstallTargets installRunner createImportResolver specifiersOf
              replaceSpecifiers readFile wrapImportProxy minify allJsFiles)
    as (front & Hfront & Hshape).
  fold run in Hshape.
  destruct Hshape as [(e & Hrun)|[(r & Hfail & Hrun)
                                 |(r & back & c & Hok & Hrun & Hback)]];
    rewrite Hrun; cbn [fst snd]; split.
  - intros pre ev post Heq Hev. exfalso.
    exact (no_split_in_front Q _ _ _ _ Heq (Hbefore _ Hfront) Hev).
  - intros r Hin _. exfalso. rewrite Forall_forall in Hfront.
    destruct (Hfront _ Hin) as (_ & _ & H & _). now apply (H r).
  - intros pre ev post Heq Hev. exfalso.
    refine (no_split_in_front Q _ _ _ _ Heq _ Hev).
    apply Forall_app. split; [now apply Hbefore|].
    constructor; [discriminate|]. apply Forall_app.
    split; [apply Hbefore, stats_events_before|].
    constructor; [discriminate|constructor].
  - intros r0 Hin Hfail0.
    pose proof (stats_events_before r) as Hback.
    assert (r0 = r) as ->.
    { rewrite Forall_forall in Hfront, Hback.
      apply in_app_or in Hin as [Hin|[Hin|Hin]].
      - destruct (Hfront _ Hin) as (_ & _ & H & _). now contradiction (H r0).
      - now injection Hin.
      - apply in_app_or in Hin as [Hin|[Hin|[]]]; [|discriminate].
        destruct (Hback _ Hin) as (_ & _ & H & _). now contradiction (H r0). }
    split; [reflexivity|]. split.
    + now exists front.
    + apply Forall_app. split.
      * eapply Forall_impl; [|exact Hfront]. now intros ev (H1 & H2 & _).
      * constructor; [now split|]. apply Forall_app. split.
        -- eapply Forall_impl; [|exact Hback]. now intros ev (H1 & H2 & _).
        -- constructor; [now split|constructor].
  - intros pre ev post Heq Hev.
    destruct (split_behind_front Q front back pre post (Build.EvInstallReturned r) ev
                Heq (Hbefore _ Hfront)) as [Hpre Hin]; [discriminate|exact Hev|].
    exists r. split; [exact Hpre|]. split; [exact Hok|].
    rewrite Forall_forall in Hback. now apply Hback.
  - intros r0 Hin Hfail0. exfalso.
    rewrite Forall_forall in Hfront, Hback.
    apply in_app_or in Hin as [Hin|[Hin|Hin]].
    + destruct (Hfront _ Hin) as (_ & _ & H & _). now apply (H r0).
    + injection Hin as ->. congruence.
    + destruct (Hback _ Hin) as [H _]. now apply (H r0).
Qed.

Lemma command_install_barrier_witness :
  fst (Examples.project_build Examples.install_broken) = Build.Exit 1
  /\ exists r,
       In (Build.EvInstallReturned r)
          [Build.EvBuildFile "/proj/src/index.js";
           Build.EvWriteFile "/proj/build/index.js" "import 'react'";
           Build.EvStopEsbuild; Build.EvScanInstallTargets; Build.EvInstallRun;
           Build.EvInstallReturned Examples.install_ok]
       /\ Build.install_failed r = false.
Proof.
  split.
  - apply (proj2 (command_install_barrier Examples.project_path Util.removeLeadingSlash
                    unit "/proj/build"
                    [("/proj/src", "/proj/build", ["/proj/src/index.js"])]
                    (fun _ => [(".js", "import 'react'")])
                    (fun _ _ _ _ => "/proj/build/index.js")
                    (fun _ _ code => code) (fun code => code) (fun _ => tt)
                    (fun _ => inl Examples.install_broken)
                    (fun _ _ => Examples.project_resolver)
                    (fun _ => ["react"])
                    (fun _ emitted => "import '" ++ JS.join "," emitted ++ "'")
                    (fun _ => inr Examples.no_entry) (fun _ code => code) false [])
                 Examples.install_broken).
    + vm_compute. do 5 right. now left.
    + reflexivity.
  - destruct (proj1 (command_install_barrier Examples.project_path
                       Util.removeLeadingSlash unit "/proj/build"
                       [("/proj/src", "/proj/build", ["/proj/src/index.js"])]
                       (fun _ => [(".js", "import 'react'")])
                       (fun _ _ _ _ => "/proj/build/index.js")
                       (fun _ _ code => code) (fun code => code) (fun _ => tt)
                       (fun _ => inl Examples.install_ok)
                       (fun _ _ => Examples.project_resolver)
                       (fun _ => ["react"])
                       (fun _ emitted => "import '" ++ JS.join "," emitted ++ "'")
                       (fun _ => inr Examples.no_entry) (fun _ code => code) false [])
                    [Build.EvBuildFile "/proj/src/index.js";
                     Build.EvWriteFile "/proj/build/index.js" "import 'react'";
                     Build.EvStopEsbuild; Build.EvScanInstallTargets;
                     Build.EvInstallRun; Build.EvInstallReturned Examples.install_ok]
                    (Build.EvResolveSpecifier "/proj/build/index.js" "react"
                       (Build.importMap Examples.install_ok))
                    [Build.EvWriteRewritten "/proj/build/index.js"
                       "import 'web_modules/react.js'";
                     Build.EvOptimize])
      as (r & Hin & Hok & _).
    + vm_compute. reflexivity.
    + reflexivity.
    + exists r. now split.
Defined.

(** * Further properties of util.ts *)

(** ** parsePackageImportSpecifier, read backwards *)

Lemma or_null_Some (s t : string) :
  JS.or_null s = Some t -> s = t /\ t <> EmptyString.
Proof. destruct s; simpl; [discriminate|]. intros [= <-]. now split. Qed.

Lemma or_null_None (s : string) : JS.or_null s = None -> s = EmptyString.
Proof. destruct s; simpl; [reflexivity|discriminate]. Qed.

Lemma join_cons (x : string) (l : list string) :
  l <> [] -> JS.join "/" (x :: l) = x ++ "/" ++ JS.join "/" l.
Proof. destruct l; [contradiction|reflexivity]. Qed.

Lemma join_empty (l : list string) :
  JS.join "/" l = EmptyString -> l = [] \/ l = [EmptyString].
Proof.
  destruct l as [|x [|y l]]; simpl; intros H; [now left|right; now subst|].
  destruct x; discriminate.
Qed.

(** X1: when [parsePackageImportSpecifier] returns a sub-path, the
    specifier was the package name, a slash and that sub-path, and the
    sub-path is not empty. *)
Theorem parsePackageImportSpecifier_subpath_roundtrip (imp name sub : string) :
  Util.parsePackageImportSpecifier imp = (name, Some sub) ->
  imp = name ++ "/" ++ sub /\ sub <> EmptyString.
Proof.
  unfold Util.parsePackageImportSpecifier.
  pose proof (join_split_slash imp) as Himp.
  pose proof (split_slash_nonempty imp) as Hne.
  destruct (JS.split_slash imp) as [|p0 rest]; [contradiction|].
  destruct (JS.startsWith "@" imp).
  - destruct rest as [|p1 rest]; simpl; [discriminate|].
    intros [= <- Hsub]. apply or_null_Some in Hsub as [Hsub Hnz].
    split; [|exact Hnz].
    assert (Hrest : rest <> []) by (intros ->; simpl in Hsub; congruence).
    rewrite <- Himp, (join_cons p0) by discriminate.
    rewrite (join_cons p1) by exact Hrest.
    rewrite Hsub, !string_app_assoc. reflexivity.
  - simpl. intros [= <- Hsub]. apply or_null_Some in Hsub as [Hsub Hnz].
    split; [|exact Hnz].
    assert (Hrest : rest <> []) by (intros ->; simpl in Hsub; congruence).
    rewrite <- Himp, (join_cons p0) by exact Hrest. now rewrite Hsub.
Qed.

Lemma parsePackageImportSpecifier_subpath_roundtrip_witness :
  "@scope/pkg/deep/path" = "@scope/pkg" ++ "/" ++ "deep/path"
  /\ "deep/path" <> EmptyString.
Proof.
  apply (parsePackageImportSpecifier_subpath_roundtrip
           "@scope/pkg/deep/path" "@scope/pkg" "deep/path").
  reflexivity.
Defined.

(** X2: when [parsePackageImportSpecifier] returns no sub-path, the
    specifier was the package name, or the package name and a trailing
    slash, or a scope alone (and then the name is the scope followed by
    [/undefined]).  The name of an unscoped package holds no slash. *)
Theorem parsePackageImportSpecifier_no_subpath (imp name : string) :
  Util.parsePackageImportSpecifier imp = (name, None) ->
  (imp = name \/ imp = name ++ "/"
   \/ (JS.startsWith "@" imp = true /\ JS.no_slash imp = true
       /\ name = imp ++ "/undefined"))
  /\ (JS.startsWith "@" imp = false -> JS.no_slash name = true).
Proof.
  unfold Util.parsePackageImportSpecifier.
  pose proof (join_split_slash imp) as Himp.
  pose proof (split_slash_nonempty imp) as Hne.
  pose proof (split_slash_segments imp) as Hseg.
  destruct (JS.split_slash imp) as [|p0 rest]; [contradiction|].
  simpl in Hseg. apply andb_true_iff in Hseg as [Hp0 Hseg].
  destruct (JS.startsWith "@" imp) eqn:Hat.
  - destruct rest as [|p1 rest]; simpl.
    + intros [= <-]. split; [|discriminate]. right. right.
      simpl in Himp. subst p0. now repeat split.
    + intros [= <- Hsub]. split; [|discriminate].
      apply or_null_None, join_empty in Hsub as [->| ->].
      * left. now rewrite <- Himp.
      * right. left. rewrite <- Himp. simpl.
        now rewrite !string_app_assoc.
  - simpl. intros [= <- Hsub]. split; [|now intros _].
    apply or_null_None, join_empty in Hsub as [->| ->].
    + left. now rewrite <- Himp.
    + right. left. now rewrite <- Himp.
Qed.

Lemma parsePackageImportSpecifier_no_subpath_witness :
  ("lodash/" = "lodash" \/ "lodash/" = "lodash" ++ "/"
   \/ (JS.startsWith "@" "lodash/" = true /\ JS.no_slash "lodash/" = true
       /\ "lodash" = "lodash/" ++ "/undefined"))
  /\ (JS.startsWith "@" "lodash/" = false -> JS.no_slash "lodash" = true).
Proof.
  apply (parsePackageImportSpecifier_no_subpath "lodash/" "lodash"). reflexivity.
Defined.

(** ** The slash helpers *)

Lemma removeTrailingSlash_app_seps (s seps : string) :
  JS.all_sep seps = true ->
  Util.removeTrailingSlash (s ++ seps) = Util.removeTrailingSlash s.
Proof.
  intros Hseps.
  destruct (removeTrailingSlash_decompose s) as (seps0 & H0 & Hs).
  rewrite Hs at 1. rewrite string_app_assoc.
  apply removeTrailingSlash_app; [apply removeTrailingSlash_trimmed|].
  rewrite all_sep_app, H0, Hseps. reflexivity.
Qed.

(** X3: [addTrailingSlash] gives a string that ends in a slash and
    [removeTrailingSlash] one that ends in no separator; each leaves its
    own results alone, and removing after adding is removing. *)
Theorem trailing_slash_helpers_compose (s : string) :
  JS.endsWith_slash (Util.addTrailingSlash s) = true
  /\ Util.addTrailingSlash (Util.addTrailingSlash s) = Util.addTrailingSlash s
  /\ JS.ends_with_sep (Util.removeTrailingSlash s) = false
  /\ Util.removeTrailingSlash (Util.removeTrailingSlash s) = Util.removeTrailingSlash s
  /\ Util.removeTrailingSlash (Util.addTrailingSlash s) = Util.removeTrailingSlash s.
Proof.
  assert (Hends : JS.endsWith_slash (Util.addTrailingSlash s) = true).
  { rewrite addTrailingSlash_spec.
    destruct (JS.endsWith_slash s) eqn:E; [exact E|apply endsWith_slash_app]. }
  split; [exact Hends|]. split.
  { rewrite (addTrailingSlash_spec (Util.addTrailingSlash s)). now rewrite Hends. }
  split; [apply removeTrailingSlash_trimmed|]. split.
  { rewrite <- (string_app_nil_r (Util.removeTrailingSlash s)) at 1.
    apply removeTrailingSlash_app; [apply removeTrailingSlash_trimmed|reflexivity]. }
  rewrite addTrailingSlash_spec.
  destruct (JS.endsWith_slash s); [reflexivity|].
  now apply removeTrailingSlash_app_seps.
Qed.





(** ** The [.js] suffix expressions *)

Lemma matches_dot_js_length (s : string) :
  Util.matches_dot_js s = true -> String.length s = 3.
Proof.
  destruct s as [|a [|b [|c [|d s]]]]; simpl; try discriminate. reflexivity.
Qed.

Lemma matches_dot_mjs_length (s : string) :
  Util.matches_dot_mjs s = true -> String.length s = 3 \/ String.length s = 4.
Proof.
  unfold Util.matches_dot_mjs. intros H. apply orb_true_iff in H as [H|H].
  - left. now apply matches_dot_js_length.
  - right. destruct s as [|a [|b [|c [|d [|e s]]]]]; simpl in *; try discriminate.
    reflexivity.
Qed.

Lemma matches_dot_mjs_head (s : string) :
  Util.matches_dot_mjs s = true -> exists rest, s = String "." rest.
Proof.
  unfold Util.matches_dot_mjs. intros H. apply orb_true_iff in H as [H|H].
  - destruct s as [|a [|b [|c [|d s]]]]; simpl in H; try discriminate.
    apply andb_true_iff in H as [H _]. apply andb_true_iff in H as [H _].
    apply Ascii.eqb_eq in H as ->. eauto.
  - destruct s as [|a [|b [|c [|d [|e s]]]]]; simpl in H; try discriminate.
    repeat (apply andb_true_iff in H as [H _]).
    apply Ascii.eqb_eq in H as ->. eauto.
Qed.

Lemma matches_dot_mjs_second (c : ascii) (s : string) :
  Util.matches_dot_mjs (String c (String "." s)) = false.
Proof.
  unfold Util.matches_dot_mjs.
  destruct s as [|a [|b [|d s]]]; simpl; rewrite ?andb_false_r; reflexivity.
Qed.

Lemma replace_js_suffix_app (by_ stem x : string) :
  Util.matches_dot_js x = true ->
  Util.replace_js_suffix by_ (stem ++ x) = stem ++ by_.
Proof.
  intros Hx. induction stem as [|c stem IH].
  - destruct x as [|a x]; [discriminate|]. simpl append.
    cbn [Util.replace_js_suffix]. now rewrite Hx.
  - change (String c stem ++ x) with (String c (stem ++ x)).
    cbn [Util.replace_js_suffix].
    destruct (Util.matches_dot_js (String c (stem ++ x))) eqn:E.
    + apply matches_dot_js_length in E, Hx. simpl in E.
      rewrite length_app in E. lia.
    + now rewrite IH.
Qed.

Lemma replace_mjs_suffix_app (by_ stem x : string) :
  Util.matches_dot_mjs x = true ->
  Util.replace_mjs_suffix by_ (stem ++ x) = stem ++ by_.
Proof.
  intros Hx. induction stem as [|c stem IH].
  - destruct x as [|a x]; [discriminate|]. simpl append.
    cbn [Util.replace_mjs_suffix]. now rewrite Hx.
  - change (String c stem ++ x) with (String c (stem ++ x)).
    cbn [Util.replace_mjs_suffix].
    destruct (Util.matches_dot_mjs (String c (stem ++ x))) eqn:E; [|now rewrite IH].
    exfalso.
    destruct (matches_dot_mjs_head x Hx) as [rest ->].
    destruct stem as [|d stem].
    + simpl in E. now rewrite matches_dot_mjs_second in E.
    + apply matches_dot_mjs_length in E, Hx. simpl in E, Hx.
      rewrite length_app in E. simpl in E. lia.
Qed.

Lemma replace_js_suffix_none (by_ s : string) :
  (forall stem x, s = stem ++ x -> Util.matches_dot_js x = false) ->
  Util.replace_js_suffix by_ s = s.
Proof.
  induction s as [|c s IH]; intros H; [reflexivity|].
  cbn [Util.replace_js_suffix].
  rewrite (H EmptyString (String c s) eq_refl). f_equal. apply IH.
  intros stem x ->. now apply (H (String c stem) x).
Qed.

Lemma replace_mjs_suffix_none (by_ s : string) :
  (forall stem x, s = stem ++ x -> Util.matches_dot_mjs x = false) ->
  Util.replace_mjs_suffix by_ s = s.
Proof.
  induction s as [|c s IH]; intros H; [reflexivity|].
  cbn [Util.replace_mjs_suffix].
  rewrite (H EmptyString (String c s) eq_refl). f_equal. apply IH.
  intros stem x ->. now apply (H (String c stem) x).
Qed.

(** ** sanitizePackageName *)

Lemma last_cons_nonempty {A} (x d : A) (l : list A) :
  l <> [] -> List.last (x :: l) d = List.last l d.
Proof. destruct l; [contradiction|reflexivity]. Qed.

Lemma removelast_cons_nonempty {A} (x : A) (l : list A) :
  l <> [] -> List.removelast (x :: l) = x :: List.removelast l.
Proof. destruct l; [contradiction|reflexivity]. Qed.

(** X5: [sanitizePackageName] works segment by segment: a path without a
    slash, the file name, comes back as it is, whatever it ends in; in
    front of a slash, a directory name loses the dot of a final [.js] (of
    either case) and the rest of the path is sanitized in turn. *)
Theorem sanitizePackageName_by_segment :
  (forall file, JS.no_slash file = true -> Util.sanitizePackageName file = file)
  /\ (forall dir rest,
         JS.no_slash dir = true ->
         Util.sanitizePackageName (dir ++ "/" ++ rest)
         = Util.replace_js_suffix "js" dir ++ "/" ++ Util.sanitizePackageName rest)
  /\ (forall stem x rest,
         JS.no_slash (stem ++ x) = true -> Util.matches_dot_js x = true ->
         Util.sanitizePackageName ((stem ++ x) ++ "/" ++ rest)
         = (stem ++ "js") ++ "/" ++ Util.sanitizePackageName rest).
Proof.
  assert (Hstep : forall dir rest,
             JS.no_slash dir = true ->
             Util.sanitizePackageName (dir ++ "/" ++ rest)
             = Util.replace_js_suffix "js" dir ++ "/" ++ Util.sanitizePackageName rest).
  { intros dir rest Hdir. unfold Util.sanitizePackageName.
    rewrite split_slash_app by exact Hdir.
    pose proof (split_slash_nonempty rest) as Hne.
    rewrite last_cons_nonempty, removelast_cons_nonempty by exact Hne.
    cbn [map app]. apply join_cons.
    destruct (map _ _); discriminate. }
  split; [|split; [exact Hstep|]].
  - intros file Hfile. unfold Util.sanitizePackageName.
    now rewrite split_slash_no_slash.
  - intros stem x rest Hns Hx. rewrite Hstep by exact Hns.
    now rewrite replace_js_suffix_app.
Qed.

Lemma sanitizePackageName_by_segment_witness :
  Util.sanitizePackageName "tippy.js" = "tippy.js"
  /\ Util.sanitizePackageName (("tippy" ++ ".JS") ++ "/" ++ "dist/tippy.esm.js")
     = ("tippy" ++ "js") ++ "/" ++ Util.sanitizePackageName "dist/tippy.esm.js".
Proof.
  split.
  - apply (proj1 sanitizePackageName_by_segment). reflexivity.
  - apply (proj2 (proj2 sanitizePackageName_by_segment)); reflexivity.
Defined.

(** ** getWebDependencyName *)

(** X6: for a name that ends in [.js] (of either case),
    [getWebDependencyName] drops the dot when the name is valid for a new
    package and the whole extension when it is not; an invalid name that
    ends in [.mjs] loses that extension; a name that ends in neither is
    returned as it is. *)
Theorem getWebDependencyName_extension
  (validForNewPackages : string -> bool) :
  (forall stem x,
      Util.matches_dot_js x = true ->
      Util.getWebDependencyName validForNewPackages (stem ++ x)
      = if validForNewPackages (stem ++ x) then stem ++ "js" else stem)
  /\ (forall stem x,
         Util.matches_dot_mjs x = true ->
         validForNewPackages (stem ++ x) = false ->
         Util.getWebDependencyName validForNewPackages (stem ++ x) = stem)
  /\ (forall dep,
         (forall stem x, dep = stem ++ x -> Util.matches_dot_mjs x = false) ->
         Util.getWebDependencyName validForNewPackages dep = dep).
Proof.
  unfold Util.getWebDependencyName. repeat split.
  - intros stem x Hx. destruct (validForNewPackages (stem ++ x)).
    + now apply replace_js_suffix_app.
    + rewrite replace_mjs_suffix_app, string_app_nil_r; [reflexivity|].
      unfold Util.matches_dot_mjs. now rewrite Hx.
  - intros stem x Hx ->. now rewrite replace_mjs_suffix_app, string_app_nil_r.
  - intros dep Hdep. destruct (validForNewPackages dep).
    + apply replace_js_suffix_none. intros stem x E.
      specialize (Hdep stem x E). unfold Util.matches_dot_mjs in Hdep.
      now apply orb_false_iff in Hdep as [H _].
    + now apply replace_mjs_suffix_none.
Qed.

Lemma getWebDependencyName_extension_witness :
  Util.getWebDependencyName (fun dep => negb (JS.startsWith "." dep)) ("tippy" ++ ".js")
  = "tippyjs"
  /\ Util.getWebDependencyName (fun _ => false) ("./lib/util" ++ ".mjs") = "./lib/util".
Proof.
  split.
  - apply (proj1 (getWebDependencyName_extension
                    (fun dep => negb (JS.startsWith "." dep))) "tippy" ".js").
    reflexivity.
  - apply (proj1 (proj2 (getWebDependencyName_extension (fun _ => false)))
             "./lib/util" ".mjs"); reflexivity.
Defined.

(** ** getExt *)

Lemma skip_non_dots_app (stem ext : string) :
  Util.no_dot stem = true ->
  ext = EmptyString \/ JS.startsWith "." ext = true ->
  Util.skip_non_dots (stem ++ ext) = ext.
Proof.
  intros Hstem Hext. induction stem as [|c stem IH].
  - destruct Hext as [->|Hext]; [reflexivity|].
    destruct ext as [|d ext]; [reflexivity|]. cbn [JS.startsWith] in Hext.
    apply andb_true_iff in Hext as [Hd _]. apply Ascii.eqb_eq in Hd as <-.
    reflexivity.
  - simpl in *. apply andb_true_iff in Hstem as [Hc Hstem].
    apply negb_true_iff in Hc. rewrite Hc. now apply IH.
Qed.

(** X7: the expanded extension [getExt] gives for a file whose base name
    is a non-empty dot-free stem followed by its extensions is those
    extensions in lower case, as in [.proxy.js]; for a base name that
    starts with dots the leading dots stay and the first name after them
    goes, so that a dot-file such as [.gitignore] gets the extension
    [.]. *)
Theorem getExt_expandedExt
  (path_extname path_basename toLocaleLowerCase : string -> string)
  (fileName dots stem ext : string) :
  path_basename fileName = dots ++ stem ++ ext ->
  Util.no_dot stem = true -> stem <> EmptyString ->
  (forall pre c post, dots = pre ++ String c post -> c = "."%char) ->
  ext = EmptyString \/ JS.startsWith "." ext = true ->
  Util.expandedExt
    (Util.getExt path_extname path_basename toLocaleLowerCase fileName)
  = toLocaleLowerCase (dots ++ ext).
Proof.
  intros Hbase Hstem Hne Hdots Hext. unfold Util.getExt. simpl. rewrite Hbase.
  f_equal. clear Hbase. induction dots as [|d dots IH].
  - destruct stem as [|c stem]; [contradiction|]. simpl in *.
    apply andb_true_iff in Hstem as [Hc Hstem]. apply negb_true_iff in Hc.
    rewrite Hc. now apply skip_non_dots_app.
  - assert (d = "."%char) as -> by (apply (Hdots EmptyString d dots); reflexivity).
    simpl. f_equal. apply IH.
    intros pre c post ->. now apply (Hdots (String "." pre) c post).
Qed.

Lemma getExt_expandedExt_witness :
  Util.expandedExt (Util.getExt Posix.extname (fun p => p) (fun s => s) "App.proxy.js")
  = ".proxy.js"
  /\ Util.expandedExt (Util.getExt Posix.extname (fun p => p) (fun s => s) ".gitignore")
     = ".".
Proof.
  split.
  - apply (getExt_expandedExt Posix.extname (fun p => p) (fun s => s)
             "App.proxy.js" EmptyString "App" ".proxy.js");
      try reflexivity; try discriminate.
    + intros [|? ?] c post H; discriminate H.
    + now right.
  - apply (getExt_expandedExt Posix.extname (fun p => p) (fun s => s)
             ".gitignore" "." "gitignore" EmptyString);
      try reflexivity; try discriminate; [|now left].
    intros [|a [|? ?]] c post H; try discriminate H.
    now injection H as <- _.
Defined.

(** * Further properties of writeLockfile *)

Lemma writeLockfile_declaration_order_witness :
  Util.writeLockfile "snowpack.lock.json"
    {| Util.imports := JS.obj_of_entries [("b", "./b.js"); ("a", "./a.js")] |}
  = Util.writeLockfile "snowpack.lock.json"
      {| Util.imports := JS.obj_of_entries [("a", "./a.js"); ("b", "./b.js")] |}.
Proof.
  apply writeLockfile_declaration_order.
  - repeat constructor; simpl; intuition discriminate.
  - apply perm_swap.
Defined.

Lemma sortedImportMap_named_keys_witness :
  JS.obj_keys (Util.sortedImportMap
                 {| Util.imports := [("react", "./react.js"); ("@pika/x", "./x.js")] |})
  = JS.sort ["react"; "@pika/x"]
  /\ StronglySorted JS.key_le
       (JS.obj_keys (Util.sortedImportMap
                       {| Util.imports := [("react", "./react.js");
                                            ("@pika/x", "./x.js")] |})).
Proof.
  apply (sortedImportMap_named_keys [("react", "./react.js"); ("@pika/x", "./x.js")]).
  - repeat constructor; simpl; intuition discriminate.
  - repeat constructor; discriminate.
Defined.

Lemma obj_get_set_any {V} (o : JS.Obj V) (k k' : string) (v : V) :
  JS.obj_get (JS.obj_set o k v) k'
  = if String.eqb k k' && (JS.obj_has o k || negb (String.eqb k "__proto__"))
    then Some v else JS.obj_get o k'.
Proof.
  unfold JS.obj_set. destruct (JS.obj_has o k) eqn:Hhas.
  - rewrite obj_get_update by now apply obj_has_In.
    now rewrite orb_true_l, andb_true_r.
  - destruct (String.eqb k "__proto__"); simpl.
    + now rewrite andb_false_r.
    + rewrite obj_get_define. now rewrite andb_true_r.
Qed.

(** X10: [writeLockfile] writes the entries of the import map and nothing
    else: the object it prints maps every key of the map, [__proto__]
    apart, to the value the map has for it, and has no other key. *)
Theorem sortedImportMap_lookup (importMap : Util.ImportMap) (k : string) :
  JS.obj_get (Util.sortedImportMap importMap) k
  = if String.eqb k "__proto__" then None
    else option_map Some (JS.obj_get (Util.imports importMap) k).
Proof.
  unfold Util.sortedImportMap.
  set (o := Util.imports importMap).
  assert (H : forall l acc,
             JS.obj_has acc "__proto__" = false ->
             JS.obj_get (fold_left (fun sorted key =>
                                      JS.obj_set sorted key (JS.obj_get o key)) l acc) k
             = if String.eqb k "__proto__" then None
               else if existsb (String.eqb k) l then Some (JS.obj_get o k)
                    else JS.obj_get acc k).
  { induction l as [|h l IH]; intros acc Hacc; simpl.
    - destruct (String.eqb_spec k "__proto__") as [->|]; [|reflexivity].
      apply obj_has_false in Hacc. now apply obj_get_None.
    - rewrite IH.
      + destruct (String.eqb k "__proto__") eqn:Hk; [reflexivity|].
        rewrite obj_get_set_any.
        destruct (existsb (String.eqb k) l); [now rewrite orb_true_r|].
        rewrite orb_false_r, (String.eqb_sym h k).
        destruct (String.eqb_spec k h) as [->|]; [|reflexivity].
        now rewrite Hk, orb_true_r.
      + destruct (JS.obj_has (JS.obj_set acc h (JS.obj_get o h)) "__proto__") eqn:E;
          [|reflexivity].
        apply obj_has_In, obj_get_In in E. rewrite obj_get_set_any in E.
        destruct (String.eqb_spec h "__proto__") as [->|Hh].
        * rewrite Hacc in E. simpl in E.
          apply obj_has_false, obj_get_None in Hacc. congruence.
        * simpl in E. apply obj_has_false, obj_get_None in Hacc. congruence. }
  rewrite (H _ [] eq_refl).
  destruct (String.eqb k "__proto__"); [reflexivity|].
  destruct (existsb (String.eqb k) (JS.sort (JS.obj_keys o))) eqn:E.
  - apply existsb_exists in E as (x & Hx & Hxk). apply String.eqb_eq in Hxk as <-.
    apply (Permutation_in _ (Permutation_sym (sort_perm _))) in Hx.
    apply obj_get_In in Hx. now destruct (JS.obj_get o k).
  - simpl. destruct (JS.obj_get o k) eqn:G; [|reflexivity].
    assert (Hin : In k (JS.sort (JS.obj_keys o))).
    { apply (Permutation_in _ (sort_perm _)), obj_get_In. congruence. }
    assert (Ht : existsb (String.eqb k) (JS.sort (JS.obj_keys o)) = true).
    { apply existsb_exists. exists k. split; [exact Hin|apply String.eqb_refl]. }
    congruence.
Qed.

(** * Further properties of resolveDependencyManifest *)

(** X11: a manifest is never returned without its location: when the
    second component of the result is not null, neither is the first. *)
Theorem resolveDependencyManifest_manifest_has_path
  (Json : Type) (env : Util.NodeEnv Json) (dep cwd : string)
  (location : option string) (manifest : Json) :
  fst (Util.run_resolveDependencyManifest env dep cwd) = inl (location, Some manifest) ->
  exists manifestPath, location = Some manifestPath.
Proof.
  unfold_manifest. env_cases env.
  all: simpl; intros [= <- ?]; subst; eauto; discriminate.
Qed.

Lemma resolveDependencyManifest_manifest_has_path_witness :
  exists manifestPath,
    Some "/proj/node_modules/pkg/package.json" = Some manifestPath.
Proof.
  apply (resolveDependencyManifest_manifest_has_path string
           (Examples.hidden_manifest_env (Some "{}")) "pkg" "/proj"
           (Some "/proj/node_modules/pkg/package.json") "{}").
  reflexivity.
Defined.

Lemma substring0_drop (n : nat) (s : string) :
  JS.substring0 n s ++ JS.drop n s = s.
Proof.
  revert s. induction n as [|n IH]; intros [|c s]; simpl; try reflexivity.
  now rewrite IH.
Qed.

Lemma substring0_length (n : nat) (s : string) :
  n <= String.length s -> String.length (JS.substring0 n s) = n.
Proof.
  revert s. induction n as [|n IH]; intros [|c s]; simpl; intros H;
    try reflexivity; try lia.
  rewrite IH; lia.
Qed.

Lemma substring0_app (a b : string) (n : nat) :
  JS.substring0 (String.length a + n) (a ++ b) = a ++ JS.substring0 n b.
Proof. induction a as [|c a IH]; simpl; [reflexivity|now rewrite IH]. Qed.

Lemma replace_first_slash_same (s : string) : JS.replace_first_slash "/" s = s.
Proof.
  induction s as [|c s IH]; [reflexivity|]. simpl.
  destruct (Ascii.eqb_spec c "/") as [->|_]; [reflexivity|now rewrite IH].
Qed.

(** X12: the path the fallback infers keeps the resolved entry point up
    to and including the last occurrence of the package-root marker, adds
    the one character that follows it there, if any, and then
    [package.json]; where the separator is a slash the marker is
    [/node_modules/] followed by the package name. *)
Theorem inferredManifestPath_keeps_marker
  (Json : Type) (env : Util.NodeEnv Json) (dep fullPath : string) (i : nat) :
  JS.lastIndexOf (Util.searchPath env dep) fullPath = Some i ->
  (exists root rest,
      fullPath = root ++ Util.searchPath env dep ++ rest
      /\ String.length root = i
      /\ Util.inferredManifestPath env dep fullPath i
         = root ++ Util.searchPath env dep ++ JS.substring0 1 rest ++ "package.json")
  /\ (Util.path_sep env = "/" -> Util.searchPath env dep = "/node_modules/" ++ dep).
Proof.
  intros Hidx. split.
  - pose proof (lastIndexOf_spec (Util.searchPath env dep) fullPath) as H.
    rewrite Hidx in H. destruct H as (Hi & Hocc & _).
    apply startsWith_iff in Hocc as [rest Hrest].
    exists (JS.substring0 i fullPath), rest.
    assert (Hfull : fullPath = JS.substring0 i fullPath
                               ++ Util.searchPath env dep ++ rest).
    { rewrite <- Hrest. symmetry. apply substring0_drop. }
    split; [exact Hfull|]. split; [now apply substring0_length|].
    unfold Util.inferredManifestPath.
    set (root := JS.substring0 i fullPath) in *.
    assert (Hlen : String.length root = i) by now apply substring0_length.
    rewrite Hfull at 1. rewrite <- Hlen, <- Nat.add_assoc, substring0_app.
    rewrite substring0_app, !string_app_assoc. reflexivity.
  - intros Hsep. unfold Util.searchPath. rewrite Hsep, replace_first_slash_same.
    reflexivity.
Qed.

Lemma inferredManifestPath_keeps_marker_witness :
  (exists root rest,
      "/proj/node_modules/pkg/dist/index.js"
      = root ++ Util.searchPath (Examples.hidden_manifest_env None) "pkg" ++ rest
      /\ String.length root = 5
      /\ Util.inferredManifestPath (Examples.hidden_manifest_env None) "pkg"
           "/proj/node_modules/pkg/dist/index.js" 5
         = root ++ Util.searchPath (Examples.hidden_manifest_env None) "pkg"
                ++ JS.substring0 1 rest ++ "package.json")
  /\ Util.searchPath (Examples.hidden_manifest_env None) "pkg" = "/node_modules/pkg".
Proof.
  destruct (inferredManifestPath_keeps_marker string
              (Examples.hidden_manifest_env None) "pkg"
              "/proj/node_modules/pkg/dist/index.js" 5 eq_refl) as [H1 H2].
  split; [exact H1|]. apply H2. reflexivity.
Defined.

(** X13: the only file [resolveDependencyManifest] reads by itself is the
    manifest path it inferred, and it reads it only after attempt 1 failed
    and the package-root marker was found in the resolved entry point. *)
Theorem resolveDependencyManifest_reads_inferred_manifest_only
  (Json : Type) (env : Util.NodeEnv Json) (dep cwd p : string) :
  In (Util.CallReadFile p) (snd (Util.run_resolveDependencyManifest env dep cwd)) ->
  exists err resolved fullPath i,
    fst (Util.attempt1_body env dep cwd (Util.initial Json)) = inr err
    /\ Util.require_resolve env dep (Util.resolve_options env cwd) = inl resolved
    /\ Util.realpathSync_native env resolved = inl fullPath
    /\ JS.lastIndexOf (Util.searchPath env dep) fullPath = Some i
    /\ p = Util.inferredManifestPath env dep fullPath i.
Proof.
  unfold_manifest. env_cases env.
  all: simpl; intros Hin; repeat destruct Hin as [Hin|Hin]; try discriminate;
    try contradiction.
  all: injection Hin as <-; repeat eexists; eassumption.
Qed.

Lemma resolveDependencyManifest_reads_inferred_manifest_only_witness :
  exists err resolved fullPath i,
    fst (Util.attempt1_body (Examples.hidden_manifest_env None) "pkg" "/proj"
           (Util.initial string)) = inr err
    /\ Util.require_resolve (Examples.hidden_manifest_env None) "pkg"
         (Util.resolve_options (Examples.hidden_manifest_env None) "/proj")
       = inl resolved
    /\ Util.realpathSync_native (Examples.hidden_manifest_env None) resolved
       = inl fullPath
    /\ JS.lastIndexOf (Util.searchPath (Examples.hidden_manifest_env None) "pkg")
         fullPath = Some i
    /\ "/proj/node_modules/pkg/package.json"
       = Util.inferredManifestPath (Examples.hidden_manifest_env None) "pkg" fullPath i.
Proof.
  apply (resolveDependencyManifest_reads_inferred_manifest_only string
           (Examples.hidden_manifest_env None) "pkg" "/proj"
           "/proj/node_modules/pkg/package.json").
  vm_compute. tauto.
Defined.

(** * Further properties of findMatchingAliasEntry *)

(** X14: entries added at the end of an alias table change nothing for a
    specifier the table already matched, and for any other specifier the
    answer is the one of the added entries alone. *)
Theorem findMatchingAliasEntry_app
  (isAbs : string -> bool) (alias more : JS.Obj string) (spec : string) :
  Util.findMatchingAliasEntry isAbs (alias ++ more)%list spec
  = match Util.findMatchingAliasEntry isAbs alias spec with
    | Some e => Some e
    | None => Util.findMatchingAliasEntry isAbs more spec
    end.
Proof.
  unfold Util.findMatchingAliasEntry, JS.obj_entries.
  destruct (Util.not_bare spec); [reflexivity|].
  induction alias as [|[from to] alias IH]; simpl; [reflexivity|].
  destruct (Util.isExactMatch from spec || Util.isDeepMatch from spec);
    [reflexivity|exact IH].
Qed.

(** X15: an alias entry is returned only for a bare specifier that begins
    with the key of that entry, trailing slashes and backslashes of the
    key apart, and the entry is one of the table. *)
Theorem findMatchingAliasEntry_key_is_prefix
  (isAbs : string -> bool) (alias : JS.Obj string) (spec : string)
  (e : Util.AliasEntry) :
  Util.findMatchingAliasEntry isAbs alias spec = Some e ->
  Util.not_bare spec = false
  /\ In (Util.from e, Util.to e) (JS.obj_entries alias)
  /\ JS.startsWith (Util.removeTrailingSlash (Util.from e)) spec = true.
Proof.
  unfold Util.findMatchingAliasEntry.
  destruct (Util.not_bare spec); [discriminate|]. intros H.
  pose proof (findAliasLoop_first isAbs (JS.obj_entries alias) spec) as Hfirst.
  rewrite H in Hfirst. destruct Hfirst as (before & after & Heq & Hacc & _).
  split; [reflexivity|]. split.
  - rewrite Heq. apply in_or_app. right. now left.
  - apply startsWith_iff.
    destruct (removeTrailingSlash_decompose (Util.from e)) as (seps0 & _ & Hdec).
    destruct Hacc as [(Htrim & seps & Hseps & Hfrom)|[rest Hrest]].
    + exists EmptyString. rewrite Hfrom, string_app_nil_r.
      symmetry. now apply removeTrailingSlash_app.
    + destruct (JS.endsWith_slash (Util.from e)).
      * exists (seps0 ++ rest). rewrite <- string_app_assoc, <- Hdec. exact Hrest.
      * exists (seps0 ++ "/" ++ rest).
        rewrite <- string_app_assoc, <- Hdec, <- string_app_assoc. exact Hrest.
Qed.

Lemma findMatchingAliasEntry_key_is_prefix_witness :
  Util.not_bare "components/Button" = false
  /\ In ("components/", "/proj/src/components")
        (JS.obj_entries [("components/", "/proj/src/components")])
  /\ JS.startsWith (Util.removeTrailingSlash "components/") "components/Button" = true.
Proof.
  apply (findMatchingAliasEntry_key_is_prefix Build.posix_isAbsolute
           [("components/", "/proj/src/components")] "components/Button"
           {| Util.from := "components/"; Util.to := "/proj/src/components";
              Util.type := Util.path |}).
  reflexivity.
Defined.

(** * Further properties of the import rewriting *)

Lemma set_add_cases (x : string) (set : list string) :
  (In x set /\ Build.set_add x set = set)
  \/ (~ In x set /\ Build.set_add x set = (set ++ [x])%list).
Proof.
  unfold Build.set_add. destruct (existsb (String.eqb x) set) eqn:E.
  - left. split; [|reflexivity].
    apply existsb_exists in E as (y & Hy & He). apply String.eqb_eq in He. now subst.
  - right. split; [|reflexivity]. intros Hin.
    assert (existsb (String.eqb x) set = true); [|congruence].
    apply existsb_exists. exists x. split; [exact Hin|apply String.eqb_refl].
Qed.

Lemma set_add_NoDup (x : string) (set : list string) :
  NoDup set -> NoDup (Build.set_add x set).
Proof.
  intros Hnd. destruct (set_add_cases x set) as [[_ ->]|[Hnot ->]]; [exact Hnd|].
  apply NoDup_app; [exact Hnd|repeat constructor; intros []|].
  intros y Hy [<-|[]]. contradiction.
Qed.

(** X16: the callback uses [allImportProxyFiles] as a set that only
    grows: what was in it stays, in place; at most one location is added,
    at the end, and only for a specifier that resolves to a target with an
    extension other than [.js], the location being that of the target
    with [.proxy.js] appended; a location already in the set is not added
    again. *)
Theorem rewriteSpecifier_proxy_set_grows
  (P : Build.PathModule) (removeLeadingSlash : string -> string)
  (resolveImportSpecifier : string -> option string)
  (buildDirectoryLoc outLoc spec : string) (proxies : list string) :
  NoDup proxies ->
  let proxies' :=
    snd (Build.rewriteSpecifier P removeLeadingSlash resolveImportSpecifier
           buildDirectoryLoc outLoc spec proxies) in
  NoDup proxies'
  /\ (proxies' = proxies
      \/ exists url0,
           resolveImportSpecifier spec = Some url0
           /\ Build.isProxyImport P url0 = true
           /\ ~ In (Build.onDisk P removeLeadingSlash buildDirectoryLoc outLoc
                      (url0 ++ Build.proxy_suffix)) proxies
           /\ proxies'
              = (proxies
                 ++ [Build.onDisk P removeLeadingSlash buildDirectoryLoc outLoc
                       (url0 ++ Build.proxy_suffix)])%list).
Proof.
  intros Hnd proxies'. subst proxies'.
  destruct (Build.passes_through P (resolveImportSpecifier spec)) eqn:Hpass.
  - rewrite rewriteSpecifier_unresolved by exact Hpass. simpl. now split; [|left].
  - unfold Build.passes_through in Hpass.
    destruct (resolveImportSpecifier spec) as [url0|] eqn:Hres; [|discriminate].
    apply orb_false_iff in Hpass as [Htruthy Hproto].
    apply negb_false_iff, truthy_true in Htruthy.
    rewrite (rewriteSpecifier_resolved _ _ _ _ _ spec url0) by assumption.
    destruct (Build.isProxyImport P url0) eqn:Hproxy; simpl.
    + split; [now apply set_add_NoDup|].
      destruct (set_add_cases
                  (Build.onDisk P removeLeadingSlash buildDirectoryLoc outLoc
                     (url0 ++ Build.proxy_suffix)) proxies) as [[_ ->]|[Hnot ->]].
      * now left.
      * right. exists url0. repeat split; assumption.
    + now split; [|left].
Qed.

Lemma rewriteSpecifier_proxy_set_grows_witness :
  NoDup (snd (Examples.project_rewrite "/proj/build/index.js" "./style.css" []))
  /\ (snd (Examples.project_rewrite "/proj/build/index.js" "./style.css" []) = []
      \/ exists url0,
           Examples.project_resolver "./style.css" = Some url0
           /\ Build.isProxyImport Examples.project_path url0 = true
           /\ ~ In (Build.onDisk Examples.project_path Util.removeLeadingSlash
                      "/proj/build" "/proj/build/index.js"
                      (url0 ++ Build.proxy_suffix)) []
           /\ snd (Examples.project_rewrite "/proj/build/index.js" "./style.css" [])
              = ([] ++ [Build.onDisk Examples.project_path Util.removeLeadingSlash
                          "/proj/build" "/proj/build/index.js"
                          (url0 ++ Build.proxy_suffix)])%list).
Proof.
  apply (rewriteSpecifier_proxy_set_grows Examples.project_path
           Util.removeLeadingSlash Examples.project_resolver
           "/proj/build" "/proj/build/index.js" "./style.css" []).
  constructor.
Defined.

Lemma rewriteSpecifier_no_proxy_witness :
  Examples.project_rewrite "/proj/build/_dist_/index.js" "react"
    ["/proj/build/style.css.proxy.js"]
  = (Build.emitted Examples.project_path Util.removeLeadingSlash "/proj/build"
       "/proj/build/_dist_/index.js" "/web_modules/react.js",
     ["/proj/build/style.css.proxy.js"]).
Proof.
  apply (rewriteSpecifier_no_proxy Examples.project_path Util.removeLeadingSlash
           Examples.project_resolver "/proj/build" "/proj/build/_dist_/index.js"
           "react" "/web_modules/react.js" ["/proj/build/style.css.proxy.js"]).
  - reflexivity.
  - discriminate.
  - reflexivity.
  - right. vm_compute. reflexivity.
Defined.

(** * The proxy files *)







(** * Further properties of the build sequence *)

Lemma then_fst {A B} (m : Build.Proc A) (f : A -> Build.Proc B) :
  fst (Build.then_ m f)
  = match fst m with
    | Build.Normal a => fst (f a)
    | Build.Exit n => Build.Exit n
    | Build.Throw e => Build.Throw e
    end.
Proof. destruct m as [[a|n|e] t]; simpl; [now destruct (f a)|reflexivity..]. Qed.

Lemma then_snd {A B} (m : Build.Proc A) (f : A -> Build.Proc B) :
  snd (Build.then_ m f)
  = (snd m ++ match fst m with
              | Build.Normal a => snd (f a)
              | _ => []
              end)%list.
Proof.
  destruct m as [[a|n|e] t]; simpl; [now destruct (f a)|now rewrite app_nil_r..].
Qed.

Lemma for_of_state_invariant {A S} (I : S -> Prop)
      (body : S -> A -> Build.Proc S) (l : list A) :
  (forall s x s', I s -> fst (body s x) = Build.Normal s' -> I s') ->
  forall s s', I s -> fst (Build.for_of l body s) = Build.Normal s' -> I s'.
Proof.
  intros Hbody. induction l as [|x l IH]; intros s s' Hs; simpl.
  - now intros [= <-].
  - rewrite then_fst. destruct (fst (body s x)) as [s1|n|e] eqn:E; try discriminate.
    apply IH. now apply (Hbody s x).
Qed.

Lemma output_registered_app (t t' : list Build.Event)
      (entry : string * Build.SourceFile) :
  Build.output_registered t entry -> Build.output_registered (t ++ t') entry.
Proof.
  intros (H1 & H2 & H3 & H4). repeat split; try assumption;
    apply in_or_app; now left.
Qed.

Lemma obj_update_Forall {V} (Q : string * V -> Prop) (o : JS.Obj V) (k : string) (v : V) :
  Forall Q o -> Q (k, v) -> Forall Q (JS.obj_update o k v).
Proof.
  intros Ho Hv. induction Ho as [|[k' v'] o Hx Ho IH]; simpl; [constructor|].
  destruct (String.eqb_spec k' k) as [->|_]; constructor; auto.
Qed.

Lemma obj_insert_index_Forall {V} (Q : string * V -> Prop) (o : JS.Obj V)
      (n : N) (k : string) (v : V) :
  Forall Q o -> Q (k, v) -> Forall Q (JS.obj_insert_index n k v o).
Proof.
  intros Ho Hv. induction Ho as [|[k' v'] o Hx Ho IH]; simpl.
  - now repeat constructor.
  - destruct (JS.array_index k') as [m|]; [destruct (n <? m)%N|];
      repeat constructor; auto.
Qed.

(** An assignment [o[k] = v] keeps what holds of every property, when it
    holds of the new one. *)
Lemma obj_set_Forall {V} (Q : string * V -> Prop) (o : JS.Obj V) (k : string) (v : V) :
  Forall Q o -> Q (k, v) -> Forall Q (JS.obj_set o k v).
Proof.
  intros Ho Hv. unfold JS.obj_set, JS.obj_define.
  destruct (JS.obj_has o k); [now apply obj_update_Forall|].
  destruct (String.eqb k "__proto__"); [exact Ho|].
  destruct (JS.array_index k) as [n|].
  - now apply obj_insert_index_Forall.
  - apply Forall_app. split; [exact Ho|]. now repeat constructor.
Qed.

Lemma flat_map_none {A B} (f : A -> list B) (l : list A) :
  Forall (fun x => f x = []) l -> flat_map f l = [].
Proof.
  induction 1 as [|x l Hx _ IH]; simpl; [reflexivity|]. now rewrite Hx, IH.
Qed.

Section CommandTrace.
Variable P : Build.PathModule.
Variable removeLeadingSlash : string -> string.
Variable InstallTargets : Type.
Variable buildDirectoryLoc : string.
Variable includeFileSets : list (string * string * list string).
Variable buildFile : string -> JS.Obj string.
Variable outLocOf : string -> string -> string -> string -> string.
Variable wrapJs : string -> JS.Obj string -> string -> string.
Variable wrapHtmlResponse : string -> string.
Variable getInstallTargets : list Build.SourceFile -> InstallTargets.
Variable installRunner : InstallTargets -> Build.InstallResult + Util.JsError.
Variable createImportResolver : string -> Util.ImportMap -> string -> option string.
Variable specifiersOf : Build.SourceFile -> list string.
Variable replaceSpecifiers : Build.SourceFile -> list string -> string.
Variable readFile : string -> string + Util.JsError.
Variable wrapImportProxy : string -> string -> string.
Variable minify : bool.
Variable allJsFiles : list string.

Let built : Build.Proc Build.Files :=
  Build.for_of includeFileSets
    (Build.buildSource buildFile outLocOf wrapJs wrapHtmlResponse) [].

Let installed (files : Build.Files) : Build.InstallResult + Util.JsError :=
  installRunner (getInstallTargets (map snd (JS.obj_entries files))).

Let rewriteFile :=
  Build.rewriteFile P removeLeadingSlash buildDirectoryLoc createImportResolver
    specifiersOf replaceSpecifiers.

Let writeProxy := Build.writeProxy buildDirectoryLoc readFile wrapImportProxy.

Let run : Build.Proc unit :=
  Build.command P removeLeadingSlash InstallTargets buildDirectoryLoc includeFileSets
    buildFile outLocOf wrapJs wrapHtmlResponse getInstallTargets installRunner
    createImportResolver specifiersOf replaceSpecifiers readFile wrapImportProxy
    minify allJsFiles.

Lemma built_events :
  exists files,
    fst built = Build.Normal files
    /\ Forall (fun ev => Build.is_build_event ev = true) (snd built).
Proof.
  assert (H : Build.normal_with (fun ev => Build.is_build_event ev = true) built).
  { subst built. apply for_of_normal_with. intros files [[dirDisk dirDest] allFiles].
    unfold Build.buildSource. apply for_of_normal_with. intros files' loc.
    apply then_normal_with; [now apply emit_normal_with|].
    intros _. apply for_of_normal_with. intros files'' [fileExt code].
    unfold Build.buildOutput.
    destruct (negb (Build.truthy code)); [apply pure_normal_with|].
    destruct (String.eqb fileExt ".js"); [|destruct (String.eqb fileExt ".html")];
      (apply then_normal_with;
       [now apply emit_normal_with|intros _; apply pure_normal_with]). }
  destruct H as [[files Hfiles] Hev]. now exists files.
Qed.

Lemma rewriteSpecifier_NoDup (resolveImportSpecifier : string -> option string)
      (outLoc spec : string) (proxies : list string) :
  NoDup proxies ->
  NoDup (snd (Build.rewriteSpecifier P removeLeadingSlash resolveImportSpecifier
                buildDirectoryLoc outLoc spec proxies)).
Proof.
  intros Hnd. unfold Build.rewriteSpecifier.
  destruct (resolveImportSpecifier spec) as [url0|]; [|exact Hnd].
  destruct (negb (Build.truthy url0) || _); [exact Hnd|]. cbv zeta.
  destruct (Build.isProxyImport P url0);
    destruct (Build.posix_isAbsolute _); cbn [snd];
    repeat match goal with
           | |- context [if ?b then _ else _] => destruct b
           end; cbn [snd]; auto using set_add_NoDup.
Qed.

Lemma rewriteFile_NoDup (r : Build.InstallResult) (proxies proxies' : list string)
      (entry : string * Build.SourceFile) :
  NoDup proxies ->
  fst (rewriteFile r proxies entry) = Build.Normal proxies' ->
  NoDup proxies'.
Proof.
  destruct entry as [outLoc file]. intros Hnd.
  subst rewriteFile. unfold Build.rewriteFile.
  rewrite then_fst.
  match goal with
  | |- context [Build.for_of ?l ?b ?s] =>
      pose proof (for_of_state_invariant
                    (fun st : list string * list string => NoDup (snd st)) b l) as Hinv;
      destruct (Build.for_of l b s) as [[st|n|e] t] eqn:E
  end; cbn [fst]; try discriminate.
  rewrite then_fst. cbn [Build.emit Build.pure fst]. intros [= <-].
  apply (Hinv) with (s := ([], proxies)); [|exact Hnd|now rewrite E].
  intros [emitted prox] spec s' Hs. rewrite then_fst. cbn [Build.emit fst].
  pose proof (rewriteSpecifier_NoDup
                (createImportResolver (Build.locOnDisk file) (Build.importMap r))
                outLoc spec prox Hs) as Hstep.
  destruct (Build.rewriteSpecifier _ _ _ _ _ _ _) as [spec' prox'].
  cbn [Build.pure fst]. intros [= <-]. exact Hstep.
Qed.

(** The rewriting loop: every file is written once, in turn; the loop
    never fails. *)
Lemma rewrite_loop_shape (r : Build.InstallResult)
      (entries : list (string * Build.SourceFile)) (proxies : list string) :
  exists proxies' t,
    Build.for_of entries (rewriteFile r) proxies = (Build.Normal proxies', t)
    /\ Build.rewritten t = map fst entries
    /\ Forall (fun ev => Build.is_rewrite_event ev = true) t
    /\ (NoDup proxies -> NoDup proxies').
Proof.
  revert proxies. induction entries as [|[outLoc file] entries IH]; intros proxies.
  - exists proxies, []. repeat split; [constructor|auto].
  - cbn [Build.for_of].
    pose proof (rewriteFile_NoDup r proxies) as Hnd.
    specialize (fun p' => Hnd p' (outLoc, file)).
    subst rewriteFile.
    destruct (rewriteFile_writes P removeLeadingSlash buildDirectoryLoc
                createImportResolver specifiersOf replaceSpecifiers
                r proxies outLoc file) as (p1 & events & code & Heq & Hev).
    rewrite Heq in *. rewrite then_normal.
    destruct (IH p1) as (p2 & t & Hloop & Hrew & Hall & Hnd2).
    rewrite Hloop. cbn [fst snd].
    exists p2, ((events ++ [Build.EvWriteRewritten outLoc code]) ++ t)%list.
    repeat split.
    + unfold Build.rewritten in *. rewrite !flat_map_app, Hrew.
      rewrite flat_map_none.
      * reflexivity.
      * eapply Forall_impl; [|exact Hev]. now intros ev [spec ->].
    + repeat (apply Forall_app; split); try exact Hall.
      * eapply Forall_impl; [|exact Hev]. now intros ev [spec ->].
      * now repeat constructor.
    + intros H. apply Hnd2. now apply (Hnd p1).
Qed.

(** The proxy loop: the proxy files are written in turn, each after its
    original was read, up to the first original that cannot be read. *)
Lemma proxy_loop_shape (l : list string) :
  exists c t k,
    Build.for_of l writeProxy tt = (c, t)
    /\ Build.proxy_writes t = firstn k l
    /\ Forall (fun ev => Build.is_proxy_event ev = true) t
    /\ (c = Build.Normal tt
        \/ exists e loc, c = Build.Throw e /\ readFile loc = inr e
                         /\ In (Build.EvReadFile loc) t).
Proof.
  induction l as [|x l (c & t & k & Hloop & Hw & Hall & Hc)].
  - exists (Build.Normal tt), [], 0. repeat split; [constructor|now left].
  - set (orig := JS.replace_first ".proxy.js" EmptyString x).
    assert (Hbody :
              writeProxy tt x
              = match readFile orig with
                | inl code =>
                    (Build.Normal tt,
                     [Build.EvReadFile orig;
                      Build.EvWriteProxy x
                        (wrapImportProxy
                           (JS.backslashes_to_slashes
                              (JS.drop (String.length buildDirectoryLoc) orig))
                           code)])
                | inr e => (Build.Throw e, [Build.EvReadFile orig])
                end).
    { subst writeProxy orig. unfold Build.writeProxy.
      destruct (readFile _); reflexivity. }
    cbn [Build.for_of]. rewrite Hbody.
    destruct (readFile orig) as [code|e] eqn:Hread.
    + rewrite then_normal, Hloop. cbn [fst snd app].
      exists c, (Build.EvReadFile orig
                   :: Build.EvWriteProxy x
                        (wrapImportProxy
                           (JS.backslashes_to_slashes
                              (JS.drop (String.length buildDirectoryLoc) orig)) code)
                   :: t), (S k).
      repeat split.
      * cbn [Build.proxy_writes flat_map app firstn].
        fold (Build.proxy_writes t). now rewrite Hw.
      * now repeat constructor.
      * destruct Hc as [->|(e & loc & -> & He & Hin)]; [now left|right].
        exists e, loc. repeat split; [exact He|]. right. right. exact Hin.
    + cbn [Build.then_].
      exists (Build.Throw e), [Build.EvReadFile orig], 0.
      repeat split; [now repeat constructor|right].
      exists e, orig. repeat split; [exact Hread|now left].
Qed.

(** What follows a successful install. *)
Let finish (r : Build.InstallResult) (files : Build.Files) : Build.Proc unit :=
  Build.then_ (Build.for_of (JS.obj_entries files) (rewriteFile r) [])
    (fun allImportProxyFiles =>
       Build.then_ (Build.for_of allImportProxyFiles writeProxy tt)
         (fun _ =>
            Build.then_ (Build.emit Build.EvOptimize)
              (fun _ =>
                 if minify
                 then Build.for_of allJsFiles
                        (fun _ f => Build.emit (Build.EvMinify f)) tt
                 else Build.pure tt))).

Lemma minify_loop (l : list string) :
  Build.for_of l (fun (_ : unit) f => Build.emit (Build.EvMinify f)) tt
  = (Build.Normal tt, map Build.EvMinify l).
Proof.
  induction l as [|f l IH]; [reflexivity|].
  cbn [Build.for_of Build.then_ Build.emit]. rewrite IH. reflexivity.
Qed.

Lemma finish_shape (r : Build.InstallResult) (files : Build.Files) :
  exists proxies tr c tp k,
    NoDup proxies
    /\ Build.rewritten tr = JS.obj_keys files
    /\ Forall (fun ev => Build.is_rewrite_event ev = true) tr
    /\ Build.proxy_writes tp = firstn k proxies
    /\ Forall (fun ev => Build.is_proxy_event ev = true) tp
    /\ (c = Build.Normal tt
        \/ exists e loc, c = Build.Throw e /\ readFile loc = inr e
                         /\ In (Build.EvReadFile loc) tp)
    /\ finish r files
       = (c, (tr ++ tp
                 ++ match c with
                    | Build.Normal _ =>
                        Build.EvOptimize
                          :: (if minify then map Build.EvMinify allJsFiles else [])
                    | _ => []
                    end)%list).
Proof.
  destruct (rewrite_loop_shape r (JS.obj_entries files) [])
    as (proxies & tr & Hrew & Hkeys & Htr & Hnd).
  destruct (proxy_loop_shape proxies) as (c & tp & k & Hprox & Hw & Htp & Hc).
  exists proxies, tr, c, tp, k.
  repeat split; try assumption; [apply Hnd; constructor|].
  subst finish. cbv beta. rewrite Hrew, then_normal, Hprox.
  destruct Hc as [->|(e & loc & -> & _)].
  - destruct minify; [rewrite minify_loop|]; reflexivity.
  - cbn [Build.then_ fst snd]. now rewrite app_nil_r.
Qed.

(** The build, by what the installer answers. *)
Lemma command_unfold :
  exists files,
    fst built = Build.Normal files
    /\ run = let front := (snd built ++ [Build.EvStopEsbuild; Build.EvScanInstallTargets;
                                          Build.EvInstallRun])%list in
             match installed files with
             | inr e => (Build.Throw e, front)
             | inl r =>
                 if Build.install_failed r
                 then (Build.Exit 1,
                       (front ++ Build.EvInstallReturned r
                              :: Build.stats_events r ++ [Build.EvExit 1])%list)
                 else (fst (finish r files),
                       (front ++ Build.EvInstallReturned r
                              :: Build.stats_events r ++ snd (finish r files))%list)
             end.
Proof.
  destruct built_events as (files & Hfiles & _). exists files.
  split; [exact Hfiles|]. subst run installed finish. unfold Build.command.
  fold built. destruct built as [c tb]. cbn [fst snd] in *. subst c.
  rewrite then_normal.
  change (Build.emit Build.EvStopEsbuild)
    with (@pair (Build.Completion unit) _ (Build.Normal tt) [Build.EvStopEsbuild]).
  rewrite then_normal, install_shape. cbv zeta beta.
  destruct (installRunner _) as [r|e].
  - rewrite then_normal. destruct (Build.install_failed r).
    + cbn [Build.process_exit Build.then_ fst snd].
      rewrite <- ?app_assoc. cbn [app]. reflexivity.
    + rewrite then_pure. cbn [fst snd]. rewrite <- ?app_assoc. cbn [app].
      reflexivity.
  - cbn [Build.then_ fst snd]. rewrite <- ?app_assoc. cbn [app]. reflexivity.
Qed.

Lemma flat_map_none_of_Forall {B} (f : Build.Event -> list B)
      (q : Build.Event -> bool) (t : list Build.Event) :
  (forall ev, q ev = true -> f ev = []) ->
  Forall (fun ev => q ev = true) t -> flat_map f t = [].
Proof.
  intros Hq Hall. apply flat_map_none.
  eapply Forall_impl; [|exact Hall]. exact Hq.
Qed.

(** The events up to the end of the install: none of them is a write of
    import rewriting, a proxy event or one of the last two steps. *)
Let quiet (ev : Build.Event) : bool :=
  negb (Build.is_rewrite_event ev || Build.is_proxy_event ev
        || Build.is_final_event ev).

Lemma front_quiet (r : Build.InstallResult) :
  Forall (fun ev => quiet ev = true)
    ((snd built ++ [Build.EvStopEsbuild; Build.EvScanInstallTargets;
                    Build.EvInstallRun])
       ++ Build.EvInstallReturned r :: Build.stats_events r ++ [Build.EvExit 1])%list.
Proof.
  destruct built_events as (files & _ & Hb).
  repeat (apply Forall_app; split).
  - eapply Forall_impl; [|exact Hb]. now intros [].
  - now repeat constructor.
  - constructor; [reflexivity|]. apply Forall_app. split.
    + unfold Build.stats_events. destruct (Build.stats r); now repeat constructor.
    + now repeat constructor.
Qed.

Lemma front_quiet_installed (r : Build.InstallResult) :
  Forall (fun ev => quiet ev = true)
    ((snd built ++ [Build.EvStopEsbuild; Build.EvScanInstallTargets;
                    Build.EvInstallRun])
       ++ Build.EvInstallReturned r :: Build.stats_events r)%list.
Proof.
  pose proof (front_quiet r) as H.
  change (Build.EvInstallReturned r :: Build.stats_events r ++ [Build.EvExit 1])%list
    with ((Build.EvInstallReturned r :: Build.stats_events r)
            ++ [Build.EvExit 1])%list in H.
  rewrite app_assoc in H. now apply Forall_app in H.
Qed.

Lemma front_quiet_thrown :
  Forall (fun ev => quiet ev = true)
    (snd built ++ [Build.EvStopEsbuild; Build.EvScanInstallTargets;
                   Build.EvInstallRun])%list.
Proof.
  destruct built_events as (files & _ & Hb).
  apply Forall_app; split; [|now repeat constructor].
  eapply Forall_impl; [|exact Hb]. now intros [].
Qed.

Lemma firstn_NoDup {A} (k : nat) (l : list A) : NoDup l -> NoDup (firstn k l).
Proof.
  intros Hnd. rewrite <- (firstn_skipn k l) in Hnd.
  now apply NoDup_app_remove_r in Hnd.
Qed.

(** X21: no proxy file is written twice in a build. *)
Theorem command_proxy_writes_distinct : NoDup (Build.proxy_writes (snd run)).
Proof.
  destruct command_unfold as (files & Hb & Hrun). rewrite Hrun. cbv zeta.
  assert (Hquiet : forall t, Forall (fun ev => quiet ev = true) t ->
                             Build.proxy_writes t = []).
  { intros t. apply flat_map_none_of_Forall. now intros []. }
  destruct (installed files) as [r|e]; cbn [snd].
  - destruct (Build.install_failed r); cbn [snd].
    + rewrite (Hquiet _ (front_quiet r)). constructor.
    + destruct (finish_shape r files)
        as (proxies & tr & c & tp & k & Hnd & _ & Htr & Hw & _ & Hc & ->).
      cbn [snd].
      change (Build.EvInstallReturned r :: Build.stats_events r ++ tr ++ ?x)%list
        with ((Build.EvInstallReturned r :: Build.stats_events r) ++ tr ++ x)%list.
      rewrite app_assoc. pose proof (Hquiet _ (front_quiet_installed r)) as Hfront.
      assert (Hrew : Build.proxy_writes tr = []).
      { revert Htr. apply flat_map_none_of_Forall. now intros []. }
      unfold Build.proxy_writes in *.
      rewrite flat_map_app, Hfront, !flat_map_app, Hrew, Hw. cbn [app].
      rewrite flat_map_none.
      * rewrite app_nil_r. now apply firstn_NoDup.
      * destruct Hc as [->|(e & loc & -> & _)]; [|constructor].
        constructor; [reflexivity|]. destruct minify; [|constructor].
        apply Forall_forall. intros ev Hin. apply in_map_iff in Hin as (f & <- & _).
        reflexivity.
  - rewrite (Hquiet _ front_quiet_thrown). constructor.
Qed.

End CommandTrace.

(** * The build sequence and the failures of its collaborators *)

Lemma check_events (Q : Build.Event -> Prop) (r : option Util.JsError) :
  Forall Q (snd (BuildIO.check r)).
Proof. destruct r; constructor. Qed.

Lemma of_result_events {A} (Q : Build.Event -> Prop) (r : A + Util.JsError) :
  Forall Q (snd (Build.of_result r)).
Proof. destruct r; constructor. Qed.

Lemma emit_events (Q : Build.Event -> Prop) (ev : Build.Event) :
  Q ev -> Forall Q (snd (Build.emit ev)).
Proof. intros H. now repeat constructor. Qed.

(** A loop that ends without an exception has kept what every round
    keeps, the trace so far being part of it. *)
Lemma for_of_trace_invariant_normal {A S} (I : S -> list Build.Event -> Prop)
      (body : S -> A -> Build.Proc S) (l : list A) :
  (forall s x t s', I s t -> fst (body s x) = Build.Normal s' ->
                    I s' (t ++ snd (body s x))%list) ->
  forall s t s', I s t -> fst (Build.for_of l body s) = Build.Normal s' ->
                 I s' (t ++ snd (Build.for_of l body s))%list.
Proof.
  intros Hbody. induction l as [|x l IH]; intros s t s' Hs; simpl.
  - intros [= <-]. now rewrite app_nil_r.
  - rewrite then_fst, then_snd.
    destruct (fst (body s x)) as [s1|n|e] eqn:E; try discriminate.
    intros H. rewrite app_assoc. apply IH; [|exact H]. now apply Hbody.
Qed.

(** A loop whose rounds neither exit nor go on after a round that
    throws. *)
Lemma for_of_throws {A S} (body : S -> A -> Build.Proc S) (l : list A) (x : A) :
  (forall s y n, fst (body s y) <> Build.Exit n) ->
  In x l ->
  (forall s, exists e, fst (body s x) = Build.Throw e) ->
  forall s, exists e, fst (Build.for_of l body s) = Build.Throw e.
Proof.
  intros Hexit Hin Hx. induction l as [|y l IH]; [destruct Hin|]. intros s.
  simpl. rewrite then_fst.
  destruct (fst (body s y)) as [s1|n|e] eqn:E.
  - destruct Hin as [->|Hin]; [|now apply IH].
    destruct (Hx s) as [e He]. congruence.
  - now apply Hexit in E.
  - now exists e.
Qed.

Lemma for_of_no_exit {A S} (body : S -> A -> Build.Proc S) (l : list A) :
  (forall s y n, fst (body s y) <> Build.Exit n) ->
  forall s n, fst (Build.for_of l body s) <> Build.Exit n.
Proof.
  intros Hexit. induction l as [|y l IH]; intros s n; simpl; [discriminate|].
  rewrite then_fst. destruct (fst (body s y)) as [s1|m|e] eqn:E.
  - apply IH.
  - now apply Hexit in E.
  - discriminate.
Qed.

Section BuildFailures.
Variable P : Build.PathModule.
Variable removeLeadingSlash : string -> string.
Variable InstallTargets : Type.
Variable buildDirectoryLoc : string.
Variable includeFileSets : list (string * string * list string).
Variable newRegExp : string -> option Util.JsError.
Variable buildFile : string -> JS.Obj string + Util.JsError.
Variable outLocOf : string -> string -> string -> string -> string.
Variable outDirOf : string -> string -> string -> string.
Variable wrapJs : string -> JS.Obj string -> string -> string.
Variable wrapHtmlResponse : string -> string.
Variable mkdirp : string -> option Util.JsError.
Variable writeFile : string -> string -> option Util.JsError.
Variable getInstallTargets : list Build.SourceFile -> InstallTargets + Util.JsError.
Variable installRunner : InstallTargets -> Build.InstallResult + Util.JsError.
Variable createImportResolver : string -> Util.ImportMap -> string -> option string.
Variable url_parse_error : string -> option Util.JsError.
Variable specifiersOf : Build.SourceFile -> list string.
Variable transformError : Build.SourceFile -> option Util.JsError.
Variable replaceSpecifiers : Build.SourceFile -> list string -> string.
Variable mkdir : string -> option Util.JsError.
Variable writeRewritten : string -> string -> option Util.JsError.
Variable readFile : string -> string + Util.JsError.
Variable wrapImportProxy : string -> string -> string + Util.JsError.
Variable writeProxyFile : string -> string -> option Util.JsError.
Variable runPipelineOptimizeStep : option Util.JsError.
Variable minify : bool.
Variable startService : option Util.JsError.
Variable allJsFiles : list string.
Variable minifyAll : list string -> option Util.JsError.

Let buildOutput :=
  BuildIO.buildOutput outLocOf outDirOf wrapJs wrapHtmlResponse mkdirp writeFile.

Let buildSource :=
  BuildIO.buildSource P newRegExp buildFile outLocOf outDirOf wrapJs wrapHtmlResponse
    mkdirp writeFile.

Let built : Build.Proc Build.Files :=
  BuildIO.built P includeFileSets newRegExp buildFile outLocOf outDirOf wrapJs
    wrapHtmlResponse mkdirp writeFile.

Let install :=
  BuildIO.installOptimizedDependencies InstallTargets getInstallTargets installRunner.

Let rewriteFile :=
  BuildIO.rewriteFile P removeLeadingSlash buildDirectoryLoc createImportResolver
    url_parse_error specifiersOf transformError replaceSpecifiers mkdir writeRewritten.

Let writeProxy :=
  BuildIO.writeProxy buildDirectoryLoc readFile wrapImportProxy writeProxyFile.

Let finish :=
  BuildIO.finish P removeLeadingSlash buildDirectoryLoc createImportResolver
    url_parse_error specifiersOf transformError replaceSpecifiers mkdir writeRewritten
    readFile wrapImportProxy writeProxyFile runPipelineOptimizeStep minify startService
    allJsFiles minifyAll.

Let run : Build.Proc unit :=
  BuildIO.command P removeLeadingSlash InstallTargets buildDirectoryLoc includeFileSets
    newRegExp buildFile outLocOf outDirOf wrapJs wrapHtmlResponse mkdirp writeFile
    getInstallTargets installRunner createImportResolver url_parse_error specifiersOf
    transformError replaceSpecifiers mkdir writeRewritten readFile wrapImportProxy
    writeProxyFile runPipelineOptimizeStep minify startService allJsFiles minifyAll.

(** One output of a file: what it does when it does not throw. *)
Lemma buildOutput_normal (dirDisk dirDest loc : string) (outputs : JS.Obj string)
      (files files' : Build.Files) (entry : string * string) (t : list Build.Event) :
  Forall (Build.output_registered t) files ->
  In (Build.EvBuildFile loc) t ->
  fst (buildOutput dirDisk dirDest loc outputs files entry) = Build.Normal files' ->
  Forall (Build.output_registered
            (t ++ snd (buildOutput dirDisk dirDest loc outputs files entry)))
         files'.
Proof.
  intros Hfiles Hbuilt. destruct entry as [fileExt code].
  assert (Hkeep : forall t', Forall (Build.output_registered (t ++ t')) files).
  { intros t'. eapply Forall_impl; [|exact Hfiles].
    intros e. apply output_registered_app. }
  subst buildOutput. unfold BuildIO.buildOutput.
  destruct (negb (Build.truthy code)); [intros [= <-]; apply Hkeep|].
  destruct (String.eqb_spec fileExt ".js") as [Hjs|_];
    [|destruct (String.eqb_spec fileExt ".html") as [Hhtml|_]];
    cbv beta iota zeta;
    (destruct (mkdirp _) as [e|]; [discriminate|]);
    (destruct (writeFile _ _) as [e|]; [discriminate|]);
    cbn; intros [= <-]; try apply Hkeep.
  all: apply obj_set_Forall; [apply Hkeep|].
  all: repeat split; cbn [fst snd Build.baseExt Build.expandedExt
                           Build.contents Build.locOnDisk]; auto.
  all: apply in_or_app; solve [now left|right; now left].
Qed.

Lemma buildOutput_no_exit (dirDisk dirDest loc : string) (outputs : JS.Obj string)
      (files : Build.Files) (entry : string * string) (n : Z) :
  fst (buildOutput dirDisk dirDest loc outputs files entry) <> Build.Exit n.
Proof.
  destruct entry as [fileExt code]. subst buildOutput. unfold BuildIO.buildOutput.
  destruct (negb (Build.truthy code)); [discriminate|].
  destruct (String.eqb fileExt ".js"); [|destruct (String.eqb fileExt ".html")];
    cbv beta iota zeta;
    (destruct (mkdirp _) as [e|]; [discriminate|]);
    (destruct (writeFile _ _) as [e|]; discriminate).
Qed.

(** One source file of the build loop. *)
Let buildOne (dirDisk dirDest : string) (files : Build.Files) (loc : string)
  : Build.Proc Build.Files :=
  Build.then_ (BuildIO.check (newRegExp (Build.extname P loc ++ "$")))
    (fun _ =>
       Build.then_ (Build.emit (Build.EvBuildFile loc))
         (fun _ =>
            Build.then_ (Build.of_result (buildFile loc))
              (fun builtFileOutput =>
                 Build.for_of (JS.obj_entries builtFileOutput)
                   (buildOutput dirDisk dirDest loc builtFileOutput) files))).

Lemma buildOne_cases (dirDisk dirDest : string) (files : Build.Files) (loc : string) :
  buildOne dirDisk dirDest files loc
  = match newRegExp (Build.extname P loc ++ "$") with
    | Some e => (Build.Throw e, [])
    | None =>
        match buildFile loc with
        | inr e => (Build.Throw e, [Build.EvBuildFile loc])
        | inl outputs =>
            let m := Build.for_of (JS.obj_entries outputs)
                       (buildOutput dirDisk dirDest loc outputs) files in
            (fst m, Build.EvBuildFile loc :: snd m)
        end
    end.
Proof.
  subst buildOne. cbv beta.
  destruct (newRegExp _) as [e|]; [reflexivity|].
  destruct (buildFile loc) as [outputs|e]; [|reflexivity].
  cbn [BuildIO.check Build.of_result]. rewrite !then_pure.
  unfold Build.emit, Build.then_, Build.pure. cbv zeta.
  destruct (Build.for_of _ _ _); reflexivity.
Qed.

Lemma buildSource_eq (files : Build.Files) (dirDisk dirDest : string)
      (allFiles : list string) :
  buildSource files (dirDisk, dirDest, allFiles)
  = Build.for_of allFiles (buildOne dirDisk dirDest) files.
Proof. reflexivity. Qed.

Lemma buildOne_no_exit (dirDisk dirDest : string) (files : Build.Files) (loc : string)
      (n : Z) :
  fst (buildOne dirDisk dirDest files loc) <> Build.Exit n.
Proof.
  rewrite buildOne_cases. destruct (newRegExp _) as [e|]; [discriminate|].
  destruct (buildFile loc) as [outputs|e]; [|discriminate].
  cbv zeta. cbn [fst]. apply for_of_no_exit. intros s y m.
  apply buildOutput_no_exit.
Qed.

Lemma buildSource_no_exit (files : Build.Files) (set : string * string * list string)
      (n : Z) :
  fst (buildSource files set) <> Build.Exit n.
Proof.
  destruct set as [[dirDisk dirDest] allFiles]. rewrite buildSource_eq.
  apply for_of_no_exit. intros s y m. apply buildOne_no_exit.
Qed.

Lemma built_io_events :
  Forall (fun ev => Build.is_build_event ev = true) (snd built).
Proof.
  subst built. unfold BuildIO.built. apply for_of_events.
  intros files [[dirDisk dirDest] allFiles]. fold buildSource. rewrite buildSource_eq.
  apply for_of_events. intros files' loc. rewrite buildOne_cases.
  destruct (newRegExp _) as [e|]; [constructor|].
  destruct (buildFile loc) as [outputs|e]; [|now repeat constructor].
  cbv zeta. cbn [snd]. constructor; [reflexivity|].
  apply for_of_events. intros files'' [fileExt code].
  subst buildOutput. unfold BuildIO.buildOutput.
  destruct (negb (Build.truthy code)); [constructor|].
  destruct (String.eqb fileExt ".js"); [|destruct (String.eqb fileExt ".html")];
    cbv beta iota zeta;
    (destruct (mkdirp _) as [e|]; [constructor|]);
    (destruct (writeFile _ _) as [e|]; now repeat constructor).
Qed.

(** The outputs the build loop registers have distinct locations: an
    output registered again takes the place of the earlier one. *)
Lemma built_io_keys_NoDup (files : Build.Files) :
  fst built = Build.Normal files -> NoDup (JS.obj_keys files).
Proof.
  assert (Hset : forall (o : Build.Files) k v,
             NoDup (JS.obj_keys o) -> NoDup (JS.obj_keys (JS.obj_set o k v))).
  { intros o k v Ho. unfold JS.obj_set. destruct (JS.obj_has o k).
    - now rewrite obj_keys_update.
    - destruct (String.eqb k "__proto__"); [exact Ho|].
      now apply obj_keys_define_NoDup. }
  intros Hfiles. subst built. unfold BuildIO.built in Hfiles. fold buildSource in Hfiles.
  refine (for_of_trace_invariant_normal
            (fun (files : Build.Files) _ => NoDup (JS.obj_keys files))
            buildSource includeFileSets _ [] [] files _ Hfiles); [|constructor].
  clear files Hfiles. intros files [[dirDisk dirDest] allFiles] t files' Hinv.
  rewrite buildSource_eq.
  apply (for_of_trace_invariant_normal
           (fun (files : Build.Files) _ => NoDup (JS.obj_keys files)))
    with (t := t); [|exact Hinv].
  clear files files' Hinv t. intros files loc t files' Hinv.
  rewrite buildOne_cases. destruct (newRegExp _) as [e|]; [discriminate|].
  destruct (buildFile loc) as [outputs|e]; [|discriminate].
  cbv zeta. cbn [fst snd].
  apply (for_of_trace_invariant_normal
           (fun (files : Build.Files) _ => NoDup (JS.obj_keys files)))
    with (t := t); [|exact Hinv].
  clear files files' Hinv t. intros files [fileExt code] t files' Hinv.
  subst buildOutput. unfold BuildIO.buildOutput.
  destruct (negb (Build.truthy code)); [now intros [= <-]|].
  destruct (String.eqb fileExt ".js"); [|destruct (String.eqb fileExt ".html")];
    cbv beta iota zeta;
    (destruct (mkdirp _) as [e|]; [discriminate|]);
    (destruct (writeFile _ _) as [e|]; [discriminate|]);
    cbn; intros [= <-]; auto.
Qed.

(** X19: of the build loop.  When it ends without an exception, every
    file it hands to the installer's scan and to import rewriting is a
    [.js] or [.html] output with the same base and expanded extension,
    whose source was built and whose contents, as registered, were written
    to its place in the output tree.  It ends so when the patterns of the
    source extensions are patterns, [buildFile] returns, and the
    directories and the files can be written; and it throws when the
    extension of one source file is no pattern, as that of [a.c++]. *)
Theorem build_phase_registers_written_outputs :
  (forall files,
      fst built = Build.Normal files ->
      Forall (Build.output_registered (snd built)) (JS.obj_entries files))
  /\ ((forall source, newRegExp source = None) ->
      (forall loc, exists outputs, buildFile loc = inl outputs) ->
      (forall dir, mkdirp dir = None) ->
      (forall loc code, writeFile loc code = None) ->
      exists files, fst built = Build.Normal files)
  /\ (forall dirDisk dirDest allFiles loc e,
         In (dirDisk, dirDest, allFiles) includeFileSets ->
         In loc allFiles ->
         newRegExp (Build.extname P loc ++ "$") = Some e ->
         exists e', fst built = Build.Throw e').
Proof.
  repeat split.
  - intros files Hfiles. subst built. unfold BuildIO.built, JS.obj_entries in Hfiles |- *.
    fold buildSource in Hfiles. fold buildSource.
    apply (for_of_trace_invariant_normal
             (fun files t => Forall (Build.output_registered t) files)
             buildSource includeFileSets) with (s := []) (t := []);
      [|constructor|exact Hfiles].
    clear files Hfiles. intros files [[dirDisk dirDest] allFiles] t files' Hinv.
    rewrite buildSource_eq.
    apply (for_of_trace_invariant_normal
             (fun files t => Forall (Build.output_registered t) files));
      [|exact Hinv].
    clear files files' Hinv t. intros files loc t files' Hinv.
    rewrite buildOne_cases. destruct (newRegExp _) as [e|]; [discriminate|].
    destruct (buildFile loc) as [outputs|e]; [|discriminate].
    cbv zeta. cbn [fst snd]. intros Hn.
    change (t ++ Build.EvBuildFile loc :: ?x)%list
      with (t ++ [Build.EvBuildFile loc] ++ x)%list.
    rewrite app_assoc.
    refine (proj1 (for_of_trace_invariant_normal
                     (fun files t => Forall (Build.output_registered t) files
                                     /\ In (Build.EvBuildFile loc) t)
                     (buildOutput dirDisk dirDest loc outputs) (JS.obj_entries outputs)
                     _ files (t ++ [Build.EvBuildFile loc])%list files' _ Hn)).
    + clear. intros files entry t files' [Hinv Hbuilt] Hn. split.
      * now apply buildOutput_normal.
      * apply in_or_app. now left.
    + split; [|apply in_or_app; right; now left].
      eapply Forall_impl; [|exact Hinv]. intros e. apply output_registered_app.
  - intros Hre Hbuild Hmk Hwrite.
    assert (H : Build.normal_with (fun _ => True) built).
    { subst built. unfold BuildIO.built. apply for_of_normal_with.
      intros files [[dirDisk dirDest] allFiles]. fold buildSource.
      rewrite buildSource_eq. apply for_of_normal_with. intros files' loc.
      rewrite buildOne_cases, Hre. destruct (Hbuild loc) as [outputs ->].
      cbv zeta.
      assert (Hin : Build.normal_with (fun _ => True)
                      (Build.for_of (JS.obj_entries outputs)
                         (buildOutput dirDisk dirDest loc outputs) files')).
      { apply for_of_normal_with. intros files'' [fileExt code].
        subst buildOutput. unfold BuildIO.buildOutput.
        destruct (negb (Build.truthy code)); [now apply pure_normal_with|].
        destruct (String.eqb fileExt ".js"); [|destruct (String.eqb fileExt ".html")];
          cbv beta iota zeta; rewrite Hmk, Hwrite;
          (split; [eexists; reflexivity|now repeat constructor]). }
      destruct Hin as [[files'' Hn] _]. split; [now exists files''|].
      apply Forall_forall. trivial. }
    destruct H as [H _]. exact H.
  - intros dirDisk dirDest allFiles loc e Hset Hloc He.
    subst built. unfold BuildIO.built. fold buildSource.
    apply (for_of_throws buildSource includeFileSets (dirDisk, dirDest, allFiles));
      [intros s y n; apply buildSource_no_exit|exact Hset|].
    intros files. rewrite buildSource_eq.
    apply (for_of_throws (buildOne dirDisk dirDest) allFiles loc);
      [intros s y n; apply buildOne_no_exit|exact Hloc|].
    intros files'. rewrite buildOne_cases, He. now exists e.
Qed.

Lemma install_cases (files : Build.Files) :
  install files
  = match getInstallTargets (map snd (JS.obj_entries files)) with
    | inr e => (Build.Throw e, [Build.EvScanInstallTargets])
    | inl installTargets =>
        match installRunner installTargets with
        | inr e => (Build.Throw e, [Build.EvScanInstallTargets; Build.EvInstallRun])
        | inl r =>
            (Build.Normal r,
             (Build.EvScanInstallTargets :: Build.EvInstallRun
                :: Build.EvInstallReturned r :: Build.stats_events r))
        end
    end.
Proof.
  subst install. unfold BuildIO.installOptimizedDependencies, Build.stats_events.
  destruct (getInstallTargets _) as [installTargets|e]; [|reflexivity].
  cbv beta iota zeta delta [Build.then_ Build.emit Build.of_result Build.pure].
  destruct (installRunner installTargets) as [r|e]; [|reflexivity].
  destruct (Build.stats r); reflexivity.
Qed.

(** One file of the rewriting loop: its specifiers are looked at, and the
    write of the file, if it comes to it, is the last event; a round that
    does not throw has come to it. *)
Lemma rewriteFile_io_shape (r : Build.InstallResult) (proxies : list string)
      (outLoc : string) (file : Build.SourceFile) :
  exists c looked,
    Forall (fun ev => exists spec,
                ev = Build.EvResolveSpecifier outLoc spec (Build.importMap r)) looked
    /\ ((exists code,
            rewriteFile r proxies (outLoc, file)
            = (c, (looked ++ [Build.EvWriteRewritten outLoc code])%list)
            /\ forall n, c <> Build.Exit n)
        \/ (exists e, rewriteFile r proxies (outLoc, file) = (Build.Throw e, looked))).
Proof.
  subst rewriteFile. unfold BuildIO.rewriteFile.
  set (body := fun (st : list string * list string) (spec : string) => _).
  assert (H : forall specs st,
             exists c looked,
               Build.for_of specs body st = (c, looked)
               /\ Forall (fun ev => exists spec,
                            ev = Build.EvResolveSpecifier outLoc spec (Build.importMap r))
                         looked
               /\ forall n, c <> Build.Exit n).
  { induction specs as [|spec specs IH]; intros [emitted prox].
    - exists (Build.Normal (emitted, prox)), []. repeat split; [constructor|discriminate].
    - cbn [Build.for_of].
      assert (Hbody :
                body (emitted, prox) spec
                = match BuildIO.callback P removeLeadingSlash url_parse_error
                          (createImportResolver (Build.locOnDisk file)
                             (Build.importMap r))
                          buildDirectoryLoc outLoc spec prox with
                  | inl answer =>
                      (Build.Normal ((emitted ++ [fst answer])%list, snd answer),
                       [Build.EvResolveSpecifier outLoc spec (Build.importMap r)])
                  | inr e =>
                      (Build.Throw e,
                       [Build.EvResolveSpecifier outLoc spec (Build.importMap r)])
                  end).
      { unfold body. destruct (BuildIO.callback _ _ _ _ _ _ _ _); reflexivity. }
      rewrite Hbody. destruct (BuildIO.callback _ _ _ _ _ _ _ _) as [answer|e].
      + rewrite then_normal.
        destruct (IH ((emitted ++ [fst answer])%list, snd answer))
          as (c & looked & Hloop & Hall & Hc).
        rewrite Hloop. exists c, (Build.EvResolveSpecifier outLoc spec
                                    (Build.importMap r) :: looked).
        repeat split; [constructor; [now exists spec|exact Hall]|exact Hc].
      + exists (Build.Throw e), [Build.EvResolveSpecifier outLoc spec (Build.importMap r)].
        repeat split; [repeat constructor; now exists spec|discriminate]. }
  destruct (H (specifiersOf file) ([], proxies)) as (c & looked & Hloop & Hall & Hc).
  rewrite Hloop. destruct c as [st|n|e].
  - rewrite then_normal.
    destruct (transformError file) as [e|].
    { exists (Build.Throw e), looked. split; [exact Hall|]. right. exists e.
      cbn. now rewrite app_nil_r. }
    destruct (mkdir _) as [e|].
    { exists (Build.Throw e), looked. split; [exact Hall|]. right. exists e.
      cbn. now rewrite app_nil_r. }
    destruct (writeRewritten outLoc (replaceSpecifiers file (fst st))) as [e|] eqn:Hw.
    + exists (Build.Throw e), looked. split; [exact Hall|]. left.
      exists (replaceSpecifiers file (fst st)). split; [|discriminate].
      cbn. rewrite ?Hw. reflexivity.
    + exists (Build.Normal (snd st)), looked. split; [exact Hall|]. left.
      exists (replaceSpecifiers file (fst st)). split; [|discriminate].
      cbn. rewrite ?Hw. reflexivity.
  - now destruct (Hc n).
  - exists (Build.Throw e), looked. split; [exact Hall|]. right. now exists e.
Qed.

(** The rewriting loop: the files are written in turn, each once, up to
    the first round that throws. *)
Lemma rewrite_loop_io_shape (r : Build.InstallResult)
      (entries : list (string * Build.SourceFile)) (proxies : list string) :
  exists c t k,
    Build.for_of entries (rewriteFile r) proxies = (c, t)
    /\ Build.rewritten t = firstn k (map fst entries)
    /\ Forall (fun ev => Build.is_rewrite_event ev = true) t
    /\ (forall n, c <> Build.Exit n)
    /\ (forall proxies', c = Build.Normal proxies' ->
                         Build.rewritten t = map fst entries).
Proof.
  revert proxies. induction entries as [|[outLoc file] entries IH]; intros proxies.
  - exists (Build.Normal proxies), [], 0. repeat split; [constructor|discriminate].
  - cbn [Build.for_of].
    destruct (rewriteFile_io_shape r proxies outLoc file)
      as (c & looked & Hlooked & [(code & Heq & Hc)|(e & Heq)]).
    + assert (Hrw : Build.rewritten (looked ++ [Build.EvWriteRewritten outLoc code])
                    = [outLoc]).
      { unfold Build.rewritten. rewrite flat_map_app, flat_map_none; [reflexivity|].
        eapply Forall_impl; [|exact Hlooked]. now intros ev [spec ->]. }
      assert (Hev : Forall (fun ev => Build.is_rewrite_event ev = true)
                      (looked ++ [Build.EvWriteRewritten outLoc code])).
      { apply Forall_app. split; [|now repeat constructor].
        eapply Forall_impl; [|exact Hlooked]. now intros ev [spec ->]. }
      rewrite Heq. destruct c as [proxies1|n|e].
      * rewrite then_normal.
        destruct (IH proxies1) as (c & t & k & Hloop & Hk & Hall & Hc' & Hn).
        rewrite Hloop. cbn [fst snd].
        exists c, ((looked ++ [Build.EvWriteRewritten outLoc code]) ++ t)%list, (S k).
        repeat split.
        -- unfold Build.rewritten in *. rewrite flat_map_app, Hrw, Hk. reflexivity.
        -- apply Forall_app. now split.
        -- exact Hc'.
        -- intros p Hp. unfold Build.rewritten in *.
           rewrite flat_map_app, Hrw, (Hn p Hp). reflexivity.
      * now destruct (Hc n).
      * exists (Build.Throw e), (looked ++ [Build.EvWriteRewritten outLoc code])%list, 1.
        cbn [Build.then_]. repeat split; try discriminate; [|exact Hev].
        rewrite Hrw. cbn. now destruct (map fst entries).
    + rewrite Heq. cbn [Build.then_].
      exists (Build.Throw e), looked, 0. repeat split; try discriminate.
      * apply flat_map_none. eapply Forall_impl; [|exact Hlooked]. now intros ev [spec ->].
      * eapply Forall_impl; [|exact Hlooked]. now intros ev [spec ->].
Qed.

Lemma writeProxy_io_cases (loc : string) :
  let original := JS.replace_first ".proxy.js" EmptyString loc in
  writeProxy tt loc
  = match readFile original with
    | inr e => (Build.Throw e, [Build.EvReadFile original])
    | inl code =>
        match wrapImportProxy
                (JS.backslashes_to_slashes
                   (JS.drop (String.length buildDirectoryLoc) original)) code with
        | inr e => (Build.Throw e, [Build.EvReadFile original])
        | inl proxyCode =>
            (match writeProxyFile loc proxyCode with
             | Some e => Build.Throw e
             | None => Build.Normal tt
             end,
             [Build.EvReadFile original; Build.EvWriteProxy loc proxyCode])
        end
    end.
Proof.
  intros original. subst writeProxy original. unfold BuildIO.writeProxy.
  destruct (readFile _) as [code|e]; [|reflexivity].
  cbv beta iota zeta delta [Build.then_ Build.emit Build.of_result Build.pure].
  destruct (wrapImportProxy _ code) as [proxyCode|e]; [|reflexivity].
  destruct (writeProxyFile loc proxyCode); reflexivity.
Qed.

Lemma proxy_loop_io_shape (l : list string) :
  Forall (fun ev => Build.is_proxy_event ev = true)
         (snd (Build.for_of l writeProxy tt))
  /\ forall n, fst (Build.for_of l writeProxy tt) <> Build.Exit n.
Proof.
  split.
  - apply for_of_events. intros [] loc. rewrite writeProxy_io_cases. cbv zeta.
    destruct (readFile _) as [code|e]; [|now repeat constructor].
    destruct (wrapImportProxy _ code) as [proxyCode|e]; now repeat constructor.
  - apply for_of_no_exit. intros [] loc n. rewrite writeProxy_io_cases. cbv zeta.
    destruct (readFile _) as [code|e]; [|discriminate].
    destruct (wrapImportProxy _ code) as [proxyCode|e]; [|discriminate].
    destruct (writeProxyFile loc proxyCode); discriminate.
Qed.

(** The last two steps. *)
Let closing : Build.Proc unit :=
  Build.then_ (Build.emit Build.EvOptimize)
    (fun _ =>
       Build.then_ (BuildIO.check runPipelineOptimizeStep)
         (fun _ =>
            if minify then
              Build.then_ (BuildIO.check startService)
                (fun _ =>
                   Build.then_
                     (Build.for_of allJsFiles
                        (fun _ f => Build.emit (Build.EvMinify f)) tt)
                     (fun _ => BuildIO.check (minifyAll allJsFiles)))
            else Build.pure tt)).

Lemma closing_cases :
  closing
  = match runPipelineOptimizeStep with
    | Some e => (Build.Throw e, [Build.EvOptimize])
    | None =>
        if minify then
          match startService with
          | Some e => (Build.Throw e, [Build.EvOptimize])
          | None =>
              (match minifyAll allJsFiles with
               | Some e => Build.Throw e
               | None => Build.Normal tt
               end,
               Build.EvOptimize :: map Build.EvMinify allJsFiles)
          end
        else (Build.Normal tt, [Build.EvOptimize])
    end.
Proof.
  subst closing. destruct runPipelineOptimizeStep as [e|]; [reflexivity|].
  destruct minify; [|reflexivity].
  destruct startService as [e|]; [reflexivity|].
  rewrite minify_loop.
  cbv beta iota zeta delta [Build.then_ Build.emit BuildIO.check Build.pure].
  destruct (minifyAll allJsFiles); cbn [app]; now rewrite app_nil_r.
Qed.

Lemma finish_eq (r : Build.InstallResult) (files : Build.Files) :
  finish r files
  = Build.then_ (Build.for_of (JS.obj_entries files) (rewriteFile r) [])
      (fun proxies =>
         Build.then_ (Build.for_of proxies writeProxy tt) (fun _ => closing)).
Proof. reflexivity. Qed.

(** The events up to the end of the install: none of them is a write of
    import rewriting, a proxy event or one of the last two steps. *)
Let calm (ev : Build.Event) : bool :=
  negb (Build.is_rewrite_event ev || Build.is_proxy_event ev
        || Build.is_final_event ev).

Lemma install_io_events (files : Build.Files) :
  Forall (fun ev => calm ev = true) (snd (install files))
  /\ forall n, fst (install files) <> Build.Exit n.
Proof.
  rewrite install_cases.
  destruct (getInstallTargets _) as [targets|e]; [|split; [now repeat constructor|discriminate]].
  destruct (installRunner targets) as [r|e]; [|split; [now repeat constructor|discriminate]].
  split; [|discriminate]. repeat (constructor; [reflexivity|]).
  unfold Build.stats_events. destruct (Build.stats r); now repeat constructor.
Qed.

Lemma built_io_calm : Forall (fun ev => calm ev = true) (snd built).
Proof. eapply Forall_impl; [|exact built_io_events]. now intros []. Qed.

Lemma built_io_no_exit (n : Z) : fst built <> Build.Exit n.
Proof.
  subst built. unfold BuildIO.built. apply for_of_no_exit.
  intros s y m. apply buildSource_no_exit.
Qed.

(** The build, by how its phases end. *)
Lemma command_io_unfold :
  run
  = match fst built with
    | Build.Normal files =>
        match fst (install files) with
        | Build.Normal r =>
            if Build.install_failed r
            then (Build.Exit 1,
                  (snd built ++ Build.EvStopEsbuild :: snd (install files)
                      ++ [Build.EvExit 1])%list)
            else (fst (finish r files),
                  (snd built ++ Build.EvStopEsbuild :: snd (install files)
                      ++ snd (finish r files))%list)
        | Build.Exit n =>
            (Build.Exit n, (snd built ++ Build.EvStopEsbuild :: snd (install files))%list)
        | Build.Throw e =>
            (Build.Throw e, (snd built ++ Build.EvStopEsbuild :: snd (install files))%list)
        end
    | Build.Exit n => (Build.Exit n, snd built)
    | Build.Throw e => (Build.Throw e, snd built)
    end.
Proof.
  subst run. unfold BuildIO.command. fold built.
  destruct built as [[files|n|e] tb]; cbn [fst snd]; try reflexivity.
  rewrite then_normal. unfold Build.emit at 1. rewrite then_normal.
  fold (install files). destruct (install files) as [[r|n|e] ti]; cbn [fst snd].
  - rewrite then_normal. fold (finish r files).
    destruct (Build.install_failed r).
    + cbn [Build.process_exit Build.then_ fst snd]. reflexivity.
    + rewrite then_pure. reflexivity.
  - reflexivity.
  - reflexivity.
Qed.

Lemma finish_io_shape (r : Build.InstallResult) (files : Build.Files) :
  exists (c1 : Build.Completion (list string)) tr k,
    Build.rewritten tr = firstn k (JS.obj_keys files)
    /\ Forall (fun ev => Build.is_rewrite_event ev = true) tr
    /\ match c1 with
       | Build.Normal proxies =>
           Build.rewritten tr = JS.obj_keys files
           /\ exists (c2 : Build.Completion unit) tp,
                Forall (fun ev => Build.is_proxy_event ev = true) tp
                /\ (forall n, c2 <> Build.Exit n)
                /\ finish r files
                   = match c2 with
                     | Build.Normal _ => (fst closing, (tr ++ tp ++ snd closing)%list)
                     | Build.Exit n => (Build.Exit n, (tr ++ tp)%list)
                     | Build.Throw e => (Build.Throw e, (tr ++ tp)%list)
                     end
       | Build.Exit n => False
       | Build.Throw e => finish r files = (Build.Throw e, tr)
       end.
Proof.
  destruct (rewrite_loop_io_shape r (JS.obj_entries files) [])
    as (c1 & tr & k & Hloop & Hk & Htr & Hc1 & Hall).
  exists c1, tr, k. split; [exact Hk|]. split; [exact Htr|].
  rewrite finish_eq, Hloop. destruct c1 as [proxies|n|e].
  - split; [now apply (Hall proxies)|].
    destruct (proxy_loop_io_shape proxies) as [Htp Hc2].
    destruct (Build.for_of proxies writeProxy tt) as [c2 tp] eqn:Hprox.
    exists c2, tp. cbn [fst snd] in *. repeat split; try assumption.
    rewrite then_normal, Hprox. destruct c2 as [[]|n|e]; try reflexivity.
    rewrite then_normal. reflexivity.
  - now destruct (Hc1 n).
  - reflexivity.
Qed.

Lemma closing_events :
  In Build.EvOptimize (snd closing)
  /\ Forall (fun ev => Build.is_final_event ev = true) (snd closing)
  /\ (forall n, fst closing <> Build.Exit n)
  /\ (fst closing = Build.Normal tt ->
      runPipelineOptimizeStep = None
      /\ (minify = true -> forall f, In f allJsFiles -> In (Build.EvMinify f) (snd closing)))
  /\ (forall f, In (Build.EvMinify f) (snd closing) ->
                minify = true /\ In f allJsFiles
                /\ runPipelineOptimizeStep = None /\ startService = None).
Proof.
  assert (Hmin : Forall (fun ev => Build.is_final_event ev = true)
                        (map Build.EvMinify allJsFiles)).
  { apply Forall_forall. intros ev Hin. apply in_map_iff in Hin as (f & <- & _).
    reflexivity. }
  assert (Hone : forall f, ~ In (Build.EvMinify f) [Build.EvOptimize]).
  { intros f [H|[]]. discriminate. }
  rewrite closing_cases.
  destruct runPipelineOptimizeStep as [e|] eqn:Hopt; cbn [fst snd].
  { split; [now left|]. split; [now repeat constructor|].
    split; [discriminate|]. split; [discriminate|].
    intros f Hin. now apply Hone in Hin. }
  destruct minify eqn:Hminify; cbn [fst snd].
  2:{ split; [now left|]. split; [now repeat constructor|].
      split; [discriminate|]. split.
      - intros _. split; [reflexivity|discriminate].
      - intros f Hin. now apply Hone in Hin. }
  destruct startService as [e|] eqn:Hstart; cbn [fst snd].
  { split; [now left|]. split; [now repeat constructor|].
    split; [discriminate|]. split; [discriminate|].
    intros f Hin. now apply Hone in Hin. }
  split; [now left|]. split; [now constructor|].
  split; [intros n; destruct (minifyAll allJsFiles); discriminate|]. split.
  - intros _. split; [reflexivity|]. intros _ f Hin. right. now apply in_map.
  - intros f [H|H]; [discriminate|].
    apply in_map_iff in H as (f' & [= ->] & Hin). now repeat split.
Qed.

Lemma install_normal (files : Build.Files) (r : Build.InstallResult) :
  fst (install files) = Build.Normal r ->
  exists installTargets,
    getInstallTargets (map snd (JS.obj_entries files)) = inl installTargets
    /\ installRunner installTargets = inl r.
Proof.
  rewrite install_cases.
  destruct (getInstallTargets _) as [targets|e]; [|discriminate].
  destruct (installRunner targets) as [r'|e] eqn:E; [|discriminate].
  intros [= <-]. now exists targets.
Qed.

(** The ways a build can go. *)
Lemma run_shape :
  exists front,
    Forall (fun ev => calm ev = true) front
    /\ match fst built with
       | Build.Throw e => run = (Build.Throw e, snd built) /\ front = snd built
       | Build.Exit n => False
       | Build.Normal files =>
           match fst (install files) with
           | Build.Throw e => run = (Build.Throw e, front)
           | Build.Exit n => False
           | Build.Normal r =>
               if Build.install_failed r
               then run = (Build.Exit 1, (front ++ [Build.EvExit 1])%list)
               else
                 exists (c1 : Build.Completion (list string)) tr k,
                   Build.rewritten tr = firstn k (JS.obj_keys files)
                   /\ Forall (fun ev => Build.is_rewrite_event ev = true) tr
                   /\ match c1 with
                      | Build.Throw e => run = (Build.Throw e, (front ++ tr)%list)
                      | Build.Exit n => False
                      | Build.Normal proxies =>
                          Build.rewritten tr = JS.obj_keys files
                          /\ exists (c2 : Build.Completion unit) tp,
                               Forall (fun ev => Build.is_proxy_event ev = true) tp
                               /\ match c2 with
                                  | Build.Throw e =>
                                      run = (Build.Throw e, (front ++ tr ++ tp)%list)
                                  | Build.Exit n => False
                                  | Build.Normal _ =>
                                      run = (fst closing,
                                             (front ++ tr ++ tp ++ snd closing)%list)
                                  end
                      end
           end
       end.
Proof.
  rewrite command_io_unfold. pose proof built_io_calm as Hb.
  destruct (fst built) as [files|n|e] eqn:Ebuilt.
  - destruct (install_io_events files) as [Hi Hexit].
    exists (snd built ++ Build.EvStopEsbuild :: snd (install files))%list.
    split; [apply Forall_app; split; [exact Hb|now constructor]|].
    destruct (fst (install files)) as [r|n|e] eqn:Einst.
    + destruct (Build.install_failed r).
      * now rewrite <- app_assoc.
      * destruct (finish_io_shape r files) as (c1 & tr & k & Hk & Htr & Hc1).
        exists c1, tr, k. split; [exact Hk|]. split; [exact Htr|].
        destruct c1 as [proxies|n|e]; [|exact Hc1|].
        -- destruct Hc1 as (Hkeys & c2 & tp & Htp & Hc2 & Hfin).
           split; [exact Hkeys|]. exists c2, tp. split; [exact Htp|].
           rewrite Hfin. destruct c2 as [[]|n|e]; cbn [fst snd];
             rewrite <- ?app_assoc; try reflexivity.
           now destruct (Hc2 n).
        -- rewrite Hc1. cbn [fst snd]. now rewrite <- app_assoc.
    + now destruct (Hexit n).
    + reflexivity.
  - now destruct (built_io_no_exit n).
  - exists (snd built). split; [exact Hb|]. now split.
Qed.

Lemma calm_not_rewritten (t : list Build.Event) :
  Forall (fun ev => calm ev = true) t -> Build.rewritten t = [].
Proof. apply flat_map_none_of_Forall. now intros []. Qed.

Lemma proxy_not_rewritten (t : list Build.Event) :
  Forall (fun ev => Build.is_proxy_event ev = true) t -> Build.rewritten t = [].
Proof. apply flat_map_none_of_Forall. now intros []. Qed.

Lemma final_not_rewritten (t : list Build.Event) :
  Forall (fun ev => Build.is_final_event ev = true) t -> Build.rewritten t = [].
Proof. apply flat_map_none_of_Forall. now intros []. Qed.

Lemma rewritten_app (a b : list Build.Event) :
  Build.rewritten (a ++ b) = (Build.rewritten a ++ Build.rewritten b)%list.
Proof. apply flat_map_app. Qed.

Lemma final_not_in (q : Build.Event -> bool) (t : list Build.Event) (ev : Build.Event) :
  (forall e, q e = true -> Build.is_final_event e = false) ->
  Forall (fun e => q e = true) t -> Build.is_final_event ev = true -> ~ In ev t.
Proof.
  intros Hq Hall Hev Hin. rewrite Forall_forall in Hall.
  apply Hall, Hq in Hin. congruence.
Qed.

(** A file whose first specifier resolves to a URL on which [url.parse]
    throws is not written: the exception leaves the rewriting of the file
    at that specifier. *)
Lemma rewriteFile_url_parse_throws (r : Build.InstallResult) (proxies : list string)
      (outLoc : string) (file : Build.SourceFile) (spec : string)
      (specs : list string) (url0 : string) (e : Util.JsError) :
  specifiersOf file = (spec :: specs)%list ->
  createImportResolver (Build.locOnDisk file) (Build.importMap r) spec = Some url0 ->
  url0 <> EmptyString ->
  url_parse_error url0 = Some e ->
  rewriteFile r proxies (outLoc, file)
  = (Build.Throw e, [Build.EvResolveSpecifier outLoc spec (Build.importMap r)]).
Proof.
  intros Hspecs Hres Hne Hparse. subst rewriteFile. unfold BuildIO.rewriteFile.
  rewrite Hspecs. cbn [Build.for_of].
  unfold BuildIO.callback at 1, BuildIO.url_parse_protocol.
  rewrite Hres, Hparse. apply truthy_true in Hne. rewrite Hne. reflexivity.
Qed.

(** X20: of the rewriting of the outputs.  The output files the build
    phase registered are written by import rewriting in the order of
    [Object.entries], none twice and none left out before a later one; all
    of them have been written when the build completes; and one is
    written only when the installer returned and reported no failure.
    When the build phase throws none is written; and none is written
    when, after an install without failure, the first specifier of the
    first output file resolves to a URL on which [url.parse] throws: that
    exception leaves the build. *)
Theorem command_rewrites_every_output :
  (forall files,
      fst built = Build.Normal files ->
      (exists k, Build.rewritten (snd run) = firstn k (JS.obj_keys files))
      /\ (fst run = Build.Normal tt -> Build.rewritten (snd run) = JS.obj_keys files)
      /\ (Build.rewritten (snd run) <> [] ->
          exists installTargets r,
            getInstallTargets (map snd (JS.obj_entries files)) = inl installTargets
            /\ installRunner installTargets = inl r
            /\ Build.install_failed r = false)
      /\ NoDup (JS.obj_keys files))
  /\ (forall e, fst built = Build.Throw e -> Build.rewritten (snd run) = [])
  /\ (forall files outLoc file rest installTargets r spec specs url0 e,
         fst built = Build.Normal files ->
         JS.obj_entries files = ((outLoc, file) :: rest)%list ->
         getInstallTargets (map snd (JS.obj_entries files)) = inl installTargets ->
         installRunner installTargets = inl r ->
         Build.install_failed r = false ->
         specifiersOf file = (spec :: specs)%list ->
         createImportResolver (Build.locOnDisk file) (Build.importMap r) spec
         = Some url0 ->
         url0 <> EmptyString ->
         url_parse_error url0 = Some e ->
         fst run = Build.Throw e /\ Build.rewritten (snd run) = []).
Proof.
  destruct run_shape as (front & Hfront & Hshape).
  pose proof (calm_not_rewritten front Hfront) as Hnone.
  destruct closing_events as (_ & Hfinal & _).
  split.
  - intros files Hb. pose proof (built_io_keys_NoDup files Hb) as Hnd.
    rewrite Hb in Hshape.
    destruct (fst (install files)) as [r|n|e] eqn:Einst; [|contradiction|].
    + destruct (install_normal files r Einst) as (targets & Ht & Hr).
      destruct (Build.install_failed r) eqn:Hfail.
      * rewrite Hshape. cbn [fst snd]. rewrite rewritten_app, Hnone. cbn.
        repeat split; [now exists 0|discriminate|contradiction|exact Hnd].
      * destruct Hshape as (c1 & tr & k & Hk & Htr & Hc1).
        assert (Hcause : exists installTargets r0,
                   getInstallTargets (map snd (JS.obj_entries files)) = inl installTargets
                   /\ installRunner installTargets = inl r0
                   /\ Build.install_failed r0 = false)
          by now exists targets, r.
        destruct c1 as [proxies|n|e]; [|contradiction|].
        -- destruct Hc1 as (Hkeys & c2 & tp & Htp & Hc2).
           pose proof (proxy_not_rewritten tp Htp) as Hp.
           pose proof (final_not_rewritten _ Hfinal) as Hf.
           assert (Hall : Build.rewritten (snd run) = JS.obj_keys files).
           { destruct c2 as [[]|n|e]; [|contradiction|]; rewrite Hc2; cbn [snd];
               rewrite !rewritten_app, Hnone, Hkeys, Hp, ?Hf, ?app_nil_r; reflexivity. }
           rewrite Hall. repeat split; try trivial.
           exists (length (JS.obj_keys files)). now rewrite firstn_all.
        -- rewrite Hc1. cbn [fst snd]. rewrite rewritten_app, Hnone. cbn [app].
           repeat split; [now exists k|discriminate|trivial|exact Hnd].
    + rewrite Hshape. cbn [fst snd]. rewrite Hnone.
      repeat split; [now exists 0|discriminate|contradiction|exact Hnd].
  - split.
    { intros e Hb. rewrite Hb in Hshape. destruct Hshape as [-> <-]. exact Hnone. }
    intros files outLoc file rest installTargets r spec specs url0 e
           Hb Hentries Ht Hr Hfail Hspecs Hres Hne Hparse.
    assert (Hfin : finish r files
                   = (Build.Throw e,
                      [Build.EvResolveSpecifier outLoc spec (Build.importMap r)])).
    { rewrite finish_eq, Hentries. cbn [Build.for_of].
      rewrite (rewriteFile_url_parse_throws r [] outLoc file spec specs url0 e
                 Hspecs Hres Hne Hparse).
      reflexivity. }
    assert (Hinst : fst (install files) = Build.Normal r)
      by (rewrite install_cases, Ht, Hr; reflexivity).
    rewrite command_io_unfold, Hb, Hinst, Hfail, Hfin. cbn [fst snd].
    split; [reflexivity|].
    change (snd built ++ Build.EvStopEsbuild :: snd (install files)
              ++ [Build.EvResolveSpecifier outLoc spec (Build.importMap r)])%list
      with (snd built ++ (Build.EvStopEsbuild :: snd (install files))
              ++ [Build.EvResolveSpecifier outLoc spec (Build.importMap r)])%list.
    assert (H1 : Build.rewritten (snd built) = [])
      by exact (calm_not_rewritten (snd built) built_io_calm).
    assert (H2 : Build.rewritten (Build.EvStopEsbuild :: snd (install files)) = []).
    { apply calm_not_rewritten. constructor; [reflexivity|apply install_io_events]. }
    rewrite !rewritten_app, H1, H2. reflexivity.
Qed.

(** X22: of the last two steps.  A build that completes has run the
    optimize step and, when minification is on, started the minification
    of every [.js] file found.  The optimize step is run only in a build
    whose build phase ended without an exception and after import
    rewriting has written every output file.  A file is minified only when
    minification is on, the file is one of those found, and the optimize
    step and the start of the minifier returned.  A build whose optimize
    step throws does not complete. *)
Theorem command_optimize_after_rewriting :
  (fst run = Build.Normal tt ->
   In Build.EvOptimize (snd run)
   /\ (minify = true ->
       forall f, In f allJsFiles -> In (Build.EvMinify f) (snd run)))
  /\ (In Build.EvOptimize (snd run) ->
      exists files,
        fst built = Build.Normal files
        /\ Build.rewritten (snd run) = JS.obj_keys files)
  /\ (forall f,
         In (Build.EvMinify f) (snd run) ->
         minify = true /\ In f allJsFiles /\ In Build.EvOptimize (snd run)
         /\ runPipelineOptimizeStep = None /\ startService = None)
  /\ (forall e, runPipelineOptimizeStep = Some e -> fst run <> Build.Normal tt).
Proof.
  destruct run_shape as (front & Hfront & Hshape).
  destruct closing_events as (Hopt & Hfinal & Hexit & Hnormal & Hmin).
  assert (Hcalm : forall ev, Build.is_final_event ev = true -> ~ In ev front).
  { intros ev Hev. apply (final_not_in calm); [now intros []|exact Hfront|exact Hev]. }
  assert (Hrewrite : forall t ev,
             Forall (fun e => Build.is_rewrite_event e = true) t ->
             Build.is_final_event ev = true -> ~ In ev t).
  { intros t ev Ht Hev.
    apply (final_not_in Build.is_rewrite_event); [now intros []|exact Ht|exact Hev]. }
  assert (Hproxy : forall t ev,
             Forall (fun e => Build.is_proxy_event e = true) t ->
             Build.is_final_event ev = true -> ~ In ev t).
  { intros t ev Ht Hev.
    apply (final_not_in Build.is_proxy_event); [now intros []|exact Ht|exact Hev]. }
  (* A trace that ends before the optimize step holds none of its events. *)
  assert (Hearly : forall (c : Build.Completion unit) t,
             run = (c, t) -> c <> Build.Normal tt ->
             (forall ev, Build.is_final_event ev = true -> ~ In ev t) ->
             (fst run = Build.Normal tt ->
              In Build.EvOptimize (snd run)
              /\ (minify = true ->
                  forall f, In f allJsFiles -> In (Build.EvMinify f) (snd run)))
             /\ (In Build.EvOptimize (snd run) ->
                 exists files,
                   fst built = Build.Normal files
                   /\ Build.rewritten (snd run) = JS.obj_keys files)
             /\ (forall f,
                    In (Build.EvMinify f) (snd run) ->
                    minify = true /\ In f allJsFiles /\ In Build.EvOptimize (snd run)
                    /\ runPipelineOptimizeStep = None /\ startService = None)
             /\ (forall e, runPipelineOptimizeStep = Some e ->
                           fst run <> Build.Normal tt)).
  { intros c t -> Hc Hnone. cbn [fst snd]. split; [contradiction|].
    split; [intros Hin; now apply Hnone in Hin|].
    split; [intros f Hin; now apply Hnone in Hin|]. intros _ _. exact Hc. }
  destruct (fst built) as [files|n|e] eqn:Hb; [|contradiction|].
  2:{ destruct Hshape as [Hrun ->]. apply (Hearly _ _ Hrun); [discriminate|exact Hcalm]. }
  destruct (fst (install files)) as [r|n|e] eqn:Einst; [|contradiction|].
  2:{ apply (Hearly _ _ Hshape); [discriminate|exact Hcalm]. }
  destruct (Build.install_failed r).
  { apply (Hearly _ _ Hshape); [discriminate|]. intros ev Hev Hin.
    apply in_app_or in Hin as [Hin|[<-|[]]]; [now apply (Hcalm ev)|discriminate]. }
  destruct Hshape as (c1 & tr & k & Hk & Htr & Hc1).
  destruct c1 as [proxies|n|e]; [|contradiction|].
  2:{ apply (Hearly _ _ Hc1); [discriminate|]. intros ev Hev Hin.
      apply in_app_or in Hin as [Hin|Hin];
        [now apply (Hcalm ev)|now apply (Hrewrite tr ev)]. }
  destruct Hc1 as (Hkeys & c2 & tp & Htp & Hc2).
  destruct c2 as [[]|n|e]; [|contradiction|].
  2:{ apply (Hearly _ _ Hc2); [discriminate|]. intros ev Hev Hin.
      apply in_app_or in Hin as [Hin|Hin]; [now apply (Hcalm ev)|].
      apply in_app_or in Hin as [Hin|Hin];
        [now apply (Hrewrite tr ev)|now apply (Hproxy tp ev)]. }
  rewrite Hc2. cbn [fst snd].
  assert (Hin : forall ev, In ev (snd closing) ->
                           In ev (front ++ tr ++ tp ++ snd closing)).
  { intros ev H. apply in_or_app. right. apply in_or_app. right.
    apply in_or_app. now right. }
  assert (Hout : forall ev, Build.is_final_event ev = true ->
                            In ev (front ++ tr ++ tp ++ snd closing) ->
                            In ev (snd closing)).
  { intros ev Hev H. apply in_app_or in H as [H|H]; [now apply Hcalm in H|].
    apply in_app_or in H as [H|H]; [now apply (Hrewrite tr) in H|].
    apply in_app_or in H as [H|H]; [now apply (Hproxy tp) in H|exact H]. }
  split; [|split; [|split]].
  - intros Hn. destruct (Hnormal Hn) as [_ Hall]. split; [now apply Hin|].
    intros Hm f Hf. now apply Hin, Hall.
  - intros _. exists files. split; [reflexivity|].
    rewrite !rewritten_app, (calm_not_rewritten front Hfront), Hkeys,
      (proxy_not_rewritten tp Htp), (final_not_rewritten _ Hfinal), app_nil_r.
    reflexivity.
  - intros f Hf. apply Hout in Hf; [|reflexivity].
    destruct (Hmin f Hf) as (H1 & H2 & H3 & H4).
    repeat split; try assumption. now apply Hin.
  - intros e He Hn. destruct (Hnormal Hn) as [Hnone _]. congruence.
Qed.

(** X23: of the ways a build ends.  When the build phase throws, the
    build throws the same exception and does nothing more.  The build
    ends by [process.exit] only with status 1, as its last act, and only
    when the installer returned and reported failure.  The build completes
    only when the installer returned and reported no failure and the
    optimize step returned.  And what the installer's scan or the installer
    throws leaves the build. *)
Theorem command_exit_and_completion :
  (forall e, fst built = Build.Throw e -> run = (Build.Throw e, snd built))
  /\ (forall status,
         fst run = Build.Exit status ->
         status = 1%Z
         /\ (exists front, snd run = (front ++ [Build.EvExit 1])%list)
         /\ exists files installTargets r,
              fst built = Build.Normal files
              /\ getInstallTargets (map snd (JS.obj_entries files)) = inl installTargets
              /\ installRunner installTargets = inl r
              /\ Build.install_failed r = true)
  /\ (fst run = Build.Normal tt ->
      runPipelineOptimizeStep = None
      /\ exists files installTargets r,
           fst built = Build.Normal files
           /\ getInstallTargets (map snd (JS.obj_entries files)) = inl installTargets
           /\ installRunner installTargets = inl r
           /\ Build.install_failed r = false)
  /\ (forall files e,
         fst built = Build.Normal files ->
         getInstallTargets (map snd (JS.obj_entries files)) = inr e
         \/ (exists installTargets,
                getInstallTargets (map snd (JS.obj_entries files)) = inl installTargets
                /\ installRunner installTargets = inr e) ->
         fst run = Build.Throw e).
Proof.
  destruct run_shape as (front & Hfront & Hshape).
  destruct closing_events as (_ & _ & Hexit & Hnormal & _).
  split; [|split; [|split]].
  - intros e Hb. rewrite Hb in Hshape. now destruct Hshape.
  - intros status Hrun.
    destruct (fst built) as [files|n|e] eqn:Hb; [|contradiction|].
    2:{ destruct Hshape as [Hs _]. rewrite Hs in Hrun. discriminate. }
    destruct (fst (install files)) as [r|n|e] eqn:Einst; [|contradiction|].
    2:{ rewrite Hshape in Hrun. discriminate. }
    destruct (install_normal files r Einst) as (targets & Ht & Hr).
    destruct (Build.install_failed r) eqn:Hfail.
    + rewrite Hshape in Hrun |- *. cbn [fst snd] in *. injection Hrun as <-.
      split; [reflexivity|]. split; [now exists front|]. now exists files, targets, r.
    + destruct Hshape as (c1 & tr & k & _ & _ & Hc1).
      destruct c1 as [proxies|n|e]; [|contradiction|].
      2:{ rewrite Hc1 in Hrun. discriminate. }
      destruct Hc1 as (_ & c2 & tp & _ & Hc2).
      destruct c2 as [[]|n|e]; [|contradiction|]; rewrite Hc2 in Hrun;
        cbn [fst] in Hrun; [now apply Hexit in Hrun|discriminate].
  - intros Hrun.
    destruct (fst built) as [files|n|e] eqn:Hb; [|contradiction|].
    2:{ destruct Hshape as [Hs _]. rewrite Hs in Hrun. discriminate. }
    destruct (fst (install files)) as [r|n|e] eqn:Einst; [|contradiction|].
    2:{ rewrite Hshape in Hrun. discriminate. }
    destruct (install_normal files r Einst) as (targets & Ht & Hr).
    destruct (Build.install_failed r) eqn:Hfail.
    { rewrite Hshape in Hrun. discriminate. }
    destruct Hshape as (c1 & tr & k & _ & _ & Hc1).
    destruct c1 as [proxies|n|e]; [|contradiction|].
    2:{ rewrite Hc1 in Hrun. discriminate. }
    destruct Hc1 as (_ & c2 & tp & _ & Hc2).
    destruct c2 as [[]|n|e]; [|contradiction|]; rewrite Hc2 in Hrun;
      cbn [fst] in Hrun; [|discriminate].
    destruct (Hnormal Hrun) as [Hopt _]. split; [exact Hopt|].
    now exists files, targets, r.
  - intros files e Hb Hthrow. rewrite Hb in Hshape.
    assert (Hinst : fst (install files) = Build.Throw e).
    { rewrite install_cases.
      destruct Hthrow as [->|(targets & -> & ->)]; reflexivity. }
    rewrite Hinst in Hshape. now rewrite Hshape.
Qed.
End BuildFailures.

Lemma build_phase_registers_written_outputs_witness :
  Forall (Build.output_registered (snd (Examples.project_built_io (fun _ => None))))
         (JS.obj_entries [("/proj/build/index.js", Examples.project_file)])
  /\ (exists files,
         fst (Examples.project_built_io (fun _ => None)) = Build.Normal files)
  /\ (exists e',
         fst (Examples.project_built_io (fun _ => Some Examples.syntax_error))
         = Build.Throw e').
Proof.
  split; [|split].
  - apply (proj1 (build_phase_registers_written_outputs Examples.project_path
                    [("/proj/src", "/proj/build", ["/proj/src/index.js"])]
                    (fun _ => None) (fun _ => inl [(".js", "import 'react'")])
                    (fun _ _ _ _ => "/proj/build/index.js")
                    (fun _ _ _ => "/proj/build") (fun _ _ code => code)
                    (fun code => code) (fun _ => None) (fun _ _ => None))).
    reflexivity.
  - apply (proj1 (proj2 (build_phase_registers_written_outputs Examples.project_path
                    [("/proj/src", "/proj/build", ["/proj/src/index.js"])]
                    (fun _ => None) (fun _ => inl [(".js", "import 'react'")])
                    (fun _ _ _ _ => "/proj/build/index.js")
                    (fun _ _ _ => "/proj/build") (fun _ _ code => code)
                    (fun code => code) (fun _ => None) (fun _ _ => None)))).
    + reflexivity.
    + intros loc. eexists. reflexivity.
    + reflexivity.
    + reflexivity.
  - apply (proj2 (proj2 (build_phase_registers_written_outputs Examples.project_path
                    [("/proj/src", "/proj/build", ["/proj/src/index.js"])]
                    (fun _ => Some Examples.syntax_error)
                    (fun _ => inl [(".js", "import 'react'")])
                    (fun _ _ _ _ => "/proj/build/index.js")
                    (fun _ _ _ => "/proj/build") (fun _ _ code => code)
                    (fun code => code) (fun _ => None) (fun _ _ => None)))
             "/proj/src" "/proj/build" ["/proj/src/index.js"] "/proj/src/index.js"
             Examples.syntax_error).
    + now left.
    + now left.
    + reflexivity.
Defined.

Lemma command_rewrites_every_output_witness :
  Build.rewritten
    (snd (Examples.project_run_io (fun _ => None) (inl Examples.install_ok) None))
  = JS.obj_keys [("/proj/build/index.js", Examples.project_file)]
  /\ Build.rewritten
       (snd (Examples.project_run_io (fun _ => Some Examples.syntax_error)
               (inl Examples.install_ok) None))
     = []
  /\ fst (Examples.project_run_url_parse (fun _ => Some Examples.syntax_error))
     = Build.Throw Examples.syntax_error
  /\ Build.rewritten
       (snd (Examples.project_run_url_parse (fun _ => Some Examples.syntax_error)))
     = [].
Proof.
  split; [|split].
  - apply (proj1 (proj2 (proj1 (command_rewrites_every_output Examples.project_path
             Util.removeLeadingSlash unit "/proj/build"
             [("/proj/src", "/proj/build", ["/proj/src/index.js"])]
             (fun _ => None) (fun _ => inl [(".js", "import 'react'")])
             (fun _ _ _ _ => "/proj/build/index.js") (fun _ _ _ => "/proj/build")
             (fun _ _ code => code) (fun code => code) (fun _ => None)
             (fun _ _ => None) (fun _ => inl tt) (fun _ => inl Examples.install_ok)
             (fun _ _ => Examples.project_resolver) (fun _ => None)
             (fun _ => ["react"]) (fun _ => None)
             (fun _ emitted => "import '" ++ JS.join "," emitted ++ "'")
             (fun _ => None) (fun _ _ => None) (fun _ => inr Examples.no_entry)
             (fun _ code => inl code) (fun _ _ => None) None false None []
             (fun _ => None))
           [("/proj/build/index.js", Examples.project_file)] eq_refl))).
    vm_compute. reflexivity.
  - apply (proj1 (proj2 (command_rewrites_every_output Examples.project_path
             Util.removeLeadingSlash unit "/proj/build"
             [("/proj/src", "/proj/build", ["/proj/src/index.js"])]
             (fun _ => Some Examples.syntax_error) (fun _ => inl [(".js", "import 'react'")])
             (fun _ _ _ _ => "/proj/build/index.js") (fun _ _ _ => "/proj/build")
             (fun _ _ code => code) (fun code => code) (fun _ => None)
             (fun _ _ => None) (fun _ => inl tt) (fun _ => inl Examples.install_ok)
             (fun _ _ => Examples.project_resolver) (fun _ => None)
             (fun _ => ["react"]) (fun _ => None)
             (fun _ emitted => "import '" ++ JS.join "," emitted ++ "'")
             (fun _ => None) (fun _ _ => None) (fun _ => inr Examples.no_entry)
             (fun _ code => inl code) (fun _ _ => None) None false None []
             (fun _ => None)))
           Examples.syntax_error).
    vm_compute. reflexivity.
  - apply (proj2 (proj2 (command_rewrites_every_output Examples.project_path
             Util.removeLeadingSlash unit "/proj/build"
             [("/proj/src", "/proj/build", ["/proj/src/index.js"])]
             (fun _ => None) (fun _ => inl [(".js", "import 'react'")])
             (fun _ _ _ _ => "/proj/build/index.js") (fun _ _ _ => "/proj/build")
             (fun _ _ code => code) (fun code => code) (fun _ => None)
             (fun _ _ => None) (fun _ => inl tt) (fun _ => inl Examples.install_ok)
             (fun _ _ => Examples.project_resolver) (fun _ => Some Examples.syntax_error)
             (fun _ => ["react"]) (fun _ => None)
             (fun _ emitted => "import '" ++ JS.join "," emitted ++ "'")
             (fun _ => None) (fun _ _ => None) (fun _ => inr Examples.no_entry)
             (fun _ code => inl code) (fun _ _ => None) None false None []
             (fun _ => None)))
           [("/proj/build/index.js", Examples.project_file)]
           "/proj/build/index.js" Examples.project_file [] tt Examples.install_ok
           "react" [] "/web_modules/react.js" Examples.syntax_error);
      solve [reflexivity | discriminate | vm_compute; reflexivity].
Defined.

Lemma command_optimize_after_rewriting_witness :
  In Build.EvOptimize
     (snd (Examples.project_run_io (fun _ => None) (inl Examples.install_ok) None))
  /\ fst (Examples.project_run_io (fun _ => None) (inl Examples.install_ok)
            (Some Examples.no_entry))
     <> Build.Normal tt.
Proof.
  assert (Hn : fst (Examples.project_run_io (fun _ => None)
                      (inl Examples.install_ok) None) = Build.Normal tt)
    by (vm_compute; reflexivity).
  split.
  - exact (proj1 (proj1 (command_optimize_after_rewriting Examples.project_path
             Util.removeLeadingSlash unit "/proj/build"
             [("/proj/src", "/proj/build", ["/proj/src/index.js"])]
             (fun _ => None) (fun _ => inl [(".js", "import 'react'")])
             (fun _ _ _ _ => "/proj/build/index.js") (fun _ _ _ => "/proj/build")
             (fun _ _ code => code) (fun code => code) (fun _ => None)
             (fun _ _ => None) (fun _ => inl tt) (fun _ => inl Examples.install_ok)
             (fun _ _ => Examples.project_resolver) (fun _ => None)
             (fun _ => ["react"]) (fun _ => None)
             (fun _ emitted => "import '" ++ JS.join "," emitted ++ "'")
             (fun _ => None) (fun _ _ => None) (fun _ => inr Examples.no_entry)
             (fun _ code => inl code) (fun _ _ => None) None false None []
             (fun _ => None)) Hn)).
  - exact (proj2 (proj2 (proj2 (command_optimize_after_rewriting Examples.project_path
             Util.removeLeadingSlash unit "/proj/build"
             [("/proj/src", "/proj/build", ["/proj/src/index.js"])]
             (fun _ => None) (fun _ => inl [(".js", "import 'react'")])
             (fun _ _ _ _ => "/proj/build/index.js") (fun _ _ _ => "/proj/build")
             (fun _ _ code => code) (fun code => code) (fun _ => None)
             (fun _ _ => None) (fun _ => inl tt) (fun _ => inl Examples.install_ok)
             (fun _ _ => Examples.project_resolver) (fun _ => None)
             (fun _ => ["react"]) (fun _ => None)
             (fun _ emitted => "import '" ++ JS.join "," emitted ++ "'")
             (fun _ => None) (fun _ _ => None) (fun _ => inr Examples.no_entry)
             (fun _ code => inl code) (fun _ _ => None) (Some Examples.no_entry)
             false None [] (fun _ => None))))
           Examples.no_entry eq_refl).
Defined.

Lemma command_exit_and_completion_witness :
  (exists front,
      snd (Examples.project_run_io (fun _ => None) (inl Examples.install_broken) None)
      = (front ++ [Build.EvExit 1])%list)
  /\ fst (Examples.project_run_io (fun _ => None) (inr Examples.not_found) None)
     = Build.Throw Examples.not_found.
Proof.
  split.
  - apply (proj1 (proj2 (command_exit_and_completion Examples.project_path
             Util.removeLeadingSlash unit "/proj/build"
             [("/proj/src", "/proj/build", ["/proj/src/index.js"])]
             (fun _ => None) (fun _ => inl [(".js", "import 'react'")])
             (fun _ _ _ _ => "/proj/build/index.js") (fun _ _ _ => "/proj/build")
             (fun _ _ code => code) (fun code => code) (fun _ => None)
             (fun _ _ => None) (fun _ => inl tt)
             (fun _ => inl Examples.install_broken)
             (fun _ _ => Examples.project_resolver) (fun _ => None)
             (fun _ => ["react"]) (fun _ => None)
             (fun _ emitted => "import '" ++ JS.join "," emitted ++ "'")
             (fun _ => None) (fun _ _ => None) (fun _ => inr Examples.no_entry)
             (fun _ code => inl code) (fun _ _ => None) None false None []
             (fun _ => None))) 1%Z eq_refl).
  - apply (proj2 (proj2 (proj2 (command_exit_and_completion Examples.project_path
             Util.removeLeadingSlash unit "/proj/build"
             [("/proj/src", "/proj/build", ["/proj/src/index.js"])]
             (fun _ => None) (fun _ => inl [(".js", "import 'react'")])
             (fun _ _ _ _ => "/proj/build/index.js") (fun _ _ _ => "/proj/build")
             (fun _ _ code => code) (fun code => code) (fun _ => None)
             (fun _ _ => None) (fun _ => inl tt)
             (fun _ => inr Examples.not_found)
             (fun _ _ => Examples.project_resolver) (fun _ => None)
             (fun _ => ["react"]) (fun _ => None)
             (fun _ emitted => "import '" ++ JS.join "," emitted ++ "'")
             (fun _ => None) (fun _ _ => None) (fun _ => inr Examples.no_entry)
             (fun _ code => inl code) (fun _ _ => None) None false None []
             (fun _ => None))))
           [("/proj/build/index.js", Examples.project_file)] Examples.not_found eq_refl).
    right. exists tt. now split.
Defined.

(** ** The two accounts of the build agree

    When no collaborator fails, the build with failures is the build of
    [Build.command]: what is proved of the traces of [Build.command] is
    proved of the builds in which every call returns. *)

Lemma for_of_ext {A S} (body1 body2 : S -> A -> Build.Proc S) (l : list A) (s : S) :
  (forall s x, body1 s x = body2 s x) ->
  Build.for_of l body1 s = Build.for_of l body2 s.
Proof.
  intros Hbody. revert s. induction l as [|x l IH]; intros s; [reflexivity|].
  cbn [Build.for_of]. rewrite Hbody. unfold Build.then_.
  destruct (body2 s x) as [[s1|n|e] t]; [now rewrite IH|reflexivity..].
Qed.

Lemma then_ext {A B} (m : Build.Proc A) (f g : A -> Build.Proc B) :
  (forall a, f a = g a) -> Build.then_ m f = Build.then_ m g.
Proof.
  intros H. unfold Build.then_. destruct m as [[a|n|e] t]; [now rewrite H|reflexivity..].
Qed.

Lemma then_cong {A B} (m1 m2 : Build.Proc A) (f g : A -> Build.Proc B) :
  m1 = m2 -> (forall a, f a = g a) -> Build.then_ m1 f = Build.then_ m2 g.
Proof. intros ->. apply then_ext. Qed.

(** Where [url.parse] returns, the callback is [Build.rewriteSpecifier]. *)
Lemma callback_returns
  (P : Build.PathModule) (removeLeadingSlash : string -> string)
  (resolveImportSpecifier : string -> option string)
  (buildDirectoryLoc outLoc spec : string) (proxies : list string) :
  BuildIO.callback P removeLeadingSlash (fun _ => None) resolveImportSpecifier
    buildDirectoryLoc outLoc spec proxies
  = inl (Build.rewriteSpecifier P removeLeadingSlash resolveImportSpecifier
           buildDirectoryLoc outLoc spec proxies).
Proof.
  unfold BuildIO.callback, BuildIO.url_parse_protocol, Build.rewriteSpecifier.
  destruct (resolveImportSpecifier spec) as [url0|]; [|reflexivity].
  destruct (negb (Build.truthy url0)); [reflexivity|]. cbn [orb].
  destruct (Build.truthy_opt (Build.url_protocol P url0)); reflexivity.
Qed.

Section Agreement.
Variable P : Build.PathModule.
Variable removeLeadingSlash : string -> string.
Variable InstallTargets : Type.
Variable buildDirectoryLoc : string.
Variable includeFileSets : list (string * string * list string).
Variable buildFile : string -> JS.Obj string.
Variable outLocOf : string -> string -> string -> string -> string.
Variable outDirOf : string -> string -> string -> string.
Variable wrapJs : string -> JS.Obj string -> string -> string.
Variable wrapHtmlResponse : string -> string.
Variable getInstallTargets : list Build.SourceFile -> InstallTargets.
Variable installRunner : InstallTargets -> Build.InstallResult + Util.JsError.
Variable createImportResolver : string -> Util.ImportMap -> string -> option string.
Variable specifiersOf : Build.SourceFile -> list string.
Variable replaceSpecifiers : Build.SourceFile -> list string -> string.
Variable readFile : string -> string + Util.JsError.
Variable wrapImportProxy : string -> string -> string.
Variable minify : bool.
Variable allJsFiles : list string.

Lemma command_io_agrees :
  BuildIO.command P removeLeadingSlash InstallTargets buildDirectoryLoc includeFileSets
    (fun _ => None) (fun loc => inl (buildFile loc)) outLocOf outDirOf wrapJs
    wrapHtmlResponse (fun _ => None) (fun _ _ => None)
    (fun files => inl (getInstallTargets files)) installRunner createImportResolver
    (fun _ => None) specifiersOf (fun _ => None) replaceSpecifiers (fun _ => None)
    (fun _ _ => None) readFile (fun url0 code => inl (wrapImportProxy url0 code))
    (fun _ _ => None) None minify None allJsFiles (fun _ => None)
  = Build.command P removeLeadingSlash InstallTargets buildDirectoryLoc includeFileSets
      buildFile outLocOf wrapJs wrapHtmlResponse getInstallTargets installRunner
      createImportResolver specifiersOf replaceSpecifiers readFile wrapImportProxy
      minify allJsFiles.
Proof.
  unfold BuildIO.command, Build.command, BuildIO.built.
  assert (Hbuild : forall files set,
             BuildIO.buildSource P (fun _ => None) (fun loc => inl (buildFile loc))
               outLocOf outDirOf wrapJs wrapHtmlResponse (fun _ => None)
               (fun _ _ => None) files set
             = Build.buildSource buildFile outLocOf wrapJs wrapHtmlResponse files set).
  { intros files [[dirDisk dirDest] allFiles].
    unfold BuildIO.buildSource, Build.buildSource.
    apply for_of_ext. intros files' loc.
    cbn [BuildIO.check Build.of_result]. rewrite !then_pure.
    apply then_ext. intros _. apply for_of_ext. intros files'' [fileExt code].
    unfold BuildIO.buildOutput, Build.buildOutput.
    destruct (negb (Build.truthy code)); [reflexivity|].
    destruct (String.eqb fileExt ".js"); [|destruct (String.eqb fileExt ".html")];
      reflexivity. }
  apply then_cong; [apply for_of_ext; exact Hbuild|]. intros files.
  apply then_ext. intros _.
  assert (Hinstall :
            BuildIO.installOptimizedDependencies InstallTargets
              (fun files => inl (getInstallTargets files)) installRunner files
            = Build.installOptimizedDependencies InstallTargets getInstallTargets
                installRunner files).
  { unfold BuildIO.installOptimizedDependencies, Build.installOptimizedDependencies.
    apply then_ext. intros _. cbn [Build.of_result]. now rewrite then_pure. }
  apply then_cong; [exact Hinstall|]. intros r. apply then_ext. intros _.
  unfold BuildIO.finish.
  assert (Hrewrite : forall proxies entry,
             BuildIO.rewriteFile P removeLeadingSlash buildDirectoryLoc
               createImportResolver (fun _ => None) specifiersOf (fun _ => None)
               replaceSpecifiers (fun _ => None) (fun _ _ => None) r proxies entry
             = Build.rewriteFile P removeLeadingSlash buildDirectoryLoc
                 createImportResolver specifiersOf replaceSpecifiers r proxies entry).
  { intros proxies [outLoc file]. unfold BuildIO.rewriteFile, Build.rewriteFile.
    apply then_cong.
    - apply for_of_ext. intros [emitted prox] spec. apply then_ext. intros _.
      rewrite callback_returns. cbn [Build.of_result]. rewrite then_pure.
      now destruct (Build.rewriteSpecifier _ _ _ _ _ _ _).
    - intros st. reflexivity. }
  apply then_cong; [apply for_of_ext; exact Hrewrite|]. intros proxies.
  assert (Hproxy : forall u loc,
             BuildIO.writeProxy buildDirectoryLoc readFile
               (fun url0 code => inl (wrapImportProxy url0 code)) (fun _ _ => None) u loc
             = Build.writeProxy buildDirectoryLoc readFile wrapImportProxy u loc).
  { intros u loc. unfold BuildIO.writeProxy, Build.writeProxy.
    apply then_ext. intros _. apply then_ext. intros code.
    cbn [Build.of_result BuildIO.check]. rewrite then_pure.
    unfold Build.then_, Build.emit, Build.pure. reflexivity. }
  apply then_cong; [apply for_of_ext; exact Hproxy|]. intros _.
  apply then_ext. intros _.
  cbn [BuildIO.check]. rewrite then_pure.
  destruct minify; [|reflexivity].
  rewrite then_pure, minify_loop, then_normal. cbn. now rewrite app_nil_r.
Qed.
End Agreement.

(** * The Sass plugin *)

Lemma split_dot_nonempty (s : string) : Sass.split_dot s <> [].
Proof.
  destruct s as [|c s]; simpl; [discriminate|].
  destruct (Ascii.eqb c "."); [discriminate|].
  destruct (Sass.split_dot s); discriminate.
Qed.

Lemma split_dot_no_dot (s : string) :
  Util.no_dot s = true -> Sass.split_dot s = [s].
Proof.
  induction s as [|c s IH]; simpl; [reflexivity|].
  intros H. apply andb_true_iff in H as [Hc Hs].
  destruct (Ascii.eqb c "."); [discriminate|].
  rewrite (IH Hs). reflexivity.
Qed.

Lemma split_dot_app (a b : string) :
  Sass.split_dot (a ++ "." ++ b) = (Sass.split_dot a ++ Sass.split_dot b)%list.
Proof.
  induction a as [|c a IH]; [reflexivity|].
  change (String c a ++ "." ++ b) with (String c (a ++ "." ++ b)).
  cbn [Sass.split_dot]. rewrite IH.
  destruct (Ascii.eqb c "."); [reflexivity|].
  pose proof (split_dot_nonempty a) as Hne.
  destruct (Sass.split_dot a) as [|h t]; [contradiction|reflexivity].
Qed.

Lemma join_cons_char (sep : string) (c : ascii) (h : string) (t : list string) :
  JS.join sep (String c h :: t) = String c (JS.join sep (h :: t)).
Proof. destruct t; reflexivity. Qed.

Lemma join_split_dot (s : string) : JS.join "." (Sass.split_dot s) = s.
Proof.
  induction s as [|c s IH]; [reflexivity|].
  cbn [Sass.split_dot]. pose proof (split_dot_nonempty s) as Hne.
  destruct (Ascii.eqb_spec c ".") as [->|Hc];
    destruct (Sass.split_dot s) as [|h t]; try contradiction.
  - change (JS.join "." (EmptyString :: h :: t)) with ("." ++ JS.join "." (h :: t)).
    now rewrite IH.
  - rewrite join_cons_char. now rewrite IH.
Qed.

Lemma stripFileExtension_last_dot_aux (stem ext : string) :
  Util.no_dot ext = true ->
  Sass.stripFileExtension (stem ++ "." ++ ext) = stem.
Proof.
  intros Hext. unfold Sass.stripFileExtension.
  rewrite split_dot_app, (split_dot_no_dot ext Hext), removelast_last.
  apply join_split_dot.
Qed.

(** X24: [stripFileExtension] takes away the last dot of a path and what
    follows it, and nothing more; a path with no dot at all is stripped
    down to the empty string. *)
Theorem stripFileExtension_last_dot (stem ext : string) :
  Util.no_dot ext = true ->
  Sass.stripFileExtension (stem ++ "." ++ ext) = stem
  /\ Sass.stripFileExtension ext = EmptyString.
Proof.
  intros Hext. split.
  - now apply stripFileExtension_last_dot_aux.
  - unfold Sass.stripFileExtension. now rewrite (split_dot_no_dot ext Hext).
Qed.

Lemma stripFileExtension_last_dot_witness :
  Sass.stripFileExtension ("/proj/src/app.min" ++ "." ++ "scss") = "/proj/src/app.min"
  /\ Sass.stripFileExtension "scss" = EmptyString.
Proof.
  apply (stripFileExtension_last_dot "/proj/src/app.min" "scss"). reflexivity.
Defined.

Lemma split_slash_append (a b : string) :
  JS.split_slash (a ++ "/" ++ b) = (JS.split_slash a ++ JS.split_slash b)%list.
Proof.
  induction a as [|c a IH]; [reflexivity|].
  change (String c a ++ "/" ++ b) with (String c (a ++ "/" ++ b)).
  cbn [JS.split_slash]. rewrite IH.
  destruct (Ascii.eqb c "/"); [reflexivity|].
  pose proof (split_slash_nonempty a) as Hne.
  destruct (JS.split_slash a) as [|h t]; [contradiction|reflexivity].
Qed.

(** No name ends in [.scss] and in [.sass]. *)
Lemma scss_or_sass (s : string) :
  negb (JS.endsWith ".scss" s) || negb (JS.endsWith ".sass" s) = true.
Proof.
  induction s as [|c s IH]; [reflexivity|].
  cbn [JS.endsWith].
  destruct (String.eqb_spec (String c s) ".scss") as [E1|_].
  - injection E1 as -> ->. reflexivity.
  - destruct (String.eqb_spec (String c s) ".sass") as [E2|_].
    + injection E2 as -> ->. reflexivity.
    + exact IH.
Qed.

(** X25: the partial [findChildPartials] reads for an import is the file,
    in the directory of the import, named by the last segment of the
    import with an underscore in front, unless it has one, and with the
    extension of the importing file behind, always: an import that is
    written with its extension gets it twice.  A partial that cannot be
    read counts as empty. *)
Theorem findChildPartials_file_name
  (path_parse_dir : string -> string) (path_resolve : string -> string -> string)
  (readFileSync : string -> string + Util.JsError)
  (dir name fileExt : string) :
  JS.no_slash name = true ->
  let partialName := (if JS.startsWith "_" name then name else "_" ++ name) ++ fileExt in
  Sass.partialFileName (dir ++ "/" ++ name) fileExt = partialName
  /\ Sass.findChildPartials path_parse_dir path_resolve readFileSync
       (dir ++ "/" ++ name) fileExt
     = match readFileSync (path_resolve (path_parse_dir (dir ++ "/" ++ name))
                             partialName) with
       | inl contents => contents
       | inr _ => EmptyString
       end.
Proof.
  intros Hname partialName.
  assert (H : Sass.partialFileName (dir ++ "/" ++ name) fileExt = partialName).
  { unfold Sass.partialFileName.
    rewrite split_slash_append, (split_slash_no_slash name Hname), last_last.
    now rewrite scss_or_sass. }
  split; [exact H|]. unfold Sass.findChildPartials. now rewrite H.
Qed.

Lemma findChildPartials_file_name_witness :
  Sass.partialFileName ("/proj/src" ++ "/" ++ "base.scss") ".scss" = "_base.scss.scss"
  /\ Sass.findChildPartials Posix.dirname (fun dir file => dir ++ "/" ++ file)
       (fun _ => inr Examples.no_entry) ("/proj/src" ++ "/" ++ "base.scss") ".scss"
     = EmptyString.
Proof.
  apply (findChildPartials_file_name Posix.dirname (fun dir file => dir ++ "/" ++ file)
           (fun _ => inr Examples.no_entry) "/proj/src" "base.scss" ".scss").
  reflexivity.
Defined.

Lemma partial_here_prefix (c : ascii) (dir more : string) :
  Sass.partial_here c (dir ++ "/" ++ more) = Sass.partial_here c (dir ++ "/").
Proof.
  unfold Sass.partial_here. destruct dir as [|u [|d dir]]; try reflexivity.
  destruct more; reflexivity.
Qed.

(** The underscore [replace] takes out is the first one that stands
    behind a separator and in front of a character of the line. *)
Lemma replace_partial_first (dir more : string) (c : ascii) :
  Sass.partial_test (dir ++ "/") = false ->
  Sass.is_line_terminator c = false ->
  Sass.replace_partial (dir ++ "/" ++ "_" ++ String c more)
  = dir ++ "/" ++ String c more.
Proof.
  intros Hdir Hc. induction dir as [|x dir IH].
  - cbn. now rewrite Hc.
  - change (String x dir ++ "/" ++ "_" ++ String c more)
      with (String x (dir ++ "/" ++ "_" ++ String c more)).
    cbn [Sass.replace_partial]. rewrite partial_here_prefix.
    change (String x dir ++ "/") with (String x (dir ++ "/")) in Hdir.
    cbn [Sass.partial_test] in Hdir. apply orb_false_iff in Hdir as [Hx Hrest].
    rewrite Hx, (IH Hrest). reflexivity.
Qed.

Lemma onChange_fold (filePath : string) (m : Sass.ImportedBy) :
  Sass.onChange filePath m
  = fold_left (fun st k => Sass._markImportersAsChanged k st)
              (Sass.changeCandidates filePath) (m, []).
Proof.
  unfold Sass.onChange, Sass.changeCandidates.
  destruct (JS.endsWith "_index" (Sass.stripFileExtension filePath)); reflexivity.
Qed.

Lemma substring0_length_app (a b : string) :
  JS.substring0 (String.length a) (a ++ b) = a.
Proof. induction a as [|c a IH]; simpl; [now destruct b|now rewrite IH]. Qed.

(** X26: what a change of a partial looks up.  For the partial
    [dir/_name.ext], where no underscore of [dir] stands right behind a
    separator, [onChange] looks up, in this order, the path of the file,
    that path without the extension, without the underscore, and without
    both, the last being what an import of [name] from that directory
    resolves to; for [dir/_index.ext] it then looks up [dir].  (The
    underscore taken out is the first one behind a separator, so [name]
    may itself go on through further directories.) *)
Theorem onChange_lookups_of_partial (dir name ext : string) (c : ascii)
        (m : Sass.ImportedBy) :
  Sass.partial_test (dir ++ "/") = false ->
  Sass.is_line_terminator c = false ->
  Util.no_dot ext = true ->
  let partial := String c name in
  let filePath := dir ++ "/" ++ "_" ++ partial ++ "." ++ ext in
  Sass.onChange filePath m
  = fold_left (fun st k => Sass._markImportersAsChanged k st)
              (Sass.changeCandidates filePath) (m, [])
  /\ firstn 4 (Sass.changeCandidates filePath)
     = [filePath;
        dir ++ "/" ++ "_" ++ partial;
        dir ++ "/" ++ partial ++ "." ++ ext;
        dir ++ "/" ++ partial]
  /\ (partial = "index" ->
      Sass.changeCandidates filePath
      = [filePath;
         dir ++ "/" ++ "_" ++ partial;
         dir ++ "/" ++ partial ++ "." ++ ext;
         dir ++ "/" ++ partial;
         dir]).
Proof.
  intros Hdir Hc Hext partial filePath.
  assert (Hstrip : Sass.stripFileExtension filePath = dir ++ "/" ++ "_" ++ partial).
  { subst filePath.
    replace (dir ++ "/" ++ "_" ++ partial ++ "." ++ ext)
      with ((dir ++ "/" ++ "_" ++ partial) ++ "." ++ ext)
      by now rewrite !string_app_assoc.
    now apply stripFileExtension_last_dot_aux. }
  assert (H1 : Sass.replace_partial filePath = dir ++ "/" ++ partial ++ "." ++ ext).
  { subst filePath partial.
    change (String c name ++ "." ++ ext) with (String c (name ++ "." ++ ext)).
    now apply replace_partial_first. }
  assert (H2 : Sass.replace_partial (dir ++ "/" ++ "_" ++ partial)
               = dir ++ "/" ++ partial).
  { subst partial. now apply replace_partial_first. }
  assert (H4 : firstn 4 (Sass.changeCandidates filePath)
               = [filePath; dir ++ "/" ++ "_" ++ partial;
                  dir ++ "/" ++ partial ++ "." ++ ext; dir ++ "/" ++ partial]).
  { unfold Sass.changeCandidates. cbn [firstn app]. now rewrite Hstrip, H1, H2. }
  split; [apply onChange_fold|]. split; [exact H4|].
  intros Hindex. unfold Sass.changeCandidates in *. cbn [firstn app] in H4.
  injection H4 as E2 E3 E4. rewrite Hstrip in *. rewrite H1, H2, Hindex.
  replace (dir ++ "/" ++ "_" ++ "index") with ((dir ++ "/") ++ "_index")
    by now rewrite string_app_assoc.
  rewrite endsWith_app.
  replace (String.length ((dir ++ "/") ++ "_index") - 7) with (String.length dir)
    by (rewrite !length_app; simpl; lia).
  rewrite string_app_assoc, substring0_length_app. reflexivity.
Qed.

Lemma onChange_lookups_of_partial_witness :
  Sass.changeCandidates "/proj/src/theme/_index.scss"
  = ["/proj/src/theme/_index.scss"; "/proj/src/theme/_index";
     "/proj/src/theme/index.scss"; "/proj/src/theme/index"; "/proj/src/theme"].
Proof.
  apply (onChange_lookups_of_partial "/proj/src/theme" "ndex" "scss" "i" []);
    reflexivity.
Defined.

(** ** The map of importers *)

Lemma map_get_add_to_same (m : Sass.ImportedBy) (k f : string) (v : list string) :
  Sass.map_get m k = Some v ->
  Sass.map_get (Sass.map_add_to m k f) k = Some (Build.set_add f v).
Proof.
  induction m as [|[k' v'] m IH]; simpl; [discriminate|].
  destruct (String.eqb k' k) eqn:E; simpl; rewrite E; [now intros [= ->]|exact IH].
Qed.

Lemma map_get_add_to_other (m : Sass.ImportedBy) (k k0 f : string) :
  k0 <> k -> Sass.map_get (Sass.map_add_to m k f) k0 = Sass.map_get m k0.
Proof.
  intros Hne. induction m as [|[k' v'] m IH]; simpl; [reflexivity|].
  destruct (String.eqb_spec k' k) as [->|Hk]; simpl.
  - destruct (String.eqb_spec k k0) as [->|_]; [contradiction|reflexivity].
  - now rewrite IH.
Qed.

Lemma map_get_app_new (m : Sass.ImportedBy) (k k0 : string) (v : list string) :
  Sass.map_get m k = None ->
  Sass.map_get (m ++ [(k, v)])%list k0
  = if String.eqb k k0 then Some v else Sass.map_get m k0.
Proof.
  induction m as [|[k' v'] m IH]; simpl; [reflexivity|].
  destruct (String.eqb_spec k' k) as [->|Hk]; [discriminate|]. intros H.
  rewrite (IH H). destruct (String.eqb_spec k' k0) as [->|_]; [|reflexivity].
  destruct (String.eqb_spec k k0) as [->|_]; [contradiction|reflexivity].
Qed.

(** Registering an import keeps every importer there was and adds the
    file to the importers of that import. *)
Lemma addImportsToMap_keeps (f imp k x : string) (m : Sass.ImportedBy) (v : list string) :
  Sass.map_get m k = Some v -> In x v ->
  exists v', Sass.map_get (Sass.addImportsToMap f imp m) k = Some v' /\ In x v'.
Proof.
  intros Hget Hin. unfold Sass.addImportsToMap.
  destruct (Sass.map_get m imp) as [w|] eqn:E.
  - destruct (String.eqb_spec k imp) as [->|Hne].
    + rewrite (map_get_add_to_same _ _ _ _ E). eexists. split; [reflexivity|].
      apply set_add_keeps. congruence.
    + rewrite map_get_add_to_other by exact Hne. now exists v.
  - rewrite (map_get_app_new _ _ _ _ E).
    destruct (String.eqb_spec imp k) as [->|_]; [congruence|now exists v].
Qed.

Lemma addImportsToMap_registers (f imp : string) (m : Sass.ImportedBy) :
  exists v, Sass.map_get (Sass.addImportsToMap f imp m) imp = Some v /\ In f v.
Proof.
  unfold Sass.addImportsToMap. destruct (Sass.map_get m imp) as [w|] eqn:E.
  - rewrite (map_get_add_to_same _ _ _ _ E). eexists. split; [reflexivity|].
    apply set_add_In.
  - rewrite (map_get_app_new _ _ _ _ E), String.eqb_refl.
    eexists. split; [reflexivity|]. now left.
Qed.

Lemma addAllImports_registers (f imp : string) (imports : list string)
      (m : Sass.ImportedBy) :
  In imp imports ->
  exists v, Sass.map_get (Sass.addAllImports f imports m) imp = Some v /\ In f v.
Proof.
  unfold Sass.addAllImports.
  assert (Hkeep : forall l m0,
             (exists v, Sass.map_get m0 imp = Some v /\ In f v) ->
             exists v, Sass.map_get
                         (fold_left (fun m i => Sass.addImportsToMap f i m) l m0) imp
                       = Some v /\ In f v).
  { induction l as [|i l IH]; intros m0 H; [exact H|]. simpl. apply IH.
    destruct H as (v & Hv & Hin). now apply (addImportsToMap_keeps f i imp f m0 v). }
  revert m. induction imports as [|i imports IH]; intros m Hin; [destruct Hin|].
  simpl. destruct Hin as [->|Hin]; [|now apply IH].
  apply Hkeep, addImportsToMap_registers.
Qed.

Lemma map_get_delete_other (m : Sass.ImportedBy) (k k0 : string) :
  k0 <> k -> Sass.map_get (Sass.map_delete m k) k0 = Sass.map_get m k0.
Proof.
  intros Hne. induction m as [|[k' v'] m IH]; simpl; [reflexivity|].
  destruct (String.eqb_spec k' k) as [->|Hk]; simpl.
  - destruct (String.eqb_spec k k0) as [->|_]; [contradiction|reflexivity].
  - now rewrite IH.
Qed.

(** Looking a path up marks its importers; whoever was marked stays
    marked, and the importers under other paths stay in the map. *)
Lemma mark_step (k k0 x : string) (st : Sass.ImportedBy * list string) :
  (In x (snd st) \/ exists v, Sass.map_get (fst st) k0 = Some v /\ In x v) ->
  let st' := Sass._markImportersAsChanged k st in
  (In x (snd st') \/ exists v, Sass.map_get (fst st') k0 = Some v /\ In x v)
  /\ (k = k0 -> In x (snd st')).
Proof.
  destruct st as [m marked]. unfold Sass._markImportersAsChanged. cbn [fst snd].
  intros H. destruct (Sass.map_get m k) as [w|] eqn:E; cbn [fst snd].
  - split.
    + destruct H as [H|(v & Hv & Hin)]; [left; apply in_or_app; now left|].
      destruct (String.eqb_spec k0 k) as [->|Hne].
      * left. apply in_or_app. right. congruence.
      * right. exists v. now rewrite map_get_delete_other.
    + intros <-. destruct H as [H|(v & Hv & Hin)]; apply in_or_app;
        [now left|right; congruence].
  - split; [exact H|]. intros <-. destruct H as [H|(v & Hv & _)]; [exact H|congruence].
Qed.

Lemma mark_fold (x k0 : string) (keys : list string)
      (st : Sass.ImportedBy * list string) :
  In k0 keys ->
  (In x (snd st) \/ exists v, Sass.map_get (fst st) k0 = Some v /\ In x v) ->
  In x (snd (fold_left (fun st k => Sass._markImportersAsChanged k st) keys st)).
Proof.
  assert (Hkeep : forall l st0, In x (snd st0) ->
            In x (snd (fold_left (fun st k => Sass._markImportersAsChanged k st) l st0))).
  { induction l as [|k l IH]; intros st0 H; [exact H|]. simpl. apply IH.
    apply (mark_step k k x st0); [now left|reflexivity]. }
  revert st. induction keys as [|k keys IH]; intros st Hin H; [destruct Hin|].
  simpl. destruct (mark_step k k0 x st H) as [Hor Hsame].
  destruct Hin as [->|Hin]; [apply Hkeep; now apply Hsame|now apply IH].
Qed.

(** X27: the round trip of the development server: once [load], in
    development, has compiled a file, a change of any file one of whose
    look-ups is an import the scan found in it marks the file as
    changed. *)
Theorem load_then_onChange_marks_importer
  (path_parse_dir : string -> string) (path_resolve : string -> string -> string)
  (path_dirname path_extname path_basename : string -> string)
  (readFileSync : string -> string + Util.JsError)
  (isDirectory : string -> bool + Util.JsError)
  (importTargets : string -> list string)
  (sass : list string -> string -> Sass.Output + Util.JsError)
  (compilerOptions : JS.Obj Sass.Value)
  (fuel : nat) (filePath contents changed imp : string)
  (sassImports partials : list string) (m : Sass.ImportedBy) :
  readFileSync filePath = inl contents ->
  JS.startsWith "_" (path_basename filePath) = false ->
  Sass.scanSassImports path_parse_dir path_resolve path_dirname readFileSync
    isDirectory importTargets fuel contents filePath (path_extname filePath) []
  = Some (sassImports, partials) ->
  In imp sassImports ->
  In imp (Sass.changeCandidates changed) ->
  exists loaded,
    Sass.load path_parse_dir path_resolve path_dirname path_extname path_basename
      readFileSync isDirectory importTargets sass compilerOptions fuel filePath true m
    = Some loaded
    /\ In filePath (snd (Sass.onChange changed (Sass.importedByMap loaded))).
Proof.
  intros Hread Hpartial Hscan Himp Hchanged.
  unfold Sass.load. rewrite Hread, Hpartial, Hscan.
  eexists. split; [reflexivity|].
  rewrite onChange_fold. apply (mark_fold filePath imp); [exact Hchanged|].
  right. cbn [fst].
  assert (Hmap : Sass.importedByMap
                   (Sass.compile path_dirname sass compilerOptions filePath
                      (path_extname filePath) contents
                      (Sass.addAllImports filePath sassImports m))
                 = Sass.addAllImports filePath sassImports m).
  { unfold Sass.compile.
    destruct (Sass.parseCompilerOptions _ _); [|reflexivity].
    destruct (sass _ _); reflexivity. }
  rewrite Hmap. now apply addAllImports_registers.
Qed.

Lemma map_get_None_keys (m : Sass.ImportedBy) (k : string) :
  Sass.map_get m k = None <-> ~ In k (map fst m).
Proof.
  induction m as [|[k' v] m IH]; simpl; [tauto|].
  destruct (String.eqb_spec k' k) as [->|Hne].
  - split; [discriminate|]. intros H. exfalso. apply H. now left.
  - rewrite IH. tauto.
Qed.

Lemma map_delete_keys (m : Sass.ImportedBy) (k x : string) :
  In x (map fst (Sass.map_delete m k)) -> In x (map fst m).
Proof.
  induction m as [|[k' v] m IH]; simpl; [tauto|].
  destruct (String.eqb k' k); simpl; tauto.
Qed.

Lemma map_delete_NoDup (m : Sass.ImportedBy) (k : string) :
  NoDup (map fst m) -> NoDup (map fst (Sass.map_delete m k)).
Proof.
  induction m as [|[k' v] m IH]; simpl; [trivial|].
  intros H. inversion H as [|? ? Hnot Hnd]; subst.
  destruct (String.eqb k' k); [exact Hnd|]. simpl. constructor; [|now apply IH].
  intros Hin. apply Hnot. now apply map_delete_keys in Hin.
Qed.

Lemma map_get_delete_same (m : Sass.ImportedBy) (k : string) :
  NoDup (map fst m) -> Sass.map_get (Sass.map_delete m k) k = None.
Proof.
  induction m as [|[k' v] m IH]; simpl; [reflexivity|].
  intros H. inversion H as [|? ? Hnot Hnd]; subst.
  destruct (String.eqb_spec k' k) as [->|Hne].
  - now apply map_get_None_keys.
  - simpl. destruct (String.eqb_spec k' k) as [->|_]; [contradiction|now apply IH].
Qed.

(** What a look-up leaves: the map is still a map, the path looked up is
    no key of it, and no key has come to it. *)
Lemma mark_forgets (k : string) (st : Sass.ImportedBy * list string) :
  NoDup (map fst (fst st)) ->
  let st' := Sass._markImportersAsChanged k st in
  NoDup (map fst (fst st'))
  /\ Sass.map_get (fst st') k = None
  /\ (forall k0, Sass.map_get (fst st) k0 = None -> Sass.map_get (fst st') k0 = None).
Proof.
  destruct st as [m marked]. unfold Sass._markImportersAsChanged. cbn [fst].
  intros Hnd. destruct (Sass.map_get m k) as [w|] eqn:E; cbn [fst].
  - split; [now apply map_delete_NoDup|]. split; [now apply map_get_delete_same|].
    intros k0 H0. apply map_get_None_keys. intros Hin.
    apply map_delete_keys in Hin. now apply map_get_None_keys in H0.
  - now repeat split.
Qed.

Lemma mark_fold_forgets (keys : list string) (st : Sass.ImportedBy * list string) :
  NoDup (map fst (fst st)) ->
  let st' := fold_left (fun st k => Sass._markImportersAsChanged k st) keys st in
  forall k, In k keys \/ Sass.map_get (fst st) k = None ->
            Sass.map_get (fst st') k = None.
Proof.
  revert st. induction keys as [|k0 keys IH]; intros st Hnd; simpl.
  - intros k [[]|H]. exact H.
  - destruct (mark_forgets k0 st Hnd) as (Hnd' & Hsame & Hother).
    intros k Hk. apply (IH _ Hnd'). destruct Hk as [[->|Hin]|Hnone].
    + now right.
    + now left.
    + right. now apply Hother.
Qed.

Lemma mark_fold_absent (keys : list string) (st : Sass.ImportedBy * list string) :
  (forall k, In k keys -> Sass.map_get (fst st) k = None) ->
  fold_left (fun st k => Sass._markImportersAsChanged k st) keys st = st.
Proof.
  induction keys as [|k keys IH]; intros H; [reflexivity|]. simpl.
  assert (Hk : Sass._markImportersAsChanged k st = st).
  { destruct st as [m marked]. unfold Sass._markImportersAsChanged.
    cbn [fst] in H. now rewrite (H k (or_introl eq_refl)). }
  rewrite Hk. apply IH. intros k' Hin. apply H. now right.
Qed.

(** X28: a change is passed on once: when the same file changes again
    before any file was loaded again, nothing is marked and the map stays
    as it is. *)
Theorem onChange_twice_marks_nothing (filePath : string) (m : Sass.ImportedBy) :
  NoDup (map fst m) ->
  Sass.onChange filePath (fst (Sass.onChange filePath m))
  = (fst (Sass.onChange filePath m), []).
Proof.
  intros Hnd. rewrite !onChange_fold.
  apply mark_fold_absent. cbn [fst]. intros k Hk.
  apply (mark_fold_forgets (Sass.changeCandidates filePath) (m, []) Hnd).
  now left.
Qed.

Lemma onChange_twice_marks_nothing_witness :
  Sass.onChange "/proj/src/_base.scss"
    (fst (Sass.onChange "/proj/src/_base.scss"
            [("/proj/src/base", ["/proj/src/main.scss"])]))
  = (fst (Sass.onChange "/proj/src/_base.scss"
            [("/proj/src/base", ["/proj/src/main.scss"])]), []).
Proof.
  apply (onChange_twice_marks_nothing "/proj/src/_base.scss"
           [("/proj/src/base", ["/proj/src/main.scss"])]).
  repeat constructor. intros [].
Defined.

(** ** The compiler options *)

Lemma parseEach_repeat (c d : ascii) (rest : string) (elements : list Sass.Value)
      (args : list string) :
  let arg := "--" ++ Sass.kebab (String c EmptyString) ++ "=" ++ String d EmptyString in
  Sass.parseEach (String c (String d rest)) elements args
  = inl (args ++ repeat arg (length elements))%list.
Proof.
  intros arg. revert args. induction elements as [|e elements IH]; intros args.
  - simpl. now rewrite app_nil_r.
  - cbn [Sass.parseEach Sass.parseCompilerOption_of_string length repeat].
    rewrite IH, <- app_assoc. reflexivity.
Qed.

(** X29: an option whose value is an array does not pass the elements
    of the array on.  Each element adds one argument, made of the first
    two characters of the name of the option: two dashes, the first
    character (after a dash and in lower case if it is a capital), an
    equals sign and the second character.  When the name has one
    character only, [load] throws the error of an unsupported value, and
    when the name is empty a [TypeError]; an empty array adds nothing. *)
Theorem parseCompilerOption_array_ignores_elements
  (c d : ascii) (rest : string) (e : Sass.Value) (elements : list Sass.Value)
  (args : list string) :
  let arg := "--" ++ Sass.kebab (String c EmptyString) ++ "=" ++ String d EmptyString in
  Sass.parseCompilerOption (String c (String d rest), Sass.VArray elements) args
  = inl (args ++ repeat arg (length elements))%list
  /\ Sass.parseCompilerOption (String c EmptyString, Sass.VArray (e :: elements)) args
     = inr (Sass.unsupported (String c EmptyString))
  /\ Sass.parseCompilerOption (EmptyString, Sass.VArray (e :: elements)) args
     = inr Sass.TypeError
  /\ forall flag, Sass.parseCompilerOption (flag, Sass.VArray []) args = inl args.
Proof.
  intros arg. repeat split.
  unfold Sass.parseCompilerOption. apply parseEach_repeat.
Qed.

(** ** The scan of the imports *)

Lemma existsb_eqb_In (x : string) (l : list string) :
  existsb (String.eqb x) l = true <-> In x l.
Proof.
  rewrite existsb_exists. split.
  - intros (y & Hy & He). apply String.eqb_eq in He. now subst.
  - intros H. exists x. split; [exact H|apply String.eqb_refl].
Qed.

Section ScanFacts.
Variable path_parse_dir : string -> string.
Variable path_resolve : string -> string -> string.
Variable path_dirname : string -> string.
Variable readFileSync : string -> string + Util.JsError.
Variable isDirectory : string -> bool + Util.JsError.
Variable importTargets : string -> list string.
Variable known : list string.
Variable fileExt : string.

Let scan :=
  Sass.scanSassImports path_parse_dir path_resolve path_dirname readFileSync
    isDirectory importTargets.
Let resolvesInto := Sass.resolvesInto path_resolve path_dirname importTargets known.
Let imports (fileContents : string) : list string :=
  filter Sass.scanned (importTargets fileContents).

Hypothesis closed :
  Sass.importsClosed path_parse_dir path_resolve path_dirname readFileSync
    isDirectory importTargets known fileExt = true.

(** A scan that starts with fuel for every known path that is not yet in
    [partials] comes to its end. *)
Lemma scan_enough_fuel (fuel : nat) :
  forall (fileContents filePath : string) (partials : list string),
    resolvesInto fileContents filePath = true ->
    NoDup partials -> incl partials known ->
    length known < fuel + length partials ->
    exists found partials',
      scan fuel fileContents filePath fileExt partials = Some (found, partials')
      /\ NoDup partials' /\ incl partials' known /\ incl partials partials'
      /\ incl found partials'
      /\ forall fileName, In fileName (imports fileContents) ->
                          In (path_resolve (path_dirname filePath) fileName) found.
Proof.
  induction fuel as [|fuel IH]; intros fileContents filePath partials Hres Hnd Hincl Hlen.
  - pose proof (NoDup_incl_length Hnd Hincl). simpl in Hlen. lia.
  - subst scan. cbn [Sass.scanSassImports]. fold (imports fileContents).
    set (step := fun (acc : option (list string * list string)) (fileName : string) => _).
    assert (Hnames : forall fileName, In fileName (imports fileContents) ->
                       In (path_resolve (path_dirname filePath) fileName) known).
    { intros fileName Hin. subst resolvesInto. unfold Sass.resolvesInto in Hres.
      rewrite forallb_forall in Hres. apply existsb_eqb_In. now apply Hres. }
    clear Hres.
    assert (Hfold : forall names found0 partials1,
               (forall fileName, In fileName names ->
                  In (path_resolve (path_dirname filePath) fileName) known) ->
               NoDup partials1 -> incl partials1 known ->
               length known < S fuel + length partials1 ->
               exists found partials2,
                 fold_left step names (Some (found0, partials1))
                 = Some (found, partials2)
                 /\ NoDup partials2 /\ incl partials2 known
                 /\ incl partials1 partials2
                 /\ (incl found0 partials1 -> incl found partials2)
                 /\ incl found0 found
                 /\ forall fileName, In fileName names ->
                      In (path_resolve (path_dirname filePath) fileName) found).
    { clear Hnames Hnd Hincl Hlen partials.
      induction names as [|fileName names IHn];
        intros found0 partials1 Hnames Hnd Hincl Hlen.
      - exists found0, partials1. repeat split; auto using incl_refl. intros ? [].
      - cbn [fold_left]. set (pathName := path_resolve (path_dirname filePath) fileName).
        assert (Hknown : In pathName known) by (apply Hnames; now left).
        assert (Hrest : forall f, In f names ->
                          In (path_resolve (path_dirname filePath) f) known)
          by (intros f Hf; apply Hnames; now right).
        assert (Hstep : exists found1 partials2,
                   step (Some (found0, partials1)) fileName = Some (found1, partials2)
                   /\ NoDup partials2 /\ incl partials2 known
                   /\ incl partials1 partials2
                   /\ (incl found0 partials1 -> incl found1 partials2)
                   /\ incl (found0 ++ [pathName]) found1).
        { unfold step. fold pathName.
          destruct (existsb (String.eqb pathName) partials1) eqn:Hmem.
          - apply existsb_eqb_In in Hmem.
            exists (found0 ++ [pathName])%list, partials1.
            repeat split; auto using incl_refl.
            intros H. apply incl_app; [exact H|]. intros x [<-|[]]. exact Hmem.
          - assert (Hnew : ~ In pathName partials1).
            { intros H. apply existsb_eqb_In in H. congruence. }
            assert (Hnd1 : NoDup (partials1 ++ [pathName])).
            { apply NoDup_app; [exact Hnd|repeat constructor; intros []|].
              intros x Hx [<-|[]]. contradiction. }
            assert (Hincl1 : incl (partials1 ++ [pathName]) known).
            { apply incl_app; [exact Hincl|]. intros x [<-|[]]. exact Hknown. }
            assert (Hsub1 : incl partials1 (partials1 ++ [pathName]))
              by (apply incl_appl, incl_refl).
            assert (Hin1 : In pathName (partials1 ++ [pathName]))
              by (apply in_or_app; right; now left).
            cbv zeta.
            destruct (Build.truthy _) eqn:Htruthy.
            + destruct (IH (Sass.findChildPartials path_parse_dir path_resolve
                              readFileSync
                              (Sass.childPathOf isDirectory pathName) fileExt)
                           (Sass.childPathOf isDirectory pathName)
                           (partials1 ++ [pathName])%list)
                as (child & partials2 & Hscan & Hnd2 & Hincl2 & Hsub2 & Hchild & _).
              { unfold Sass.importsClosed in closed. rewrite forallb_forall in closed.
                now apply closed. }
              { exact Hnd1. }
              { exact Hincl1. }
              { rewrite List.length_app. simpl. lia. }
              rewrite Hscan.
              exists (found0 ++ pathName :: child)%list, partials2.
              repeat split; try assumption.
              * eapply incl_tran; eassumption.
              * intros H. apply incl_app.
                -- eapply incl_tran; [exact H|]. eapply incl_tran; eassumption.
                -- intros x [<-|Hx]; [now apply Hsub2|now apply Hchild].
              * apply incl_app; [apply incl_appl, incl_refl|].
                intros x [<-|[]]. apply in_or_app. right. now left.
            + exists (found0 ++ [pathName])%list, (partials1 ++ [pathName])%list.
              repeat split; auto using incl_refl.
              intros H. apply incl_app; [eapply incl_tran; eassumption|].
              intros x [<-|[]]. exact Hin1. }
        destruct Hstep as (found1 & partials2 & Hstep & Hnd2 & Hincl2 & Hsub & Hfound
                           & Hgrow).
        rewrite Hstep.
        destruct (IHn found1 partials2 Hrest Hnd2 Hincl2)
          as (found & partials3 & Hf & Hnd3 & Hincl3 & Hsub3 & Hfound3 & Hgrow3 & Hall).
        { pose proof (NoDup_incl_length Hnd Hsub). lia. }
        exists found, partials3. repeat split; try assumption.
        + eapply incl_tran; eassumption.
        + intros H. apply Hfound3. now apply Hfound.
        + intros x Hx. apply Hgrow3, Hgrow. apply in_or_app. now left.
        + intros f [<-|Hf']; [|now apply Hall].
          apply Hgrow3, Hgrow. apply in_or_app. right. now left. }
    destruct (Hfold (imports fileContents) [] partials Hnames Hnd Hincl Hlen)
      as (found & partials' & Hf & Hnd' & Hincl' & Hsub' & Hfound & _ & Hall).
    exists found, partials'. repeat split; try assumption.
    apply Hfound. intros x [].
Qed.
End ScanFacts.

(** X30: the scan of the imports ends, also when partials import each
    other in a circle.  When the imports of a file, and those of the
    partial of every known path, resolve to known paths, [scanSassImports]
    comes to its end with one unit of fuel more than there are known
    paths; the array [partials] then holds known paths, each once; every
    path returned is in it; and the path of every import of the file
    itself is returned. *)
Theorem scanSassImports_ends
  (path_parse_dir : string -> string) (path_resolve : string -> string -> string)
  (path_dirname : string -> string)
  (readFileSync : string -> string + Util.JsError)
  (isDirectory : string -> bool + Util.JsError)
  (importTargets : string -> list string)
  (known : list string) (fileContents filePath fileExt : string) :
  Sass.resolvesInto path_resolve path_dirname importTargets known
    fileContents filePath = true ->
  Sass.importsClosed path_parse_dir path_resolve path_dirname readFileSync
    isDirectory importTargets known fileExt = true ->
  exists found partials,
    Sass.scanSassImports path_parse_dir path_resolve path_dirname readFileSync
      isDirectory importTargets (S (length known)) fileContents filePath fileExt []
    = Some (found, partials)
    /\ NoDup partials /\ incl partials known /\ incl found partials
    /\ forall fileName,
         In fileName (filter Sass.scanned (importTargets fileContents)) ->
         In (path_resolve (path_dirname filePath) fileName) found.
Proof.
  intros Hres Hclosed.
  destruct (scan_enough_fuel path_parse_dir path_resolve path_dirname readFileSync
              isDirectory importTargets known fileExt Hclosed (S (length known))
              fileContents filePath [] Hres)
    as (found & partials & Hscan & Hnd & Hincl & _ & Hfound & Hall).
  - constructor.
  - intros x [].
  - simpl. lia.
  - now exists found, partials.
Qed.

Lemma scanSassImports_ends_witness :
  exists found partials,
    Examples.sass_scan 3 "@use 'base';" "/proj/src/main.scss" = Some (found, partials)
    /\ NoDup partials
    /\ incl partials ["/proj/src/base"; "/proj/src/theme"]
    /\ incl found partials
    /\ forall fileName,
         In fileName (filter Sass.scanned (Examples.sass_importTargets "@use 'base';")) ->
         In (Posix.resolve "/proj" (Posix.dirname "/proj/src/main.scss") fileName) found.
Proof.
  apply (scanSassImports_ends Posix.dirname (Posix.resolve "/proj") Posix.dirname
           Examples.sass_readFileSync Examples.sass_isDirectory
           Examples.sass_importTargets ["/proj/src/base"; "/proj/src/theme"]
           "@use 'base';" "/proj/src/main.scss" ".scss");
    vm_compute; reflexivity.
Defined.

Lemma load_then_onChange_marks_importer_witness :
  exists loaded,
    Examples.sass_load "/proj/src/main.scss" true [] = Some loaded
    /\ In "/proj/src/main.scss"
          (snd (Sass.onChange "/proj/src/_theme.scss" (Sass.importedByMap loaded))).
Proof.
  apply (load_then_onChange_marks_importer Posix.dirname (Posix.resolve "/proj")
           Posix.dirname Posix.extname Examples.sass_basename
           Examples.sass_readFileSync Examples.sass_isDirectory
           Examples.sass_importTargets
           (fun _ text => inl {| Sass.stdout := text; Sass.stderr := EmptyString |})
           [] 3 "/proj/src/main.scss" "@use 'base';" "/proj/src/_theme.scss"
           "/proj/src/theme"
           ["/proj/src/base"; "/proj/src/theme"; "/proj/src/base"]
           ["/proj/src/base"; "/proj/src/theme"] []).
  - reflexivity.
  - reflexivity.
  - vm_compute. reflexivity.
  - right. now left.
  - vm_compute. tauto.
Defined.
